(** * ewsmon: dashboard helpers, chart aggregation and the alerting rules

    A shallow embedding of the JavaScript dashboard code of the ewsmon
    uptime monitor (the functions [pick], [inferEnv], [filterByEnv],
    [escapeHtml], [computeTopStats], [getStatusRank], [bucketProbes],
    [setSummary], [setSummaryFromApi]) together with the probe state machine
    and the alert cooldown rule described by the specification.

    Conventions of the embedding:
    - a JavaScript number is an exact rational [Q] extended with [NaN] and the
      two infinities; integer counters are [Z], and the time value of a date
      is a [Z] of milliseconds or nothing for an invalid date;
    - a JavaScript object read through [obj[k]] is a finite map from property
      names to values;
    - a string is a sequence of bytes (UTF-8); every character the code
      inspects is ASCII, so byte-wise and code-unit-wise processing agree;
      the message of a timeline entry, which the code trims, measures and
      slices, is the sequence of its UTF-16 code units. *)

From Stdlib Require Import Ascii String QArith Qround Lqa Sorting.Sorted Sorting.Permutation.
From stdpp Require Import gmap strings list fin_maps.

Local Open Scope Z_scope.

(* ===================================================================== *)
(** * Part I. Definitions                                                 *)
(* ===================================================================== *)

(** ** JavaScript values *)

Inductive number : Type :=
  | NaN
  | Fin (q : Q)
  | PosInf
  | NegInf.

Inductive value : Type :=
  | VUndefined
  | VNull
  | VBool (b : bool)
  | VNum (n : number)
  | VStr (s : string).

(** A JSON object of the API, read by property name. *)
Abbreviation object := (gmap string value).

(** The two built-in conversions between strings and numbers are left
    abstract: every result below holds for any implementation of them. *)
Class JsBuiltins := {
  StringToNumber : string -> number;
  NumberToString : number -> string
}.

Definition isNaN (n : number) : bool :=
  match n with NaN => true | _ => false end.

(** [n >= t] for a finite threshold [t]; any comparison with NaN is false. *)
Definition number_ge (n : number) (t : Q) : bool :=
  match n with
  | NaN => false
  | Fin q => Qle_bool t q
  | PosInf => true
  | NegInf => false
  end.

(** [!!v] *)
Definition truthy (v : value) : bool :=
  match v with
  | VUndefined => false
  | VNull => false
  | VBool b => b
  | VNum NaN => false
  | VNum (Fin q) => negb (Qeq_bool q 0)
  | VNum _ => true
  | VStr s => negb (String.eqb s "")
  end.

(** [a === b] *)
Definition strictEq (a b : value) : bool :=
  match a, b with
  | VUndefined, VUndefined => true
  | VNull, VNull => true
  | VBool x, VBool y => Bool.eqb x y
  | VNum (Fin x), VNum (Fin y) => Qeq_bool x y
  | VNum PosInf, VNum PosInf => true
  | VNum NegInf, VNum NegInf => true
  | VStr x, VStr y => String.eqb x y
  | _, _ => false
  end.

Section Conversions.
Context `{JsBuiltins}.

(** [Number(v)] *)
Definition ToNumber (v : value) : number :=
  match v with
  | VUndefined => NaN
  | VNull => Fin 0
  | VBool true => Fin 1
  | VBool false => Fin 0
  | VNum n => n
  | VStr s => StringToNumber s
  end.

(** [String(v)] *)
Definition ToString (v : value) : string :=
  match v with
  | VUndefined => "undefined"
  | VNull => "null"
  | VBool true => "true"
  | VBool false => "false"
  | VNum n => NumberToString n
  | VStr s => s
  end.
End Conversions.

(** [a ?? b] *)
Definition nullish (a b : value) : value :=
  match a with
  | VUndefined | VNull => b
  | _ => a
  end.

(** ** Strings: [replaceAll] and case-insensitive search *)

Fixpoint isPrefix (pat s : string) : bool :=
  match pat, s with
  | EmptyString, _ => true
  | String a pat', String b s' => Ascii.eqb a b && isPrefix pat' s'
  | String _ _, EmptyString => false
  end.

(** [s.replaceAll(pat, rep)] for a non-empty literal [pat] and a replacement
    without [$] patterns: scan left to right, and after a match resume behind
    the matched text ([skip] counts the characters still to drop). *)
Fixpoint replaceAllFrom (pat rep : string) (skip : nat) (s : string) : string :=
  match s with
  | EmptyString => EmptyString
  | String c s' =>
      match skip with
      | S k => replaceAllFrom pat rep k s'
      | O =>
          if isPrefix pat s
          then String.append rep (replaceAllFrom pat rep (String.length pat - 1) s')
          else String c (replaceAllFrom pat rep 0 s')
      end
  end.

Definition replaceAll (pat rep s : string) : string :=
  replaceAllFrom pat rep 0 s.

(** Canonicalisation of the [i] flag on an ASCII character. *)
Definition lowerAscii (c : ascii) : ascii :=
  let n := nat_of_ascii c in
  if (Nat.leb 65 n && Nat.leb n 90)%bool then ascii_of_nat (n + 32) else c.

Fixpoint isPrefixCI (pat s : string) : bool :=
  match pat, s with
  | EmptyString, _ => true
  | String a pat', String b s' =>
      Ascii.eqb (lowerAscii a) (lowerAscii b) && isPrefixCI pat' s'
  | String _ _, EmptyString => false
  end.

(** [/pat/i.test(s)] for a pattern that is a literal text. *)
Fixpoint testCI (pat s : string) : bool :=
  isPrefixCI pat s ||
  match s with
  | EmptyString => false
  | String _ s' => testCI pat s'
  end.

(** ** Dashboard helpers *)

(** [pick(obj, keys)]: the first property of [keys] that is not undefined. *)
Fixpoint pick (obj : object) (keys : list string) : value :=
  match keys with
  | [] => VUndefined
  | k :: keys' =>
      match obj !! k with
      | Some VUndefined | None => pick obj keys'
      | Some v => v
      end
  end.

Definition DEGRADED_MS : Q := 1500%Q.

(** The characters written with their code, as a literal cannot hold them. *)
Definition dquote : string := String (ascii_of_nat 34) EmptyString.
Definition squote : string := String (ascii_of_nat 39) EmptyString.

Section Dashboard.
Context `{JsBuiltins}.

Definition inferEnv (item : object) : string :=
  let name := ToString (nullish (pick item ["name"; "service_name"]) (VStr "")) in
  let url := ToString (nullish (pick item ["url"]) (VStr "")) in
  if testCI "(UAT)" name || testCI "certwebservices" url then "uat" else "prod".

Definition filterByEnv (items : list object) (env : value) : list object :=
  if negb (truthy env) || strictEq env (VStr "all") then items
  else List.filter (fun it => strictEq (VStr (inferEnv it)) env) items.

Definition escapeHtml (str : value) : string :=
  replaceAll squote "&#039;"
    (replaceAll dquote "&quot;"
      (replaceAll ">" "&gt;"
        (replaceAll "<" "&lt;"
          (replaceAll "&" "&amp;" (ToString str))))).

Record TopStats := {
  svcCount : Z;
  upCount : Z;
  downCount : Z;
  degradedCount : Z
}.

(** The two filter callbacks of [computeTopStats]. *)
Definition statsUp (x : object) : bool :=
  truthy (pick x ["is_up"; "ok"; "up"]).

Definition statsDegraded (it : object) : bool :=
  let up := truthy (pick it ["is_up"; "ok"; "up"]) in
  let ms := ToNumber (pick it ["last_ms"; "duration_ms"; "ms"]) in
  up && negb (isNaN ms) && number_ge ms DEGRADED_MS.

Definition computeTopStats (items : list object) : TopStats :=
  let svcCount := Z.of_nat (length items) in
  let upCount := Z.of_nat (length (List.filter statsUp items)) in
  let downCount := svcCount - upCount in
  let degradedCount := Z.of_nat (length (List.filter statsDegraded items)) in
  {| svcCount := svcCount; upCount := upCount;
     downCount := downCount; degradedCount := degradedCount |}.

(** Status rank for sorting: DOWN=0, Degraded=1, UP=2 *)
Definition getStatusRank (item : object) : Z :=
  let isUp := truthy (pick item ["is_up"; "ok"; "up"; "status_up"]) in
  let lastMs := ToNumber (pick item ["last_ms"; "duration_ms"; "ms"]) in
  let degraded := isUp && negb (isNaN lastMs) && number_ge lastMs DEGRADED_MS in
  if negb isUp then 0
  else if degraded then 1 else 2.

(** [statusBadge(isUp)]: the class and the label of the badge; the markup
    around them is fixed text. *)
Record Badge := { cls : string; label : string }.

Definition statusBadge (isUp : value) : Badge :=
  let up := truthy isUp in
  {| cls := if up then "badge up" else "badge down";
     label := if up then "UP" else "DOWN" |}.

(** The status cell of [rowHtml]. *)
Definition rowStatus (item : object) : Badge :=
  let isUp := nullish (pick item ["is_up"; "ok"; "up"; "status_up"]) (VBool false) in
  statusBadge isUp.

(** The style of the latency cell of [rowHtml]. *)
Definition slowClass (item : object) : string :=
  let lastMs := pick item ["last_ms"; "duration_ms"; "ms"] in
  if number_ge (ToNumber lastMs) DEGRADED_MS then "slow" else "".
End Dashboard.

(** ** Arithmetic on JavaScript numbers

    Signed zeros are not distinguished: a positive finite number divided by
    zero is [PosInf], a negative one [NegInf], and [0 / 0] is [NaN]. *)

Definition Qpos_bool (q : Q) : bool := negb (Qle_bool q 0).

Definition number_neg (n : number) : number :=
  match n with
  | NaN => NaN
  | Fin q => Fin (- q)
  | PosInf => NegInf
  | NegInf => PosInf
  end.

Definition number_div (a b : number) : number :=
  match a, b with
  | NaN, _ | _, NaN => NaN
  | Fin x, Fin y =>
      if Qeq_bool y 0
      then (if Qeq_bool x 0 then NaN else if Qpos_bool x then PosInf else NegInf)
      else Fin (x / y)
  | Fin _, _ => Fin 0
  | PosInf, Fin y => if Qle_bool 0 y then PosInf else NegInf
  | NegInf, Fin y => if Qle_bool 0 y then NegInf else PosInf
  | _, _ => NaN
  end.

Definition number_mul (a b : number) : number :=
  match a, b with
  | NaN, _ | _, NaN => NaN
  | Fin x, Fin y => Fin (x * y)
  | Fin x, i | i, Fin x =>
      if Qeq_bool x 0 then NaN
      else if Qpos_bool x then i else number_neg i
  | PosInf, PosInf | NegInf, NegInf => PosInf
  | _, _ => NegInf
  end.

Definition ofCount (n : nat) : number := Fin (inject_Z (Z.of_nat n)).

(** ** Arrays and Maps *)

(** [arr.sort(cmp)]: a stable sort; [x] goes before [y] when [cmp x y <= 0]
    and [x] came first. *)
Fixpoint insertSorted {A : Type} (cmp : A -> A -> Q) (x : A) (l : list A) : list A :=
  match l with
  | [] => [x]
  | y :: l' =>
      if Qle_bool (cmp x y) 0 then x :: l else y :: insertSorted cmp x l'
  end.

Definition jsSort {A : Type} (cmp : A -> A -> Q) (l : list A) : list A :=
  List.fold_right (insertSorted cmp) [] l.

(** The time value of a [Date]: milliseconds since the epoch, or [None] for
    the NaN of an invalid date. *)
Definition timeValue : Type := option Z.

(** The key equality of a [Map]: NaN is the same key as NaN. *)
Definition sameValueZero (a b : timeValue) : bool :=
  match a, b with
  | Some x, Some y => Z.eqb x y
  | None, None => true
  | _, _ => false
  end.

(** [a - b] as a sort comparator's result, where NaN counts as +0. *)
Definition timeDiff (a b : timeValue) : Q :=
  match a, b with
  | Some x, Some y => inject_Z (x - y)
  | _, _ => 0%Q
  end.

(** A [Map] keyed by time values, as its entries in insertion order. *)
Definition JsMap (V : Type) : Type := list (timeValue * V).

Fixpoint mapGet {V : Type} (k : timeValue) (m : JsMap V) : option V :=
  match m with
  | [] => None
  | (k', v) :: m' => if sameValueZero k k' then Some v else mapGet k m'
  end.

Definition mapHas {V : Type} (k : timeValue) (m : JsMap V) : bool :=
  match mapGet k m with Some _ => true | None => false end.

(** [m.set(k, v)]: an existing key keeps its place, a new one goes last. *)
Fixpoint mapSet {V : Type} (k : timeValue) (v : V) (m : JsMap V) : JsMap V :=
  match m with
  | [] => [(k, v)]
  | (k', v') :: m' =>
      if sameValueZero k k' then (k', v) :: m' else (k', v') :: mapSet k v m'
  end.

(** ** Chart modal: client-side bucketing and the summary line *)

(** A probe of the [/probes] response; [ts] is [new Date(p.ts).getTime()],
    the time value of its timestamp, and [duration_ms] is [None] when null. *)
Record Probe := {
  ts : timeValue;
  ok : bool;
  duration_ms : option Q
}.

Definition BUCKET_MINUTES : Z := 5.
Definition PROBES_LIMIT : Z := 300.

Record BucketAcc := {
  sumMs : Q;
  count : nat;
  okCount : nat
}.

(** [new Date(ts).toLocaleString(undefined, { month: "short",
    day: "numeric", hour: "2-digit", minute: "2-digit" })], the text of a
    chart label. It depends on the locale and the time zone of the browser
    and is left abstract; it shows no year, so different time values can
    have the same text. *)
Class JsDateText := {
  toLocaleString : timeValue -> string
}.

Record Buckets := {
  labels : list string;
  avgMs : list (option number);
  successPct : list (option number)
}.

(** [Math.floor(ts / bucketMs) * bucketMs] *)
Definition bucketStartOf (bucketMs : Z) (p : Probe) : timeValue :=
  match ts p with
  | Some t => Some ((t / bucketMs) * bucketMs)
  | None => None
  end.

(** The body of the loop over the probes. The object [b] is the one stored
    in the map, so its updates are updates of the map entry. *)
Definition addProbe (bucketMs : Z) (byBucket : JsMap BucketAcc) (p : Probe)
  : JsMap BucketAcc :=
  let bucketStart := bucketStartOf bucketMs p in
  let byBucket :=
    if mapHas bucketStart byBucket then byBucket
    else mapSet bucketStart {| sumMs := 0; count := 0; okCount := 0 |} byBucket in
  match mapGet bucketStart byBucket with
  | None => byBucket
  | Some b =>
      let count' := (count b + 1)%nat in
      let okCount' := if ok p then (okCount b + 1)%nat else okCount b in
      let ms := match duration_ms p with Some d => d | None => 0%Q end in
      mapSet bucketStart
        {| sumMs := (sumMs b + ms)%Q; count := count'; okCount := okCount' |}
        byBucket
  end.

Definition collectBuckets (bucketMs : Z) (probes : list Probe) : JsMap BucketAcc :=
  List.fold_left (addProbe bucketMs) probes [].

(** The entries of the map in ascending order of bucket start: the local
    [sorted] of [bucketProbes]. *)
Definition sortedBuckets (bucketMs : Z) (probes : list Probe)
  : list (timeValue * BucketAcc) :=
  jsSort (fun a b => timeDiff (fst a) (fst b)) (collectBuckets bucketMs probes).

Section Chart.
Context `{JsDateText}.

(** Bucket probes into [bucketMinutes] intervals; a label is the formatted
    date of the bucket start. *)
Definition bucketProbesEvery (bucketMinutes : Z) (probes : list Probe) : Buckets :=
  match probes with
  | [] => {| labels := []; avgMs := []; successPct := [] |}
  | _ =>
      let bucketMs := bucketMinutes * 60 * 1000 in
      let sorted := sortedBuckets bucketMs probes in
      {| labels := List.map (fun e => toLocaleString (fst e)) sorted;
         avgMs := List.map (fun e =>
           let b := snd e in
           if Nat.eqb (count b) 0 then None
           else Some (number_div (Fin (sumMs b)) (ofCount (count b)))) sorted;
         successPct := List.map (fun e =>
           let b := snd e in
           if Nat.eqb (count b) 0 then None
           else Some (number_mul
                        (number_div (ofCount (okCount b)) (ofCount (count b)))
                        (Fin 100))) sorted |}
  end.

Definition bucketProbes (probes : list Probe) : Buckets :=
  bucketProbesEvery BUCKET_MINUTES probes.
End Chart.

(** A piece of the summary text: a number printed as it is, a number printed
    by [toFixed(d)], or a fixed text. *)
Inductive Shown : Type :=
  | Plain (v : value)
  | Fixed (d : nat) (n : number)
  | Literal (s : string).

Record SummaryLine := {
  shownProbes : Shown;
  shownSuccess : Shown;
  shownPct : Shown;
  shownAvg : Shown;
  shownP95 : option Shown
}.

(** What [summaryEl.textContent] is set to; [TypeError] is the exception of
    calling [toFixed] on a value that is not a number. *)
Inductive SummaryText : Type :=
  | NoProbeData
  | Line (l : SummaryLine)
  | TypeError.

(** [Math.floor(n * 0.95)]. The double nearest to 0.95 is below it by less
    than 5e-17, and for every array length the product rounds to the same
    integer part as the exact [19 n / 20]. *)
Definition p95Index (n : nat) : nat := (19 * n / 20)%nat.

Definition durationOf (p : Probe) : Q :=
  match duration_ms p with Some d => d | None => 0%Q end.

Definition hasDuration (p : Probe) : bool :=
  match duration_ms p with Some _ => true | None => false end.

Definition setSummary (probes : list Probe) : SummaryText :=
  match probes with
  | [] => NoProbeData
  | _ =>
      let withMs := List.filter hasDuration probes in
      let okCount := length (List.filter ok probes) in
      let avg :=
        if Nat.eqb (length withMs) 0 then Fin 0
        else number_div
               (Fin (List.fold_left (fun s p => (s + durationOf p)%Q) withMs 0%Q))
               (ofCount (length withMs)) in
      let sorted :=
        jsSort (fun a b => (durationOf a - durationOf b)%Q) withMs in
      let p95 :=
        if Nat.eqb (length sorted) 0 then None
        else match List.nth_error sorted (p95Index (length sorted)) with
             | Some p => duration_ms p
             | None => None
             end in
      Line {| shownProbes := Plain (VNum (ofCount (length probes)));
              shownSuccess := Plain (VNum (ofCount okCount));
              shownPct :=
                Fixed 1 (number_mul
                           (number_div (ofCount okCount) (ofCount (length probes)))
                           (Fin 100));
              shownAvg := Fixed 0 avg;
              shownP95 := match p95 with
                          | Some d => Some (Fixed 0 (Fin d))
                          | None => None
                          end |}
  end.

(** [x != null] *)
Definition notNullish (v : value) : bool :=
  match v with
  | VUndefined | VNull => false
  | _ => true
  end.

(** [obj.k] *)
Definition prop (obj : object) (k : string) : value :=
  match obj !! k with
  | Some v => v
  | None => VUndefined
  end.

Section ChartApi.
Context `{JsBuiltins}.

(** [summary] is [None] when the argument is null or undefined. *)
Definition setSummaryFromApi (summary : option object) : SummaryText :=
  match summary with
  | None => NoProbeData
  | Some s =>
      if strictEq (prop s "total_probes") (VNum (Fin 0)) then NoProbeData
      else
        let pct :=
          if truthy (prop s "total_probes")
          then Fixed 1 (number_mul
                          (number_div (ToNumber (prop s "success_count"))
                                      (ToNumber (prop s "total_probes")))
                          (Fin 100))
          else Literal "0" in
        let avgStr :=
          if notNullish (prop s "avg_ms")
          then match prop s "avg_ms" with
               | VNum n => Some (Fixed 0 n)
               | _ => None
               end
          else Some (Literal "—") in
        let p95Str :=
          if notNullish (prop s "p95_ms")
          then match prop s "p95_ms" with
               | VNum n => Some (Some (Fixed 0 n))
               | _ => None
               end
          else Some None in
        match avgStr, p95Str with
        | Some a, Some p =>
            Line {| shownProbes := Plain (prop s "total_probes");
                    shownSuccess := Plain (prop s "success_count");
                    shownPct := pct;
                    shownAvg := a;
                    shownP95 := p |}
        | _, _ => TypeError
        end
  end.
End ChartApi.

(** ** The probe state machine and the alert dispatcher

    The worker that probes the targets and sends the alerts is not part of
    the dashboard sources; its rules are taken from the specification
    (sections 3, 4.1 and 4.2) and from [docs/ALERTS.md]. Times are seconds. *)

Module Engine.

Inductive Status : Type := UP | DOWN.

(** Modelled from the spec: the Target of section 3 (the worker's target
    table is missing); [cooldownOverride] is the optional per-target
    cooldown. *)
Record Target := {
  id : Z;
  name : string;
  url : string;
  cooldownOverride : option Z
}.

(** Modelled from the spec: the ProbeResult of section 3 (the worker's
    probe record is missing). *)
Record ProbeResult := {
  target_id : Z;
  timestamp : Z;
  ok : bool;
  http_status : option Z;
  duration : option Q;
  error : option string
}.

(** Modelled from the spec: the TargetState of section 3 (the worker's
    per-target state is missing). *)
Record TargetState := {
  current : Status;
  pendingRecovery : bool;
  consecutiveUpCount : Z;
  lastAlertSentAt : option Z;
  lastProbeAt : option Z
}.

Inductive Event : Type :=
  | WentDown (r : ProbeResult)
  | Recovered (r : ProbeResult).

Definition isUP (s : Status) : bool :=
  match s with UP => true | DOWN => false end.

(** Modelled from the spec: the transition function of section 4.1 (the
    worker's state machine is missing). A failed probe sets DOWN and clears
    the recovery fields, emitting WentDown when the target was UP; an UP
    probe after DOWN arms the recovery with a count of 1 and emits nothing;
    an UP probe while the recovery is armed increments the count and, at 2
    or more, disarms and emits Recovered; any other UP probe changes
    nothing. *)
Definition step (st : TargetState) (r : ProbeResult)
  : TargetState * option Event :=
  if negb (ok r) then
    ({| current := DOWN; pendingRecovery := false; consecutiveUpCount := 0;
        lastAlertSentAt := lastAlertSentAt st;
        lastProbeAt := Some (timestamp r) |},
     if isUP (current st) then Some (WentDown r) else None)
  else if negb (isUP (current st)) then
    ({| current := UP; pendingRecovery := true; consecutiveUpCount := 1;
        lastAlertSentAt := lastAlertSentAt st;
        lastProbeAt := Some (timestamp r) |},
     None)
  else if pendingRecovery st then
    let n := consecutiveUpCount st + 1 in
    if Z.leb 2 n then
      ({| current := UP; pendingRecovery := false; consecutiveUpCount := n;
          lastAlertSentAt := lastAlertSentAt st;
          lastProbeAt := Some (timestamp r) |},
       Some (Recovered r))
    else
      ({| current := UP; pendingRecovery := true; consecutiveUpCount := n;
          lastAlertSentAt := lastAlertSentAt st;
          lastProbeAt := Some (timestamp r) |},
       None)
  else
    ({| current := UP; pendingRecovery := false;
        consecutiveUpCount := consecutiveUpCount st;
        lastAlertSentAt := lastAlertSentAt st;
        lastProbeAt := Some (timestamp r) |},
     None).

(** The state after a sequence of probes, and the event of each probe. *)
Fixpoint run (st : TargetState) (rs : list ProbeResult) : TargetState :=
  match rs with
  | [] => st
  | r :: rs' => run (fst (step st r)) rs'
  end.

Fixpoint events (st : TargetState) (rs : list ProbeResult)
  : list (option Event) :=
  match rs with
  | [] => []
  | r :: rs' => snd (step st r) :: events (fst (step st r)) rs'
  end.

Definition isRecovered (e : option Event) : bool :=
  match e with Some (Recovered _) => true | _ => false end.

Definition isWentDown (e : option Event) : bool :=
  match e with Some (WentDown _) => true | _ => false end.

(** Modelled from the spec: the configuration surface of section 6 (the
    worker's settings are missing): the webhook URL, absent when alerts are
    disabled, and the global cooldown in seconds. *)
Record Config := {
  webhookUrl : option string;
  alertCooldownSeconds : Z
}.

Definition defaultCooldown : Z := 300.

Definition cooldownOf (cfg : Config) (t : Target) : Z :=
  match cooldownOverride t with
  | Some c => c
  | None => alertCooldownSeconds cfg
  end.

Inductive Notification : Type :=
  | DownAlert (t : Target) (r : ProbeResult) (sentAt : Z)
  | RecoveredAlert (t : Target) (r : ProbeResult) (sentAt : Z).

(** Modelled from the spec: onWentDown of section 4.2 (the worker's
    dispatcher is missing). Without a webhook it does nothing; within the
    cooldown since the last DOWN alert it suppresses and updates nothing;
    otherwise it sends the DOWN notification and records the time. *)
Definition onWentDown (cfg : Config) (t : Target) (now : Z)
    (st : TargetState) (r : ProbeResult)
  : TargetState * option Notification :=
  match webhookUrl cfg with
  | None => (st, None)
  | Some _ =>
      let send :=
        ({| current := current st; pendingRecovery := pendingRecovery st;
            consecutiveUpCount := consecutiveUpCount st;
            lastAlertSentAt := Some now;
            lastProbeAt := lastProbeAt st |},
         Some (DownAlert t r now)) in
      match lastAlertSentAt st with
      | Some last => if Z.ltb (now - last) (cooldownOf cfg t) then (st, None) else send
      | None => send
      end
  end.

(** Modelled from the spec: onRecovered of section 4.2 (the worker's
    dispatcher is missing): never throttled, and [lastAlertSentAt] is left
    as it is. *)
Definition onRecovered (cfg : Config) (t : Target) (now : Z)
    (st : TargetState) (r : ProbeResult)
  : TargetState * option Notification :=
  match webhookUrl cfg with
  | None => (st, None)
  | Some _ => (st, Some (RecoveredAlert t r now))
  end.

(** One probe through the state machine and then the dispatcher; the
    clock of the dispatcher is the probe's timestamp. *)
Definition handle (cfg : Config) (t : Target) (st : TargetState)
    (r : ProbeResult) : TargetState * option Notification :=
  let '(st1, ev) := step st r in
  match ev with
  | Some (WentDown r') => onWentDown cfg t (timestamp r) st1 r'
  | Some (Recovered r') => onRecovered cfg t (timestamp r) st1 r'
  | None => (st1, None)
  end.

Fixpoint handleAll (cfg : Config) (t : Target) (st : TargetState)
    (rs : list ProbeResult) : TargetState * list Notification :=
  match rs with
  | [] => (st, [])
  | r :: rs' =>
      let '(st1, n) := handle cfg t st r in
      let '(st2, ns) := handleAll cfg t st1 rs' in
      (st2, match n with Some x => x :: ns | None => ns end)
  end.

Definition isDownAlert (n : Notification) : bool :=
  match n with DownAlert _ _ _ => true | _ => false end.

(** *** Sample data and auxiliary notions of the statements *)

Definition probeAt (t : Z) (up : bool) : ProbeResult :=
  {| target_id := 1; timestamp := t; ok := up;
     http_status := if up then Some 200 else None;
     duration := if up then Some 45%Q else None;
     error := if up then None else Some "timeout" |}.

Definition freshState : TargetState :=
  {| current := UP; pendingRecovery := false; consecutiveUpCount := 0;
     lastAlertSentAt := None; lastProbeAt := None |}.

(** While the recovery is armed the target is UP and one UP probe was seen. *)
Definition armedOnce (st : TargetState) : Prop :=
  pendingRecovery st = true -> current st = UP /\ consecutiveUpCount st = 1.

Definition sent (a : TargetState * option Notification) : list Notification :=
  match snd a with Some n => [n] | None => [] end.

(** No DOWN alert was sent during the 300 seconds before [now]. *)
Definition notThrottled (st : TargetState) (now : Z) : Prop :=
  match lastAlertSentAt st with
  | None => True
  | Some last => 300 <= now - last
  end.

Definition teamsConfig : Config :=
  {| webhookUrl := Some "https://example.invalid/workflows/hook";
     alertCooldownSeconds := defaultCooldown |}.

Definition ewsTarget : Target :=
  {| id := 1; name := "Shipping Service (UAT)";
     url := "https://certwebservices.example.invalid/ews";
     cooldownOverride := None |}.

Definition downAlerts (ns : list Notification) : nat :=
  length (List.filter isDownAlert ns).

End Engine.

(** ** Descriptions used by the statements *)

(** Applying [f] to each character and joining the results. *)
Fixpoint mapChars (f : ascii -> string) (s : string) : string :=
  match s with
  | EmptyString => EmptyString
  | String a s' => String.append (f a) (mapChars f s')
  end.

(** The HTML entity of a character, or the character itself. *)
Definition escapeChar (a : ascii) : string :=
  if Ascii.eqb a "&" then "&amp;"
  else if Ascii.eqb a "<" then "&lt;"
  else if Ascii.eqb a ">" then "&gt;"
  else if Ascii.eqb a (ascii_of_nat 34) then "&quot;"
  else if Ascii.eqb a (ascii_of_nat 39) then "&#039;"
  else String a EmptyString.

(** Does the character occur in the string. *)
Fixpoint occurs (c : ascii) (s : string) : bool :=
  match s with
  | EmptyString => false
  | String a s' => Ascii.eqb c a || occurs c s'
  end.

(** The order a comparator [(a, b) => key(a) - key(b)] sorts by. *)
Definition keyLe {A : Type} (key : A -> Q) (a b : A) : Prop := (key a <= key b)%Q.
Definition keyCmp {A : Type} (key : A -> Q) (a b : A) : Q := (key a - key b)%Q.

(** [x < y] on rationals, as a boolean. *)
Definition Qltb (x y : Q) : bool := negb (Qle_bool y x).

(** The state of the bucket map at a key, the update of one probe, and the
    sum of the counts of a map. *)
Definition zeroAcc : BucketAcc := {| sumMs := 0; count := 0; okCount := 0 |}.

Definition bump (p : Probe) (b : BucketAcc) : BucketAcc :=
  {| sumMs := (sumMs b + durationOf p)%Q;
     count := (count b + 1)%nat;
     okCount := if ok p then (okCount b + 1)%nat else okCount b |}.

Definition accAt (k : timeValue) (m : JsMap BucketAcc) : BucketAcc :=
  match mapGet k m with Some b => b | None => zeroAcc end.

Definition totalCount (m : JsMap BucketAcc) : nat :=
  List.fold_right (fun e n => (count (snd e) + n)%nat) 0%nat m.

Definition inBucket (w : Z) (k : timeValue) (p : Probe) : bool :=
  sameValueZero (bucketStartOf w p) k.

(** The durations that were recorded, in the order of the probes. *)
Definition recordedDurations (ps : list Probe) : list Q :=
  List.flat_map
    (fun p => match duration_ms p with Some d => [d] | None => [] end) ps.

Definition sumQ (l : list Q) : Q := List.fold_right Qplus 0%Q l.

(** A probe that answered in 100 ms and a transport failure 60 s later. *)
Definition missingDurationProbes : list Probe :=
  [ {| ts := Some 1700000100000; ok := true; duration_ms := Some 100%Q |};
    {| ts := Some 1700000160000; ok := false; duration_ms := None |} ].

(** ** Sample data *)

Definition sampleProbes : list Probe :=
  [ {| ts := Some 1700000000000; ok := true; duration_ms := Some 120%Q |};
    {| ts := Some 1700000299999; ok := false; duration_ms := None |};
    {| ts := Some 1700000100000; ok := true; duration_ms := Some 80%Q |};
    {| ts := Some 1700000400000; ok := true; duration_ms := Some 45.5%Q |} ].

Definition synthetic10 : list Probe :=
  List.map (fun d => {| ts := Some (1700000000000 + d); ok := true;
                        duration_ms := Some (inject_Z d) |})
           [10; 20; 30; 40; 50; 60; 70; 80; 90; 100].

Definition shuffled10 : list Probe :=
  List.map (fun d => {| ts := Some (1700000000000 + d); ok := true;
                        duration_ms := Some (inject_Z d) |})
           [70; 20; 100; 40; 10; 60; 90; 80; 30; 50].

Definition emptyRangeSummary : object :=
  <["total_probes" := VNum (Fin 0)]> (<["success_count" := VNum (Fin 0)]> ∅).

Definition dayRangeSummary : object :=
  <["total_probes" := VNum (Fin 288)]>
    (<["success_count" := VNum (Fin 285)]>
      (<["avg_ms" := VNum (Fin 212.5)]> (<["p95_ms" := VNum (Fin 480)]> ∅))).

(** A stand-in for the two built-in conversions, for closed examples. *)
Definition plainBuiltins : JsBuiltins :=
  {| StringToNumber := fun _ => NaN; NumberToString := fun _ => "0" |}.

(** A stand-in for the label text, for closed examples: only the validity
    of the date shows. *)
Definition plainDateText : JsDateText :=
  {| toLocaleString := fun t =>
       match t with Some _ => "Nov 14, 10:15 PM" | None => "Invalid Date" end |}.

(** Four rows of the summary: a fast production service, a slow one, a UAT
    service that is down, and a row that only carries [status_up]. *)
Definition trackingItem : object :=
  <["name" := VStr "Purolator Tracking"]>
    (<["url" := VStr "https://webservices.example.invalid/ews/tracking"]>
      (<["is_up" := VBool true]> (<["last_ms" := VNum (Fin 212.4)]> ∅))).

Definition ratesItem : object :=
  <["name" := VStr "Purolator Rates"]>
    (<["url" := VStr "https://webservices.example.invalid/ews/rates"]>
      (<["is_up" := VBool true]> (<["last_ms" := VNum (Fin 1500)]> ∅))).

Definition shippingUatItem : object :=
  <["name" := VStr "Purolator Shipping (uat)"]>
    (<["url" := VStr "https://CertWebServices.example.invalid/ews/shipping"]>
      (<["is_up" := VBool false]> (<["last_ms" := VNum (Fin 30000)]> ∅))).

Definition legacyItem : object :=
  <["service_name" := VStr "Legacy"]>
    (<["status_up" := VBool true]> (<["ms" := VNum (Fin 2000)]> ∅)).

Definition sampleItems : list object :=
  [trackingItem; ratesItem; shippingUatItem; legacyItem].

(** ** Stored preferences

    [localStorage] holds texts by key. Reading throws when the storage cannot
    be accessed, and writing throws when it cannot be accessed or is full;
    every caller catches the exception. *)

Definition STORAGE_KEY_FILTER : string := "ewsmon_env_filter".
Definition STORAGE_KEY_INCIDENT_TIMELINE_OPEN : string := "ewsmon_incident_timeline_open".
Definition STORAGE_KEY_INCIDENT_HISTORY_OPEN : string := "ewsmon_incident_history_open".
Definition STORAGE_KEY_THEME : string := "ewsmon_theme".
Definition INCIDENT_MSG_TRUNCATE : nat := 120.

Record LocalStorage := {
  entries : gmap string string;
  readable : bool;
  writable : bool
}.

(** [localStorage.getItem(k)]: [None] when it throws, [Some None] for null. *)
Definition getItem (ls : LocalStorage) (k : string) : option (option string) :=
  if readable ls then Some (entries ls !! k) else None.

(** [localStorage.setItem(k, v)]: [None] when it throws. *)
Definition setItem (ls : LocalStorage) (k v : string) : option LocalStorage :=
  if writable ls
  then Some {| entries := <[k := v]> (entries ls);
               readable := readable ls; writable := writable ls |}
  else None.

Definition getStoredTheme (ls : LocalStorage) : string :=
  match getItem ls STORAGE_KEY_THEME with
  | Some (Some v) =>
      if String.eqb v "dark" || String.eqb v "light" then v else "light"
  | _ => "light"
  end.

Definition setStoredTheme (ls : LocalStorage) (theme : string) : LocalStorage :=
  match setItem ls STORAGE_KEY_THEME theme with
  | Some ls' => ls'
  | None => ls
  end.

Definition getStoredFilter (ls : LocalStorage) : string :=
  match getItem ls STORAGE_KEY_FILTER with
  | Some (Some v) =>
      if String.eqb v "prod" || String.eqb v "uat" || String.eqb v "all"
      then v else "all"
  | _ => "all"
  end.

Definition setStoredFilter (ls : LocalStorage) (env : string) : LocalStorage :=
  match setItem ls STORAGE_KEY_FILTER env with
  | Some ls' => ls'
  | None => ls
  end.

Definition getIncidentHistoryOpen (ls : LocalStorage) : bool :=
  match getItem ls STORAGE_KEY_INCIDENT_HISTORY_OPEN with
  | Some (Some v) => String.eqb v "true"
  | _ => false
  end.

Definition setIncidentHistoryOpen (ls : LocalStorage) (open : bool) : LocalStorage :=
  match setItem ls STORAGE_KEY_INCIDENT_HISTORY_OPEN
                (if open then "true" else "false") with
  | Some ls' => ls'
  | None => ls
  end.

Section IncidentPreferences.
Context `{JsBuiltins}.

(** [STORAGE_KEY_INCIDENT_TIMELINE_OPEN + "_" + id] *)
Definition incidentTimelineKey (id : value) : string :=
  String.append (String.append STORAGE_KEY_INCIDENT_TIMELINE_OPEN "_") (ToString id).

Definition getIncidentTimelineOpen (ls : LocalStorage) (id : value) : bool :=
  match getItem ls (incidentTimelineKey id) with
  | Some (Some v) => String.eqb v "true"
  | _ => false
  end.

Definition setIncidentTimelineOpen (ls : LocalStorage) (id : value) (open : bool)
  : LocalStorage :=
  match setItem ls (incidentTimelineKey id) (if open then "true" else "false") with
  | Some ls' => ls'
  | None => ls
  end.
End IncidentPreferences.

(** ** The theme toggle

    The page state the toggle touches: the stored preferences, the
    [data-theme] of the document element (absent until set) and the
    [aria-label] of the toggle button. *)

Record Page := {
  storage : LocalStorage;
  datasetTheme : option string;
  ariaLabel : option string
}.

Definition applyTheme (pg : Page) (theme : string) : Page :=
  {| storage := storage pg; datasetTheme := Some theme; ariaLabel := ariaLabel pg |}.

(** The click listener that [initThemeToggle] installs. *)
Definition themeToggleClick (pg : Page) : Page :=
  let next :=
    match datasetTheme pg with
    | Some t => if String.eqb t "dark" then "light" else "dark"
    | None => "dark"
    end in
  let pg1 := {| storage := setStoredTheme (storage pg) next;
                datasetTheme := datasetTheme pg; ariaLabel := ariaLabel pg |} in
  let pg2 := applyTheme pg1 next in
  {| storage := storage pg2; datasetTheme := datasetTheme pg2;
     ariaLabel := Some (if String.eqb next "dark" then "Switch to dark mode"
                        else "Switch to light mode") |}.

(** [initThemeToggle] on a page that has the toggle button: the label it
    sets (the listener it installs is [themeToggleClick]). *)
Definition initThemeToggle (pg : Page) : Page :=
  let current := getStoredTheme (storage pg) in
  {| storage := storage pg; datasetTheme := datasetTheme pg;
     ariaLabel := Some (if String.eqb current "dark" then "Switch to light mode"
                        else "Switch to dark mode") |}.

(** ** More arithmetic on JavaScript numbers *)

Definition number_sub (a b : number) : number :=
  match a, b with
  | NaN, _ | _, NaN => NaN
  | Fin x, Fin y => Fin (x - y)
  | Fin _, PosInf => NegInf
  | Fin _, NegInf => PosInf
  | PosInf, PosInf => NaN
  | PosInf, _ => PosInf
  | NegInf, NegInf => NaN
  | NegInf, _ => NegInf
  end.

(** [a > b] *)
Definition number_gt (a b : number) : bool :=
  match a, b with
  | NaN, _ | _, NaN => false
  | Fin x, Fin y => negb (Qle_bool x y)
  | Fin _, PosInf => false
  | Fin _, NegInf => true
  | PosInf, PosInf => false
  | PosInf, _ => true
  | NegInf, _ => false
  end.

(** [n || 0] *)
Definition orZero (n : number) : number :=
  if truthy (VNum n) then n else Fin 0.

(** What [sort] reads off a comparator's result: its sign, NaN counting
    as +0. *)
Definition cmpSign (n : number) : Q :=
  match n with
  | NaN => 0%Q
  | Fin q => q
  | PosInf => 1%Q
  | NegInf => (-1)%Q
  end.

(** ** Sorting the table *)

(** [localeCompare] with base sensitivity and the time value of
    [new Date(v)] are left abstract. *)
Class JsLocale := {
  localeCompare : string -> string -> number;
  dateGetTime : value -> number
}.

(** [v || 0] *)
Definition valueOrZero (v : value) : value :=
  if truthy v then v else VNum (Fin 0).

Section SortItems.
Context `{JsBuiltins} `{JsLocale}.

(** The sort key of the columns that compare numbers. *)
Definition numberColumn (keys : list string) (a : object) : number :=
  orZero (ToNumber (pick a keys)).

(** The [switch] of the comparator of [sortItems]. *)
Definition columnCmp (column : string) (a b : object) : number :=
  if String.eqb column "service" then
    let na := ToString (nullish (pick a ["name"; "service_name"]) (VStr "")) in
    let nb := ToString (nullish (pick b ["name"; "service_name"]) (VStr "")) in
    localeCompare na nb
  else if String.eqb column "status" then
    Fin (inject_Z (getStatusRank a - getStatusRank b))
  else if String.eqb column "lastChecked" then
    let ta := dateGetTime (valueOrZero (pick a ["last_checked"; "last_ts"; "ts"])) in
    let tb := dateGetTime (valueOrZero (pick b ["last_checked"; "last_ts"; "ts"])) in
    number_sub ta tb
  else if String.eqb column "lastMs" then
    number_sub (numberColumn ["last_ms"; "duration_ms"; "ms"] a)
               (numberColumn ["last_ms"; "duration_ms"; "ms"] b)
  else if String.eqb column "http" then
    number_sub (numberColumn ["http_status"; "status_code"; "last_status"] a)
               (numberColumn ["http_status"; "status_code"; "last_status"] b)
  else if String.eqb column "avgToday" then
    number_sub
      (numberColumn ["avg_today_ms"; "avg_1d_ms"; "avg_day_ms"; "daily_avg_ms"; "avg_ms"] a)
      (numberColumn ["avg_today_ms"; "avg_1d_ms"; "avg_day_ms"; "daily_avg_ms"; "avg_ms"] b)
  else if String.eqb column "avg7d" then
    number_sub (numberColumn ["avg_7d_ms"; "avg_week_ms"; "avg_7_days_ms"] a)
               (numberColumn ["avg_7d_ms"; "avg_week_ms"; "avg_7_days_ms"] b)
  else if String.eqb column "uptimeToday" || String.eqb column "uptime7d" then
    let key := if String.eqb column "uptimeToday" then "uptime_today" else "uptime_7d" in
    number_sub
      (numberColumn [key; "uptime_1d"; "uptime_1d_pct"; "uptime_week"; "uptime_7d_pct"] a)
      (numberColumn [key; "uptime_1d"; "uptime_1d_pct"; "uptime_week"; "uptime_7d_pct"] b)
  else Fin 0.

Definition sortItems (items : list object) (column dir : string) : list object :=
  let mult := if String.eqb dir "asc" then Fin 1 else Fin (-1) in
  jsSort (fun a b => cmpSign (number_mul mult (orZero (columnCmp column a b)))) items.
End SortItems.

(** ** Incident lists *)

(** What [formatDuration] prints: a dash, [sec + "s"], [m + "m"], [h + "h"]
    or [h + "h " + m + "m"]. *)
Inductive DurationText : Type :=
  | DurDash
  | DurSeconds (s : Q)
  | DurMinutes (m : Z)
  | DurHours (h : Z)
  | DurHoursMinutes (h m : Z).

(** [x % 3600] for a non-negative [x]. *)
Definition Qrem3600 (x : Q) : Q :=
  (x - 3600 * inject_Z (Qfloor (x / 3600)))%Q.

(** [formatDuration(sec)], for [sec] null or undefined ([None]) or a number
    of the API's JSON. *)
Definition formatDuration (sec : option Q) : DurationText :=
  match sec with
  | None => DurDash
  | Some sec =>
      if Qltb sec 0 then DurDash
      else if Qltb sec 60 then DurSeconds sec
      else if Qltb sec 3600 then DurMinutes (Qfloor (sec / 60))
      else
        let h := Qfloor (sec / 3600) in
        let m := Qfloor (Qrem3600 sec / 60) in
        if Z.eqb m 0 then DurHours h else DurHoursMinutes h m
  end.

(** *** Timeline entries

    [length], [slice] and [trim] work on the UTF-16 code units of a string,
    and [trim] removes characters outside ASCII, so the message of a
    timeline entry is kept as the sequence of its code units. *)

(** The code units of a text of ASCII characters. *)
Definition unitsOf (s : string) : list N :=
  List.map N_of_ascii (list_ascii_of_string s).

(** The white space and the line terminators that [trim] removes: TAB, LF,
    VT, FF, CR, the space, the no-break space, the other Unicode space
    separators (U+1680, U+2000 to U+200A, U+202F, U+205F, U+3000), the line
    and paragraph separators U+2028 and U+2029, and U+FEFF. *)
Definition isWhiteSpace (c : N) : bool :=
  (N.leb 9 c && N.leb c 13) || N.eqb c 32 || N.eqb c 160 || N.eqb c 5760 ||
  (N.leb 8192 c && N.leb c 8202) || N.eqb c 8232 || N.eqb c 8233 ||
  N.eqb c 8239 || N.eqb c 8287 || N.eqb c 12288 || N.eqb c 65279.

Fixpoint trimStart (s : list N) : list N :=
  match s with
  | [] => []
  | c :: s' => if isWhiteSpace c then trimStart s' else s
  end.

Definition trimEnd (s : list N) : list N :=
  List.rev (trimStart (List.rev s)).

(** [s.trim()] *)
Definition trim (s : list N) : list N := trimEnd (trimStart s).

(** [s.replaceAll(c, rep)], which is also [s.replace(/c/g, rep)], for a
    single character [c] and a replacement without [$] patterns. *)
Definition replaceUnit (c : N) (rep : string) (s : list N) : list N :=
  List.flat_map (fun x => if N.eqb x c then unitsOf rep else [x]) s.

(** [escapeHtml] on the code units of a string: the five replacements in
    the order of the source, '&' first. *)
Definition escapeHtmlUnits (s : list N) : list N :=
  replaceUnit 39 "&#039;"
    (replaceUnit 34 "&quot;"
      (replaceUnit 62 "&gt;"
        (replaceUnit 60 "&lt;"
          (replaceUnit 38 "&amp;" s)))).

(** The horizontal ellipsis U+2026 appended to a cut message. *)
Definition ELLIPSIS : N := 8230.

(** What [renderIncidentTimelineItems] computes from the message of one
    timeline entry: the locals [truncated], [displayMsg], [fullHtml] and
    [dataFull] of the source. *)
Record TimelineMessage := {
  truncated : bool;
  displayMsg : list N;
  fullHtml : list N;
  dataFull : list N
}.

(** [(it.message || "").trim()]; a missing or null message is [None]. *)
Definition incidentMsg (message : option (list N)) : list N :=
  trim (match message with Some s => s | None => [] end).

Definition renderIncidentMessage (message : option (list N)) : TimelineMessage :=
  let msg := incidentMsg message in
  let truncated := Nat.ltb INCIDENT_MSG_TRUNCATE (length msg) in
  let displayMsg :=
    if truncated then List.firstn INCIDENT_MSG_TRUNCATE msg ++ [ELLIPSIS]
    else msg in
  let fullHtml := replaceUnit 10 "<br>" (escapeHtmlUnits msg) in
  let dataFull := replaceUnit 34 "&quot;" fullHtml in
  {| truncated := truncated; displayMsg := displayMsg;
     fullHtml := fullHtml; dataFull := dataFull |}.

(** ** The first dashboard script ([app/static/app.js]) *)

Module AppStatic.

Record Slowest := {
  slowName : value;
  slowMs : number
}.

Record TopStats := {
  svcCount : Z;
  upCount : Z;
  downCount : Z;
  slowest : option Slowest
}.

Section Stats.
Context `{JsBuiltins}.

(** The body of the loop that looks for the slowest service. *)
Definition slowestStep (slowest : option Slowest) (it : object) : option Slowest :=
  let ms := ToNumber (pick it ["last_ms"; "duration_ms"; "ms"]) in
  if negb (isNaN ms) then
    match slowest with
    | None =>
        Some {| slowName := nullish (pick it ["name"; "service"; "service_name"])
                                    (VStr "—");
                slowMs := ms |}
    | Some s =>
        if number_gt ms (slowMs s)
        then Some {| slowName := nullish (pick it ["name"; "service"; "service_name"])
                                         (VStr "—");
                     slowMs := ms |}
        else slowest
    end
  else slowest.

Definition computeTopStats (items : list object) : TopStats :=
  let svcCount := Z.of_nat (length items) in
  let upCount := Z.of_nat (length (List.filter statsUp items)) in
  let downCount := svcCount - upCount in
  let slowest := List.fold_left slowestStep items None in
  {| svcCount := svcCount; upCount := upCount;
     downCount := downCount; slowest := slowest |}.
End Stats.

End AppStatic.

(** ** Descriptions used by the further statements *)

(** The latency [Number(pick(it, ...))] that the statistics read. *)
Definition latencyOf `{JsBuiltins} (it : object) : number :=
  ToNumber (pick it ["last_ms"; "duration_ms"; "ms"]).

(** [a <= b] on numbers that are not NaN. *)
Definition number_le (a b : number) : Prop :=
  match a, b with
  | NaN, _ | _, NaN => False
  | NegInf, _ => True
  | _, PosInf => True
  | Fin x, Fin y => (x <= y)%Q
  | _, _ => False
  end.

Definition isSpecialChar (a : ascii) : bool :=
  Ascii.eqb a "&" || Ascii.eqb a "<" || Ascii.eqb a ">" ||
  Ascii.eqb a (ascii_of_nat 34) || Ascii.eqb a (ascii_of_nat 39).

Fixpoint allChars (f : ascii -> bool) (s : string) : bool :=
  match s with
  | EmptyString => true
  | String a s' => f a && allChars f s'
  end.

Definition workingStorage (ls : LocalStorage) : Prop :=
  readable ls = true /\ writable ls = true.

Definition emptyStorage : LocalStorage :=
  {| entries := ∅; readable := true; writable := true |}.

Definition blockedStorage : LocalStorage :=
  {| entries := ∅; readable := false; writable := false |}.

Definition freshPage : Page :=
  {| storage := emptyStorage; datasetTheme := None; ariaLabel := None |}.

(** The rows of each status, in the order of the list. *)
Definition rowsOfRank `{JsBuiltins} (r : Z) (items : list object) : list object :=
  List.filter (fun it => Z.eqb (getStatusRank it) r) items.

(** The key list of a column that compares numbers. *)
Definition numberColumnKeys (column : string) : option (list string) :=
  if String.eqb column "lastMs" then Some ["last_ms"; "duration_ms"; "ms"]
  else if String.eqb column "http" then
    Some ["http_status"; "status_code"; "last_status"]
  else if String.eqb column "avgToday" then
    Some ["avg_today_ms"; "avg_1d_ms"; "avg_day_ms"; "daily_avg_ms"; "avg_ms"]
  else if String.eqb column "avg7d" then
    Some ["avg_7d_ms"; "avg_week_ms"; "avg_7_days_ms"]
  else if String.eqb column "uptimeToday" then
    Some ["uptime_today"; "uptime_1d"; "uptime_1d_pct"; "uptime_week"; "uptime_7d_pct"]
  else if String.eqb column "uptime7d" then
    Some ["uptime_7d"; "uptime_1d"; "uptime_1d_pct"; "uptime_week"; "uptime_7d_pct"]
  else None.

Definition sortColumns : list string :=
  ["service"; "status"; "lastChecked"; "lastMs"; "http"; "avgToday"; "avg7d";
   "uptimeToday"; "uptime7d"].

Definition plainLocale : JsLocale :=
  {| localeCompare := fun _ _ => Fin 0; dateGetTime := fun _ => NaN |}.

(** The entity of a code unit, or the code unit itself. *)
Definition escapeUnit (c : N) : list N :=
  if N.eqb c 38 then unitsOf "&amp;"
  else if N.eqb c 60 then unitsOf "&lt;"
  else if N.eqb c 62 then unitsOf "&gt;"
  else if N.eqb c 34 then unitsOf "&quot;"
  else if N.eqb c 39 then unitsOf "&#039;"
  else [c].

(** The code unit of an incident message in its markup: a line break for a
    newline, the entity of a special character, the code unit otherwise. *)
Definition incidentUnit (c : N) : list N :=
  if N.eqb c 10 then unitsOf "<br>" else escapeUnit c.

(** A message of 119 letters followed by two spaces, and the text of two
    letters followed by a newline. *)
Definition paddedMessage : list N := List.repeat 97%N 119 ++ [32%N; 32%N].
Definition shortMessage : list N := [104%N; 105%N; 10%N].

(** Two probes that failed without a duration. *)
Definition failedProbes : list Probe :=
  [ {| ts := Some 1700000100000; ok := false; duration_ms := None |};
    {| ts := Some 1700000160000; ok := false; duration_ms := None |} ].

(** [a < b] on time values that are not NaN. *)
Definition timeLt (a b : timeValue) : Prop :=
  match a, b with
  | Some x, Some y => x < y
  | _, _ => False
  end.

(** A bucket never counts more successes than probes. *)
Definition soundAcc (b : BucketAcc) : Prop :=
  (okCount b <= count b)%nat.

(** What the loop has found after a prefix of the items. *)
Definition slowestOf `{JsBuiltins} (found : option AppStatic.Slowest) (items : list object) : Prop :=
  match found with
  | None => Forall (fun it => latencyOf it = NaN) items
  | Some s =>
      AppStatic.slowMs s <> NaN /\
      Forall (fun it => number_gt (latencyOf it) (AppStatic.slowMs s) = false) items /\
      exists before it after,
        items = before ++ it :: after /\
        latencyOf it = AppStatic.slowMs s /\
        AppStatic.slowName s
        = nullish (pick it ["name"; "service"; "service_name"]) (VStr "—") /\
        Forall (fun x => number_gt (AppStatic.slowMs s) (latencyOf x) = true \/
                         latencyOf x = NaN) before
  end.

(* ===================================================================== *)
(** * Part II. Properties                                                 *)
(* ===================================================================== *)

(** ** JavaScript values *)

Lemma number_ge_true (n : number) (t : Q) :
  number_ge n t = true <-> n = PosInf \/ exists q, n = Fin q /\ (t <= q)%Q.
Proof.
  destruct n as [|q| |]; simpl.
  - split; [discriminate|]. intros [E|[q [E _]]]; discriminate.
  - rewrite Qle_bool_iff. split.
    + intros L. right. exists q. split; [reflexivity|exact L].
    + intros [E|[q' [E L]]]; [discriminate|]. injection E as ->. exact L.
  - split; [intros _; left; reflexivity | reflexivity].
  - split; [discriminate|]. intros [E|[q [E _]]]; discriminate.
Qed.

Lemma truthy_nullish_false (v : value) :
  truthy (nullish v (VBool false)) = truthy v.
Proof. destruct v; reflexivity. Qed.

Lemma pick_insert_other (obj : object) (k : string) (v : value) (keys : list string) :
  k ∉ keys -> pick (<[k:=v]> obj) keys = pick obj keys.
Proof.
  induction keys as [|k' keys IH]; intros Hk; simpl; [reflexivity|].
  apply not_elem_of_cons in Hk as [Hne Hk].
  rewrite lookup_insert_ne by exact Hne.
  rewrite IH by exact Hk. reflexivity.
Qed.

(** ** The helpers on sample rows *)

Example replaceAll_longer_pattern :
  replaceAll "ab" "X" "cababa" = "cXXa" /\ replaceAll "aa" "b" "aaa" = "ba".
Proof. split; reflexivity. Qed.

Example testCI_ignores_case :
  testCI "(UAT)" "Shipping (uat) v2" = true /\
  testCI "(UAT)" "Shipping UAT" = false /\
  testCI "certwebservices" "https://CERTwebServices.example.invalid" = true.
Proof. repeat split; reflexivity. Qed.

Example pick_first_defined :
  pick legacyItem ["name"; "service_name"] = VStr "Legacy" /\
  pick legacyItem ["is_up"; "ok"; "up"] = VUndefined /\
  pick legacyItem ["is_up"; "ok"; "up"; "status_up"] = VBool true.
Proof. repeat split; reflexivity. Qed.

Example sampleItems_stats :
  @computeTopStats plainBuiltins sampleItems
  = {| svcCount := 4; upCount := 2; downCount := 2; degradedCount := 1 |}.
Proof. reflexivity. Qed.

Example sampleItems_ranks :
  List.map (@getStatusRank plainBuiltins) sampleItems = [2; 1; 0; 1].
Proof. reflexivity. Qed.

Example sampleItems_envs :
  List.map (@inferEnv plainBuiltins) sampleItems = ["prod"; "prod"; "uat"; "prod"].
Proof. reflexivity. Qed.

Example down_row_slow_style :
  label (rowStatus shippingUatItem) = "DOWN" /\
  @slowClass plainBuiltins shippingUatItem = "slow" /\
  @getStatusRank plainBuiltins shippingUatItem = 0 /\
  @statsDegraded plainBuiltins shippingUatItem = false.
Proof. repeat split; reflexivity. Qed.

(** ** Top statistics *)

Lemma filter_length_le {A : Type} (f : A -> bool) (l : list A) :
  (length (List.filter f l) <= length l)%nat.
Proof.
  induction l as [|x l IH]; simpl; [lia|]. destruct (f x); simpl; lia.
Qed.

Lemma filter_length_split {A : Type} (f : A -> bool) (l : list A) :
  (length (List.filter f l) + length (List.filter (fun x => negb (f x)) l)
   = length l)%nat.
Proof.
  induction l as [|x l IH]; simpl; [reflexivity|].
  destruct (f x); simpl; lia.
Qed.

Lemma filter_length_mono {A : Type} (f g : A -> bool) (l : list A) :
  (forall x, f x = true -> g x = true) ->
  (length (List.filter f l) <= length (List.filter g l))%nat.
Proof.
  intros Hfg. induction l as [|x l IH]; simpl; [lia|].
  destruct (f x) eqn:Ef.
  - rewrite (Hfg x Ef). simpl. lia.
  - destruct (g x); simpl; lia.
Qed.

Section DashboardFacts.
Context `{JsBuiltins}.

Lemma statsDegraded_up (it : object) :
  statsDegraded it = true -> statsUp it = true.
Proof.
  unfold statsDegraded, statsUp.
  destruct (truthy (pick it ["is_up"; "ok"; "up"])); [reflexivity|discriminate].
Qed.

(** C9. For every list of summary items the counters of [computeTopStats]
    satisfy upCount + downCount = svcCount, where downCount is the number
    of items that are not counted up, and 0 <= degradedCount <= upCount. *)
Theorem computeTopStats_counters (items : list object) :
  let s := computeTopStats items in
  upCount s + downCount s = svcCount s /\
  upCount s = Z.of_nat (length (List.filter statsUp items)) /\
  downCount s = Z.of_nat (length (List.filter (fun x => negb (statsUp x)) items)) /\
  0 <= degradedCount s <= upCount s.
Proof.
  simpl. pose proof (filter_length_split statsUp items) as Hs.
  pose proof (filter_length_mono statsDegraded statsUp items statsDegraded_up) as Hd.
  repeat split; lia.
Qed.

Lemma ge_not_NaN (n : number) (t : Q) :
  negb (isNaN n) && number_ge n t = number_ge n t.
Proof. destruct n; reflexivity. Qed.

Lemma getStatusRank_cases (item : object) :
  getStatusRank item =
  if truthy (pick item ["is_up"; "ok"; "up"; "status_up"])
  then (if number_ge (ToNumber (pick item ["last_ms"; "duration_ms"; "ms"]))
                     DEGRADED_MS then 1 else 2)
  else 0.
Proof.
  unfold getStatusRank.
  destruct (truthy (pick item ["is_up"; "ok"; "up"; "status_up"])); simpl;
    [|reflexivity].
  rewrite ge_not_NaN. reflexivity.
Qed.

Lemma statsDegraded_cases (item : object) :
  statsDegraded item =
  (statsUp item &&
   number_ge (ToNumber (pick item ["last_ms"; "duration_ms"; "ms"])) DEGRADED_MS).
Proof.
  unfold statsDegraded, statsUp. rewrite <- andb_assoc, ge_not_NaN. reflexivity.
Qed.

(** C6 (what the code computes). The row and the sort rank read the up flag
    from [is_up], [ok], [up] or [status_up]; the counters of
    [computeTopStats] read it from the first three only. An item that is up
    through [status_up] alone, with a last duration of 2000 ms, is shown
    with the UP badge and ranked degraded (rank 1), and yet the counters
    take it for down and do not count it as degraded; the same item with the
    flag under [is_up] is degraded for all three. *)
Theorem degraded_counter_misses_status_up :
  let flagged := <["is_up" := VBool true]> legacyItem in
  DEGRADED_MS = 1500%Q /\
  pick legacyItem ["is_up"; "ok"; "up"; "status_up"] = VBool true /\
  ToNumber (pick legacyItem ["last_ms"; "duration_ms"; "ms"]) = Fin 2000 /\
  label (rowStatus legacyItem) = "UP" /\
  getStatusRank legacyItem = 1 /\
  statsUp legacyItem = false /\
  statsDegraded legacyItem = false /\
  computeTopStats [legacyItem]
  = {| svcCount := 1; upCount := 0; downCount := 1; degradedCount := 0 |} /\
  label (rowStatus flagged) = "UP" /\
  getStatusRank flagged = 1 /\
  statsDegraded flagged = true /\
  computeTopStats [flagged]
  = {| svcCount := 1; upCount := 1; downCount := 0; degradedCount := 1 |}.
Proof. cbv zeta. repeat split; reflexivity. Qed.

(** ** Environment filter *)

Lemma inferEnv_total (item : object) :
  inferEnv item = "uat" \/ inferEnv item = "prod".
Proof.
  unfold inferEnv. destruct (_ || _); [left|right]; reflexivity.
Qed.

Lemma envEq_prod_uat (item : object) :
  strictEq (VStr (inferEnv item)) (VStr "uat")
  = negb (strictEq (VStr (inferEnv item)) (VStr "prod")).
Proof.
  destruct (inferEnv_total item) as [-> | ->]; reflexivity.
Qed.

Lemma filter_negb_Permutation {A : Type} (f : A -> bool) (l : list A) :
  Permutation l (List.filter f l ++ List.filter (fun x => negb (f x)) l).
Proof.
  induction l as [|x l IH]; simpl; [constructor|].
  destruct (f x); simpl.
  - constructor. exact IH.
  - rewrite IH at 1. apply Permutation_middle.
Qed.

(** C8. [filterByEnv] gives back its input when the filter is "all" or
    absent (undefined, null or the empty text); [inferEnv] answers "uat" or
    "prod" for every item, so the "prod" and "uat" selections split the
    list: together they are a rearrangement of it, and every item of the
    list is in exactly one of them. *)
Theorem filterByEnv_partition (items : list object) :
  filterByEnv items (VStr "all") = items /\
  filterByEnv items VUndefined = items /\
  filterByEnv items VNull = items /\
  filterByEnv items (VStr "") = items /\
  (forall it, inferEnv it = "uat" \/ inferEnv it = "prod") /\
  Permutation items
    (filterByEnv items (VStr "prod") ++ filterByEnv items (VStr "uat")) /\
  Forall (fun it =>
            (In it (filterByEnv items (VStr "prod")) /\
             ~ In it (filterByEnv items (VStr "uat"))) \/
            (In it (filterByEnv items (VStr "uat")) /\
             ~ In it (filterByEnv items (VStr "prod")))) items.
Proof.
  split; [reflexivity|]. split; [reflexivity|].
  split; [reflexivity|]. split; [reflexivity|].
  split; [exact inferEnv_total|].
  assert (Huat : filterByEnv items (VStr "uat")
                 = List.filter (fun it => negb (strictEq (VStr (inferEnv it)) (VStr "prod"))) items).
  { unfold filterByEnv. simpl. apply List.filter_ext. intros it.
    apply envEq_prod_uat. }
  assert (Hprod : filterByEnv items (VStr "prod")
                  = List.filter (fun it => strictEq (VStr (inferEnv it)) (VStr "prod")) items)
    by reflexivity.
  rewrite Huat, Hprod. split.
  - apply filter_negb_Permutation.
  - apply Forall_forall. intros it Hin. apply list_elem_of_In in Hin.
    rewrite !List.filter_In.
    destruct (strictEq (VStr (inferEnv it)) (VStr "prod")) eqn:E; simpl.
    + left. split; [tauto|]. intros [_ F]. discriminate.
    + right. split; [tauto|]. intros [_ F]. discriminate.
Qed.
End DashboardFacts.

(** ** HTML escaping *)

Lemma replaceAll_single (c : ascii) (rep s : string) :
  replaceAll (String c EmptyString) rep s
  = mapChars (fun a => if Ascii.eqb c a then rep else String a EmptyString) s.
Proof.
  unfold replaceAll. induction s as [|a s IH]; simpl; [reflexivity|].
  rewrite andb_true_r. destruct (Ascii.eqb c a); simpl; rewrite IH; reflexivity.
Qed.

Lemma append_cons (x : ascii) (a b : string) :
  String.append (String x a) b = String x (String.append a b).
Proof. reflexivity. Qed.

Lemma append_assoc (a b c : string) :
  String.append (String.append a b) c = String.append a (String.append b c).
Proof.
  induction a as [|x a IH]; [reflexivity|].
  rewrite !append_cons, IH. reflexivity.
Qed.

Lemma mapChars_append (f : ascii -> string) (s t : string) :
  mapChars f (String.append s t) = String.append (mapChars f s) (mapChars f t).
Proof.
  induction s as [|a s IH]; [reflexivity|].
  rewrite append_cons. simpl. rewrite IH, append_assoc. reflexivity.
Qed.

Lemma mapChars_compose (f g : ascii -> string) (s : string) :
  mapChars f (mapChars g s) = mapChars (fun a => mapChars f (g a)) s.
Proof.
  induction s as [|a s IH]; simpl; [reflexivity|].
  rewrite mapChars_append, IH. reflexivity.
Qed.

Lemma mapChars_ext (f g : ascii -> string) (s : string) :
  (forall a, f a = g a) -> mapChars f s = mapChars g s.
Proof.
  intros E. induction s as [|a s IH]; simpl; [reflexivity|].
  rewrite E, IH. reflexivity.
Qed.

Lemma occurs_append (c : ascii) (s t : string) :
  occurs c (String.append s t) = occurs c s || occurs c t.
Proof.
  induction s as [|a s IH]; [reflexivity|].
  rewrite append_cons. simpl. rewrite IH, orb_assoc. reflexivity.
Qed.

Lemma occurs_mapChars (c : ascii) (f : ascii -> string) (s : string) :
  (forall a, occurs c (f a) = false) -> occurs c (mapChars f s) = false.
Proof.
  intros Hf. induction s as [|a s IH]; simpl; [reflexivity|].
  rewrite occurs_append, Hf, IH. reflexivity.
Qed.

Lemma escapeChar_clean (a : ascii) :
  occurs "<" (escapeChar a) = false /\
  occurs ">" (escapeChar a) = false /\
  occurs (ascii_of_nat 34) (escapeChar a) = false /\
  occurs (ascii_of_nat 39) (escapeChar a) = false.
Proof.
  destruct a as [[] [] [] [] [] [] [] []]; repeat split; reflexivity.
Qed.

Section EscapeFacts.
Context `{JsBuiltins}.

Lemma escapeHtml_mapChars (str : value) :
  escapeHtml str = mapChars escapeChar (ToString str).
Proof.
  unfold escapeHtml, squote, dquote.
  change ">" with (String ">"%char EmptyString).
  change "<" with (String "<"%char EmptyString).
  change "&" with (String "&"%char EmptyString).
  rewrite !replaceAll_single, !mapChars_compose.
  apply mapChars_ext. intros a.
  destruct a as [[] [] [] [] [] [] [] []]; reflexivity.
Qed.

(** C10. For every input value the text returned by [escapeHtml] holds no
    '<', no '>', no double quote and no single quote: it is the input text
    with each of '&', '<', '>', the double quote and the single quote
    replaced by its entity and every other character kept, the '&' of an
    entity not being escaped again. *)
Theorem escapeHtml_safe (str : value) :
  escapeHtml str = mapChars escapeChar (ToString str) /\
  occurs "<" (escapeHtml str) = false /\
  occurs ">" (escapeHtml str) = false /\
  occurs (ascii_of_nat 34) (escapeHtml str) = false /\
  occurs (ascii_of_nat 39) (escapeHtml str) = false /\
  escapeHtml (VStr "<") = "&lt;" /\
  escapeHtml (VStr "&lt;") = "&amp;lt;".
Proof.
  split; [apply escapeHtml_mapChars|].
  rewrite escapeHtml_mapChars.
  repeat split; try (apply occurs_mapChars; intros a; apply escapeChar_clean).
Qed.
End EscapeFacts.

(** ** Maps *)

Lemma sameValueZero_spec (a b : timeValue) : reflect (a = b) (sameValueZero a b).
Proof.
  destruct a as [x|], b as [y|]; simpl; try (constructor; congruence).
  destruct (Z.eqb_spec x y); constructor; congruence.
Qed.

Lemma sameValueZero_refl (a : timeValue) : sameValueZero a a = true.
Proof. destruct a; simpl; [apply Z.eqb_refl|reflexivity]. Qed.

Lemma sameValueZero_sym (a b : timeValue) : sameValueZero a b = sameValueZero b a.
Proof. destruct a, b; simpl; try reflexivity. apply Z.eqb_sym. Qed.

Lemma mapGet_mapSet {V : Type} (k k' : timeValue) (v : V) (m : JsMap V) :
  mapGet k' (mapSet k v m) = if sameValueZero k' k then Some v else mapGet k' m.
Proof.
  induction m as [|[k0 v0] m IH]; simpl.
  - reflexivity.
  - destruct (sameValueZero_spec k k0) as [->|Hne]; simpl.
    + destruct (sameValueZero k' k0); reflexivity.
    + rewrite IH. destruct (sameValueZero_spec k' k0) as [->|Hne'].
      * destruct (sameValueZero_spec k0 k) as [E|_]; [congruence|reflexivity].
      * reflexivity.
Qed.

Lemma mapSet_mapSet {V : Type} (k : timeValue) (v v' : V) (m : JsMap V) :
  mapSet k v (mapSet k v' m) = mapSet k v m.
Proof.
  induction m as [|[k0 v0] m IH]; simpl.
  - rewrite sameValueZero_refl. reflexivity.
  - destruct (sameValueZero_spec k k0) as [->|Hne]; simpl.
    + rewrite sameValueZero_refl. reflexivity.
    + destruct (sameValueZero_spec k k0) as [E|_]; [congruence|]. rewrite IH. reflexivity.
Qed.

Lemma mapSet_keys {V : Type} (k : timeValue) (v : V) (m : JsMap V) :
  List.map fst (mapSet k v m)
  = if mapHas k m then List.map fst m else List.map fst m ++ [k].
Proof.
  unfold mapHas. induction m as [|[k0 v0] m IH]; simpl; [reflexivity|].
  destruct (sameValueZero_spec k k0) as [->|Hne]; simpl; [reflexivity|].
  rewrite IH. destruct (mapGet k m); reflexivity.
Qed.

Lemma mapGet_None_keys {V : Type} (k : timeValue) (m : JsMap V) :
  mapGet k m = None <-> ~ In k (List.map fst m).
Proof.
  induction m as [|[k0 v0] m IH]; simpl; [tauto|].
  destruct (sameValueZero_spec k k0) as [->|Hne].
  - split; [discriminate|]. intros F. exfalso. apply F. left. reflexivity.
  - rewrite IH. split.
    + intros Hn [E|Hi]; [congruence|tauto].
    + tauto.
Qed.

Lemma mapSet_NoDup {V : Type} (k : timeValue) (v : V) (m : JsMap V) :
  List.NoDup (List.map fst m) -> List.NoDup (List.map fst (mapSet k v m)).
Proof.
  intros Hnd. rewrite mapSet_keys. unfold mapHas.
  destruct (mapGet k m) eqn:E; [exact Hnd|].
  apply mapGet_None_keys in E.
  apply NoDup_ListNoDup. apply NoDup_app. repeat split.
  - apply NoDup_ListNoDup. exact Hnd.
  - intros x Hx Hx'. apply list_elem_of_In in Hx.
    apply list_elem_of_singleton in Hx'. subst x. contradiction.
  - apply NoDup_singleton.
Qed.

Lemma totalCount_mapSet (k : timeValue) (v : BucketAcc) (m : JsMap BucketAcc) :
  (totalCount (mapSet k v m) + count (accAt k m) = totalCount m + count v)%nat.
Proof.
  unfold accAt. induction m as [|[k0 v0] m IH]; simpl; [lia|].
  destruct (sameValueZero_spec k k0) as [->|Hne]; simpl; lia.
Qed.

(** ** Bucketing *)

Lemma addProbe_bump (w : Z) (m : JsMap BucketAcc) (p : Probe) :
  addProbe w m p
  = mapSet (bucketStartOf w p) (bump p (accAt (bucketStartOf w p) m)) m.
Proof.
  unfold addProbe, accAt, mapHas.
  destruct (mapGet (bucketStartOf w p) m) as [b|] eqn:E.
  - rewrite E. reflexivity.
  - rewrite mapGet_mapSet, sameValueZero_refl, mapSet_mapSet. reflexivity.
Qed.

Lemma accAt_addProbe (w : Z) (k : timeValue) (m : JsMap BucketAcc) (p : Probe) :
  accAt k (addProbe w m p)
  = if inBucket w k p then bump p (accAt k m) else accAt k m.
Proof.
  rewrite addProbe_bump. unfold accAt at 1. rewrite mapGet_mapSet.
  unfold inBucket. rewrite (sameValueZero_sym (bucketStartOf w p) k).
  destruct (sameValueZero_spec k (bucketStartOf w p)) as [->|Hne]; reflexivity.
Qed.

Lemma mapHas_addProbe (w : Z) (k : timeValue) (m : JsMap BucketAcc) (p : Probe) :
  mapHas k (addProbe w m p) = inBucket w k p || mapHas k m.
Proof.
  rewrite addProbe_bump. unfold mapHas. rewrite mapGet_mapSet.
  unfold inBucket. rewrite (sameValueZero_sym (bucketStartOf w p) k).
  destruct (sameValueZero k (bucketStartOf w p)); reflexivity.
Qed.

Lemma totalCount_addProbe (w : Z) (m : JsMap BucketAcc) (p : Probe) :
  totalCount (addProbe w m p) = S (totalCount m).
Proof.
  rewrite addProbe_bump.
  pose proof (totalCount_mapSet (bucketStartOf w p)
                (bump p (accAt (bucketStartOf w p) m)) m) as Ht.
  simpl in Ht. lia.
Qed.

Lemma fold_addProbe_count (w : Z) (k : timeValue) (ps : list Probe) (m : JsMap BucketAcc) :
  count (accAt k (List.fold_left (addProbe w) ps m))
  = (count (accAt k m) + length (List.filter (inBucket w k) ps))%nat.
Proof.
  revert m. induction ps as [|p ps IH]; intros m; simpl; [lia|].
  rewrite IH, accAt_addProbe. destruct (inBucket w k p); simpl; lia.
Qed.

Lemma fold_addProbe_has (w : Z) (k : timeValue) (ps : list Probe) (m : JsMap BucketAcc) :
  mapHas k (List.fold_left (addProbe w) ps m)
  = List.existsb (inBucket w k) ps || mapHas k m.
Proof.
  revert m. induction ps as [|p ps IH]; intros m; simpl; [reflexivity|].
  rewrite IH, mapHas_addProbe.
  destruct (inBucket w k p), (List.existsb (inBucket w k) ps), (mapHas k m);
    reflexivity.
Qed.

Lemma fold_addProbe_total (w : Z) (ps : list Probe) (m : JsMap BucketAcc) :
  totalCount (List.fold_left (addProbe w) ps m) = (totalCount m + length ps)%nat.
Proof.
  revert m. induction ps as [|p ps IH]; intros m; simpl; [lia|].
  rewrite IH, totalCount_addProbe. lia.
Qed.

Lemma fold_addProbe_NoDup (w : Z) (ps : list Probe) (m : JsMap BucketAcc) :
  List.NoDup (List.map fst m) ->
  List.NoDup (List.map fst (List.fold_left (addProbe w) ps m)).
Proof.
  revert m. induction ps as [|p ps IH]; intros m Hnd; simpl; [exact Hnd|].
  apply IH. rewrite addProbe_bump. apply mapSet_NoDup. exact Hnd.
Qed.

Lemma bucketStartOf_bounds (w : Z) (p : Probe) :
  0 < w ->
  match ts p with
  | Some t => exists s, bucketStartOf w p = Some s /\
                        s = t / w * w /\ s <= t < s + w
  | None => bucketStartOf w p = None
  end.
Proof.
  intros Hw. unfold bucketStartOf. destruct (ts p) as [t|]; [|reflexivity].
  exists (t / w * w). split; [reflexivity|]. split; [reflexivity|].
  pose proof (Z.div_mod t w ltac:(lia)) as Hdm.
  pose proof (Z.mod_pos_bound t w Hw) as Hb. lia.
Qed.

(** ** Sorting *)

Lemma insertSorted_Permutation {A : Type} (cmp : A -> A -> Q) (x : A) (l : list A) :
  Permutation (insertSorted cmp x l) (x :: l).
Proof.
  induction l as [|y l IH]; simpl; [reflexivity|].
  destruct (Qle_bool (cmp x y) 0); [reflexivity|].
  rewrite IH. apply perm_swap.
Qed.

Lemma jsSort_Permutation {A : Type} (cmp : A -> A -> Q) (l : list A) :
  Permutation (jsSort cmp l) l.
Proof.
  induction l as [|x l IH]; simpl; [reflexivity|].
  rewrite insertSorted_Permutation. constructor. exact IH.
Qed.

Lemma jsSort_length {A : Type} (cmp : A -> A -> Q) (l : list A) :
  length (jsSort cmp l) = length l.
Proof. apply Permutation_length, jsSort_Permutation. Qed.

Section SortedByKey.
Context {A : Type} (key : A -> Q).

Lemma keyCmp_le (a b : A) : Qle_bool (keyCmp key a b) 0 = true <-> keyLe key a b.
Proof.
  unfold keyCmp, keyLe. rewrite Qle_bool_iff. split; intros L; lra.
Qed.

Lemma insertSorted_sorted (x : A) (l : list A) :
  StronglySorted (keyLe key) l -> StronglySorted (keyLe key) (insertSorted (keyCmp key) x l).
Proof.
  induction l as [|y l IH]; intros Hs; simpl.
  - constructor; constructor.
  - destruct (Qle_bool (keyCmp key x y) 0) eqn:E.
    + apply keyCmp_le in E. constructor; [exact Hs|].
      constructor; [exact E|].
      apply StronglySorted_inv in Hs as [_ Hall].
      eapply List.Forall_impl; [|exact Hall].
      intros z Hz. unfold keyLe in *. eapply Qle_trans; eassumption.
    + assert (Hyx : keyLe key y x).
      { unfold keyLe. destruct (Qlt_le_dec (key x) (key y)) as [L|L]; [|exact L].
        exfalso. apply Qlt_le_weak in L. apply keyCmp_le in L. congruence. }
      apply StronglySorted_inv in Hs as [Hs Hall].
      constructor; [apply IH; exact Hs|].
      apply List.Forall_forall. intros z Hz.
      apply (Permutation_in _ (insertSorted_Permutation (keyCmp key) x l)) in Hz.
      destruct Hz as [<-|Hz]; [exact Hyx|].
      rewrite List.Forall_forall in Hall. apply Hall. exact Hz.
Qed.

Lemma jsSort_sorted (l : list A) : StronglySorted (keyLe key) (jsSort (keyCmp key) l).
Proof.
  induction l as [|x l IH]; simpl; [constructor|].
  apply insertSorted_sorted. exact IH.
Qed.

Lemma sorted_map_key (l : list A) :
  StronglySorted (keyLe key) l -> StronglySorted Qle (List.map key l).
Proof.
  induction 1 as [|a l Hs IH Hall]; simpl; constructor; [exact IH|].
  apply List.Forall_map. exact Hall.
Qed.
End SortedByKey.

Lemma Qltb_lt (x y : Q) : Qltb x y = true <-> (x < y)%Q.
Proof.
  unfold Qltb. rewrite negb_true_iff. split.
  - intros E. apply Qnot_le_lt. intros L. apply Qle_bool_iff in L. congruence.
  - intros L. destruct (Qle_bool y x) eqn:E; [|reflexivity].
    apply Qle_bool_iff in E. exfalso. exact (Qlt_not_le _ _ L E).
Qed.

(** The rank of an element of an ascending list: fewer than [i + 1] elements
    are below the element at index [i], and more than [i] are not above it. *)
Lemma sorted_nth_rank (l : list Q) (i : nat) (x : Q) :
  StronglySorted Qle l -> List.nth_error l i = Some x ->
  (length (List.filter (fun y => Qltb y x) l) <= i
   /\ i < length (List.filter (fun y => Qle_bool y x) l))%nat.
Proof.
  intros Hs. revert i. induction Hs as [|a l Hs IH Hall]; intros i Hn.
  - destruct i; discriminate.
  - destruct i as [|j]; simpl in Hn.
    + injection Hn as ->. simpl.
      assert (Hxx : Qle_bool x x = true) by (apply Qle_bool_iff, Qle_refl).
      unfold Qltb at 1. rewrite Hxx. simpl. split; [|lia].
      assert (E : List.filter (fun y => Qltb y x) l = []).
      { clear IH Hs. induction l as [|b l IHl]; simpl; [reflexivity|].
        apply List.Forall_cons_iff in Hall as [Hb Hall].
        unfold Qltb at 1. apply Qle_bool_iff in Hb. rewrite Hb. simpl.
        apply IHl. exact Hall. }
      rewrite E. simpl. lia.
    + destruct (IH j Hn) as [H1 H2].
      assert (Hax : Qle_bool a x = true).
      { apply Qle_bool_iff. rewrite List.Forall_forall in Hall.
        apply Hall. eapply List.nth_error_In. exact Hn. }
      simpl. rewrite Hax. simpl. split; [|lia].
      destruct (Qltb a x); simpl; lia.
Qed.

Lemma filter_length_Permutation {A : Type} (f : A -> bool) (l l' : list A) :
  Permutation l l' -> length (List.filter f l) = length (List.filter f l').
Proof.
  induction 1 as [|x l l' _ IH|x y l|l l' l'' _ IH1 _ IH2]; simpl.
  - reflexivity.
  - destruct (f x); simpl; congruence.
  - destruct (f x), (f y); reflexivity.
  - congruence.
Qed.

Lemma sorted_nth_unique (l l' : list Q) (i : nat) (x y : Q) :
  Permutation l l' -> StronglySorted Qle l -> StronglySorted Qle l' ->
  List.nth_error l i = Some x -> List.nth_error l' i = Some y -> (x == y)%Q.
Proof.
  intros Hp Hs Hs' Hx Hy.
  destruct (sorted_nth_rank l i x Hs Hx) as [Hx1 Hx2].
  destruct (sorted_nth_rank l' i y Hs' Hy) as [Hy1 Hy2].
  assert (Hxy : forall a b : Q, (a < b)%Q ->
            forall z, Qle_bool z a = true -> Qltb z b = true).
  { intros a b Lab z Hz. apply Qltb_lt. apply Qle_bool_iff in Hz.
    eapply Qle_lt_trans; eassumption. }
  destruct (Q_dec x y) as [[L|L]|E]; [| |exact E]; exfalso.
  - pose proof (filter_length_mono _ _ l (Hxy x y L)) as Hm.
    rewrite (filter_length_Permutation (fun z => Qltb z y) l l' Hp) in Hm. lia.
  - pose proof (filter_length_mono _ _ l' (Hxy y x L)) as Hm.
    rewrite <- (filter_length_Permutation (fun z => Qltb z x) l l' Hp) in Hm. lia.
Qed.

(** ** Bucket counts *)

Example sampleProbes_buckets :
  List.map (fun e => (fst e, count (snd e), okCount (snd e)))
           (collectBuckets 300000 sampleProbes)
  = [(Some 1699999800000, 1%nat, 1%nat); (Some 1700000100000, 2%nat, 1%nat);
     (Some 1700000400000, 1%nat, 1%nat)].
Proof. reflexivity. Qed.

(** C3. For every list of probes and every bucket width [w > 0], a probe with
    timestamp [t] is put in the bucket that starts at [floor(t / w) * w], a
    start with [start <= t < start + w]; the buckets have distinct starts, a
    bucket exists exactly for the starts that occur, the count of each bucket
    is the number of probes with that start, and the counts of all buckets
    add up to the number of probes. The chart's points are the buckets of
    the 5 minute width taken in sorted order, one label (the formatted start
    of the bucket) and one average per bucket. *)
Theorem bucketProbes_counts `{JsDateText} (w : Z) (probes : list Probe) :
  0 < w ->
  let byBucket := collectBuckets w probes in
  List.NoDup (List.map fst byBucket) /\
  Forall (fun p =>
            match ts p with
            | Some t => exists s, bucketStartOf w p = Some s /\
                                  s = t / w * w /\ s <= t < s + w
            | None => bucketStartOf w p = None
            end /\
            mapHas (bucketStartOf w p) byBucket = true) probes /\
  (forall k, mapHas k byBucket = List.existsb (inBucket w k) probes) /\
  (forall k, count (accAt k byBucket)
             = length (List.filter (inBucket w k) probes)) /\
  totalCount byBucket = length probes /\
  Permutation (List.map fst (sortedBuckets 300000 probes))
              (List.map fst (collectBuckets 300000 probes)) /\
  labels (bucketProbes probes)
  = List.map toLocaleString (List.map fst (sortedBuckets 300000 probes)) /\
  length (avgMs (bucketProbes probes)) = length (labels (bucketProbes probes)).
Proof.
  intros Hw byBucket. unfold byBucket, collectBuckets.
  assert (Hhas : forall k, mapHas k (List.fold_left (addProbe w) probes [])
                           = List.existsb (inBucket w k) probes).
  { intros k. rewrite fold_addProbe_has. simpl. apply orb_false_r. }
  split; [apply fold_addProbe_NoDup; constructor|].
  split.
  { apply Forall_forall. intros p Hp. apply list_elem_of_In in Hp.
    split; [apply bucketStartOf_bounds; exact Hw|].
    rewrite Hhas. apply List.existsb_exists. exists p. split; [exact Hp|].
    unfold inBucket. apply sameValueZero_refl. }
  split; [exact Hhas|].
  split; [intros k; rewrite fold_addProbe_count; reflexivity|].
  split; [rewrite fold_addProbe_total; reflexivity|].
  split; [apply Permutation_map, jsSort_Permutation|].
  unfold bucketProbes, bucketProbesEvery.
  destruct probes as [|p ps]; [split; reflexivity|].
  cbv beta iota zeta. cbn [labels avgMs].
  change (BUCKET_MINUTES * 60 * 1000) with 300000.
  split.
  - rewrite List.map_map. reflexivity.
  - rewrite !List.length_map. reflexivity.
Qed.

Lemma bucketProbes_counts_witness :
  0 < 300000 /\
  totalCount (collectBuckets 300000 sampleProbes) = length sampleProbes.
Proof.
  split; [reflexivity|].
  apply (@bucketProbes_counts plainDateText 300000 sampleProbes). reflexivity.
Defined.

(** ** Bucket averages *)

Lemma sumQ_durationOf (ps : list Probe) :
  (sumQ (List.map durationOf ps) == sumQ (recordedDurations ps))%Q.
Proof.
  induction ps as [|p ps IH]; simpl; [reflexivity|].
  unfold durationOf at 1. destruct (duration_ms p); simpl; rewrite IH; lra.
Qed.

Lemma fold_addProbe_sum (w : Z) (k : timeValue) (ps : list Probe) (m : JsMap BucketAcc) :
  (sumMs (accAt k (List.fold_left (addProbe w) ps m))
   == sumMs (accAt k m)
      + sumQ (List.map durationOf (List.filter (inBucket w k) ps)))%Q.
Proof.
  revert m. induction ps as [|p ps IH]; intros m; simpl; [lra|].
  rewrite IH, accAt_addProbe. destruct (inBucket w k p); simpl; lra.
Qed.

(** C4 (what the code computes). In every bucket the accumulated sum is the
    sum of the recorded durations of its probes, and the divisor [count] is
    the number of all its probes, those without a duration included; so for
    a 100 ms probe and a probe without duration in one bucket the chart
    shows 50, not the mean 100 of the recorded durations. *)
Theorem bucketProbes_avg_divides_by_all_probes `{JsDateText} :
  (forall w k ps,
     (sumMs (accAt k (collectBuckets w ps))
      == sumQ (recordedDurations (List.filter (inBucket w k) ps)))%Q /\
     count (accAt k (collectBuckets w ps))
     = length (List.filter (inBucket w k) ps)) /\
  recordedDurations missingDurationProbes = [100%Q] /\
  exists q, avgMs (bucketProbes missingDurationProbes) = [Some (Fin q)] /\
            (q == 50)%Q /\ ~ (q == 100)%Q.
Proof.
  split.
  - intros w k ps. unfold collectBuckets. split.
    + rewrite fold_addProbe_sum, sumQ_durationOf. simpl. lra.
    + rewrite fold_addProbe_count. reflexivity.
  - split; [reflexivity|]. exists (100 # 2)%Q.
    split; [reflexivity|]. split; [reflexivity|]. intros E. discriminate E.
Qed.

(** ** The 95th percentile of the summary *)

Lemma recorded_withMs (ps : list Probe) :
  List.map durationOf (List.filter hasDuration ps) = recordedDurations ps.
Proof.
  induction ps as [|p ps IH]; simpl; [reflexivity|].
  assert (Hh : hasDuration p
               = match duration_ms p with Some _ => true | None => false end)
    by reflexivity.
  rewrite Hh. destruct (duration_ms p) as [d|] eqn:E; simpl; [|exact IH].
  rewrite IH. f_equal. unfold durationOf. rewrite E. reflexivity.
Qed.

Lemma withMs_duration (ps : list Probe) (p : Probe) :
  In p (List.filter hasDuration ps) -> duration_ms p = Some (durationOf p).
Proof.
  intros Hin. apply List.filter_In in Hin as [_ Hd].
  unfold hasDuration, durationOf in *. destruct (duration_ms p); [reflexivity|discriminate].
Qed.

Lemma p95Index_lt (n : nat) : (0 < n -> p95Index n < n)%nat.
Proof.
  intros Hn. unfold p95Index. apply Nat.Div0.div_lt_upper_bound. lia.
Qed.

Lemma p95Index_floor (n : nat) :
  Z.of_nat (p95Index n) = Qfloor (0.95 * inject_Z (Z.of_nat n)).
Proof.
  unfold p95Index.
  rewrite Nat2Z.inj_div, Nat2Z.inj_mul.
  change (0.95 * inject_Z (Z.of_nat n))%Q with ((95 * Z.of_nat n) # 100)%Q.
  unfold Qfloor.
  replace (95 * Z.of_nat n) with (5 * (19 * Z.of_nat n)) by lia.
  change (Z.pos 100) with (5 * 20).
  rewrite Z.div_mul_cancel_l by lia. reflexivity.
Qed.

(** C5. For every list of probes with at least one recorded duration the
    summary shows a P95, and it is the element at index [floor(0.95 n)] of
    the [n] recorded durations in ascending order, whichever way ties are
    arranged; for the ten durations 10, 20, ..., 100 the index is 9 and the
    P95 is 100. *)
Theorem setSummary_p95 (probes : list Probe) :
  recordedDurations probes <> [] ->
  let n := length (recordedDurations probes) in
  exists line d,
    setSummary probes = Line line /\
    shownP95 line = Some (Fixed 0 (Fin d)) /\
    In d (recordedDurations probes) /\
    Z.of_nat (p95Index n) = Qfloor (0.95 * inject_Z (Z.of_nat n)) /\
    (forall sorted,
       Permutation sorted (recordedDurations probes) ->
       StronglySorted Qle sorted ->
       exists d', List.nth_error sorted (p95Index n) = Some d' /\ (d' == d)%Q) /\
    p95Index 10 = 9%nat /\
    (exists l, setSummary synthetic10 = Line l /\
               shownP95 l = Some (Fixed 0 (Fin 100))).
Proof.
  intros Hne n.
  destruct probes as [|p0 ps]; [contradiction Hne; reflexivity|].
  set (probes := p0 :: ps) in *.
  set (withMs := List.filter hasDuration probes).
  set (sortedP := jsSort (keyCmp durationOf) withMs).
  assert (Hlen : length sortedP = n).
  { unfold sortedP, n. rewrite jsSort_length, <- recorded_withMs.
    rewrite List.length_map. reflexivity. }
  assert (Hpos : (0 < n)%nat).
  { unfold n. destruct (recordedDurations probes); [contradiction Hne; reflexivity|].
    simpl. lia. }
  destruct (List.nth_error sortedP (p95Index n)) as [p|] eqn:Hnth.
  2:{ apply List.nth_error_None in Hnth. pose proof (p95Index_lt n Hpos). lia. }
  assert (Hin : In p withMs).
  { apply (Permutation_in _ (jsSort_Permutation (keyCmp durationOf) withMs)).
    eapply List.nth_error_In. exact Hnth. }
  pose proof (withMs_duration probes p Hin) as Hdur.
  assert (Hperm : Permutation (List.map durationOf sortedP) (recordedDurations probes)).
  { rewrite <- recorded_withMs. apply Permutation_map, jsSort_Permutation. }
  assert (Hsorted : StronglySorted Qle (List.map durationOf sortedP)).
  { apply sorted_map_key, jsSort_sorted. }
  eexists. exists (durationOf p).
  split.
  { unfold setSummary. fold probes. unfold probes at 1.
    cbv zeta. fold withMs. change (fun a b : Probe => (durationOf a - durationOf b)%Q)
      with (keyCmp durationOf). fold sortedP.
    rewrite Hlen, Hnth, Hdur.
    destruct (Nat.eqb_spec n 0) as [E|_]; [lia|]. reflexivity. }
  split; [reflexivity|].
  split.
  { rewrite <- recorded_withMs. apply List.in_map. exact Hin. }
  split; [apply p95Index_floor|].
  split.
  { intros sorted Hp Hs.
    destruct (List.nth_error sorted (p95Index n)) as [d'|] eqn:Hd'.
    2:{ apply List.nth_error_None in Hd'. apply Permutation_length in Hp.
        fold n in Hp. pose proof (p95Index_lt n Hpos). lia. }
    exists d'. split; [reflexivity|].
    apply (sorted_nth_unique sorted (List.map durationOf sortedP) (p95Index n)).
    - rewrite Hp, Hperm. reflexivity.
    - exact Hs.
    - exact Hsorted.
    - exact Hd'.
    - rewrite List.nth_error_map, Hnth. reflexivity. }
  split; [reflexivity|].
  eexists. split; reflexivity.
Qed.

Lemma setSummary_p95_witness :
  recordedDurations shuffled10 <> [] /\
  exists line d,
    setSummary shuffled10 = Line line /\
    shownP95 line = Some (Fixed 0 (Fin d)) /\ (d == 100)%Q.
Proof.
  assert (Hne : recordedDurations shuffled10 <> []) by discriminate.
  split; [exact Hne|].
  destruct (setSummary_p95 shuffled10 Hne) as (line & d & Hs & Hp & _).
  exists line, d. split; [exact Hs|]. split; [exact Hp|].
  vm_compute in Hs. injection Hs as <-. simpl in Hp. injection Hp as <-.
  reflexivity.
Defined.

(** ** Uptime in the summary line *)

Lemma ofCount_S_nonzero (n : nat) :
  Qeq_bool (inject_Z (Z.of_nat (S n))) 0 = false.
Proof.
  destruct (Qeq_bool _ 0) eqn:E; [|reflexivity].
  apply Qeq_bool_iff in E. unfold Qeq in E. simpl in E. lia.
Qed.

Example summary_without_fields :
  @setSummaryFromApi plainBuiltins (Some ∅)
  = Line {| shownProbes := Plain VUndefined; shownSuccess := Plain VUndefined;
            shownPct := Literal "0"; shownAvg := Literal "—";
            shownP95 := None |}.
Proof. reflexivity. Qed.

Example summary_day_range :
  @setSummaryFromApi plainBuiltins (Some dayRangeSummary)
  = Line {| shownProbes := Plain (VNum (Fin 288));
            shownSuccess := Plain (VNum (Fin 285));
            shownPct := Fixed 1 (Fin (285 / 288 * 100));
            shownAvg := Fixed 0 (Fin 212.5);
            shownP95 := Some (Fixed 0 (Fin 480)) |}.
Proof. reflexivity. Qed.

Section UptimeFacts.
Context `{JsBuiltins}.

Lemma setSummaryFromApi_pct (s : object) (line : SummaryLine) :
  setSummaryFromApi (Some s) = Line line ->
  strictEq (prop s "total_probes") (VNum (Fin 0)) = false /\
  shownPct line =
    if truthy (prop s "total_probes")
    then Fixed 1 (number_mul
                    (number_div (ToNumber (prop s "success_count"))
                                (ToNumber (prop s "total_probes")))
                    (Fin 100))
    else Literal "0".
Proof.
  unfold setSummaryFromApi.
  destruct (strictEq (prop s "total_probes") (VNum (Fin 0))); [discriminate|].
  intros Hl. split; [reflexivity|].
  destruct (notNullish (prop s "avg_ms")), (notNullish (prop s "p95_ms"));
    destruct (prop s "avg_ms"), (prop s "p95_ms");
    try discriminate Hl; injection Hl as <-; reflexivity.
Qed.

(** C7. The summary line shows an uptime computed as
    success_count / total_probes only for a non-zero number of probes:
    a summary whose total_probes is 0 (and an absent summary) gives the
    no-data text, and so does the empty probe list of the client-side
    summary; whenever a line with a computed percentage is shown the
    divisor is not zero and the percentage is the finite number
    success_count / total_probes * 100. *)
Theorem uptime_needs_probes :
  setSummaryFromApi None = NoProbeData /\
  (forall s t, prop s "total_probes" = VNum (Fin t) -> (t == 0)%Q ->
     setSummaryFromApi (Some s) = NoProbeData) /\
  (forall s t c line,
     prop s "total_probes" = VNum (Fin t) ->
     prop s "success_count" = VNum (Fin c) ->
     setSummaryFromApi (Some s) = Line line ->
     ~ (t == 0)%Q /\ ((0 <= t)%Q -> (0 < t)%Q) /\
     shownPct line = Fixed 1 (Fin (c / t * 100))) /\
  (forall s line n,
     setSummaryFromApi (Some s) = Line line ->
     shownPct line = Fixed 1 n ->
     truthy (prop s "total_probes") = true /\
     n = number_mul (number_div (ToNumber (prop s "success_count"))
                                (ToNumber (prop s "total_probes"))) (Fin 100)) /\
  setSummary [] = NoProbeData /\
  (forall p ps, exists line,
     setSummary (p :: ps) = Line line /\
     (0 < length (p :: ps))%nat /\
     shownPct line =
       Fixed 1 (Fin (inject_Z (Z.of_nat (length (List.filter ok (p :: ps))))
                     / inject_Z (Z.of_nat (length (p :: ps))) * 100))).
Proof.
  split; [reflexivity|].
  split.
  { intros s t Ht E. unfold setSummaryFromApi. rewrite Ht. simpl.
    apply Qeq_bool_iff in E. rewrite E. reflexivity. }
  split.
  { intros s t c line Ht Hc Hl.
    destruct (setSummaryFromApi_pct s line Hl) as [Hz Hp].
    rewrite Ht in Hz. simpl in Hz.
    assert (Hne : ~ (t == 0)%Q).
    { intros E. apply Qeq_bool_iff in E. congruence. }
    split; [exact Hne|]. split; [intros L; lra|].
    rewrite Hp, Ht, Hc. simpl. rewrite Hz. reflexivity. }
  split.
  { intros s line n Hl Hn.
    destruct (setSummaryFromApi_pct s line Hl) as [_ Hp].
    rewrite Hp in Hn. destruct (truthy (prop s "total_probes")); [|discriminate].
    split; [reflexivity|]. injection Hn as <-. reflexivity. }
  split; [reflexivity|].
  intros p ps. eexists. split; [reflexivity|]. split; [simpl; lia|].
  cbn [shownPct]. unfold number_div, ofCount.
  change (length (p :: ps)) with (S (length ps)).
  rewrite ofCount_S_nonzero. reflexivity.
Qed.
End UptimeFacts.

Lemma uptime_needs_probes_witness :
  @setSummaryFromApi plainBuiltins (Some emptyRangeSummary) = NoProbeData /\
  exists line, @setSummaryFromApi plainBuiltins (Some dayRangeSummary) = Line line /\
               shownPct line = Fixed 1 (Fin (285 / 288 * 100)).
Proof.
  destruct (@uptime_needs_probes plainBuiltins) as (_ & Hzero & Hpct & _).
  split.
  - apply (Hzero emptyRangeSummary 0%Q); reflexivity.
  - eexists. split; [reflexivity|].
    apply (Hpct dayRangeSummary 288%Q 285%Q); reflexivity.
Defined.

(** ** Recovery after two UP probes *)

Module EngineFacts.
Import Engine.

(** The scenario of the specification: a target that starts UP and the
    probes ok, ok, fail, fail, ok, ok. *)
Example scenario_down_then_recovered :
  events freshState
    [probeAt 0 true; probeAt 60 true; probeAt 120 false; probeAt 180 false;
     probeAt 240 true; probeAt 300 true]
  = [None; None; Some (WentDown (probeAt 120 false)); None; None;
     Some (Recovered (probeAt 300 true))].
Proof. reflexivity. Qed.

Lemma run_snoc (st : TargetState) (pre : list ProbeResult) (r : ProbeResult) :
  run st (pre ++ [r]) = fst (step (run st pre) r).
Proof.
  revert st. induction pre as [|x pre IH]; intros st; simpl; [reflexivity|].
  apply IH.
Qed.

Lemma events_at (st : TargetState) (pre post : list ProbeResult) (r : ProbeResult) :
  List.nth_error (events st (pre ++ r :: post)) (length pre)
  = Some (snd (step (run st pre) r)).
Proof.
  revert st. induction pre as [|x pre IH]; intros st; simpl; [reflexivity|].
  apply IH.
Qed.

Lemma step_armedOnce (st : TargetState) (r : ProbeResult) :
  armedOnce st -> armedOnce (fst (step st r)).
Proof.
  unfold armedOnce, step. intros Hinv.
  destruct (ok r); simpl; [|discriminate].
  destruct (current st); simpl; [|intros _; split; reflexivity].
  destruct (pendingRecovery st); simpl; [|discriminate].
  destruct Hinv as [_ ->]; [reflexivity|]. simpl. discriminate.
Qed.

Lemma run_armedOnce (st : TargetState) (rs : list ProbeResult) :
  armedOnce st -> armedOnce (run st rs).
Proof.
  revert st. induction rs as [|r rs IH]; intros st Hinv; simpl; [exact Hinv|].
  apply IH, step_armedOnce, Hinv.
Qed.

Lemma step_recovered (st : TargetState) (r : ProbeResult) :
  armedOnce st ->
  (isRecovered (snd (step st r)) = true
   <-> ok r = true /\ pendingRecovery st = true).
Proof.
  unfold armedOnce, step. intros Hinv.
  destruct (ok r); simpl.
  - destruct (current st) eqn:Ec; simpl.
    + destruct (pendingRecovery st); simpl.
      * destruct Hinv as [_ ->]; [reflexivity|]. simpl. tauto.
      * split; [discriminate|]. intros [_ F]. discriminate.
    + split; [discriminate|]. intros [_ Hp].
      destruct (Hinv Hp) as [F _]. discriminate.
  - split; [|intros [F _]; discriminate].
    destruct (isUP (current st)); discriminate.
Qed.

Lemma step_pending (st : TargetState) (r : ProbeResult) :
  armedOnce st ->
  (pendingRecovery (fst (step st r)) = true
   <-> ok r = true /\ current st = DOWN).
Proof.
  unfold armedOnce, step. intros Hinv.
  destruct (ok r); simpl.
  - destruct (current st) eqn:Ec; simpl.
    + destruct (pendingRecovery st); simpl.
      * destruct Hinv as [_ ->]; [reflexivity|]. simpl.
        split; [discriminate|]. intros [_ F]. discriminate.
      * split; [discriminate|]. intros [_ F]. discriminate.
    + tauto.
  - split; [discriminate|]. intros [F _]. discriminate.
Qed.

Lemma step_current_down (st : TargetState) (r : ProbeResult) :
  current (fst (step st r)) = DOWN <-> ok r = false.
Proof.
  unfold step. destruct (ok r); simpl.
  - destruct (current st); simpl.
    + destruct (pendingRecovery st); simpl.
      * destruct (2 <=? consecutiveUpCount st + 1); simpl;
          split; discriminate.
      * split; discriminate.
    + split; discriminate.
  - tauto.
Qed.

Lemma snoc_cases {A : Type} (l : list A) :
  l = [] \/ exists l' x, l = l' ++ [x].
Proof.
  induction l as [|x l' _] using List.rev_ind; [left; reflexivity|].
  right. exists l', x. reflexivity.
Qed.

Lemma run_pending (st : TargetState) (pre : list ProbeResult) :
  pendingRecovery st = false ->
  (pendingRecovery (run st pre) = true <->
   exists u, ok u = true /\
     ((exists pre' d, pre = pre' ++ [d; u] /\ ok d = false) \/
      (pre = [u] /\ current st = DOWN))).
Proof.
  intros Hst.
  assert (Hwf : armedOnce st) by (unfold armedOnce; congruence).
  destruct (snoc_cases pre) as [->|(pre1 & u & ->)].
  { simpl. rewrite Hst. split; [discriminate|].
    intros (u & _ & [(pre' & d & E & _)|[E _]]).
    - destruct pre'; discriminate E.
    - discriminate E. }
  rewrite run_snoc, (step_pending _ u (run_armedOnce st pre1 Hwf)).
  split.
  - intros [Hu Hd]. exists u. split; [exact Hu|].
    destruct (snoc_cases pre1) as [->|(pre' & d & ->)].
    + right. split; [reflexivity|exact Hd].
    + left. exists pre', d. rewrite <- List.app_assoc. split; [reflexivity|].
      rewrite run_snoc in Hd. apply step_current_down in Hd. exact Hd.
  - intros (u' & Hu' & [(pre' & d & E & Hd)|[E Hd]]).
    + change [d; u'] with ([d] ++ [u']) in E. rewrite List.app_assoc in E.
      apply List.app_inj_tail in E as [-> ->].
      split; [exact Hu'|]. rewrite run_snoc. apply step_current_down. exact Hd.
    + change [u'] with ([] ++ [u']) in E.
      apply List.app_inj_tail in E as [-> ->].
      split; [exact Hu'|exact Hd].
Qed.

(** C1. For every probe sequence applied to a target's state (one that is
    not waiting for a recovery at the start), the probe after the prefix
    [pre] emits Recovered exactly when it is UP, the probe before it is UP
    and the one before that is a DOWN (or the target was DOWN at the start):
    the 2nd consecutive UP after a DOWN. The 1st UP after a DOWN only sets
    pendingRecovery with consecutiveUpCount = 1 and emits nothing, and a
    3rd or later consecutive UP emits nothing. *)
Theorem recovered_on_second_up
    (st : TargetState) (pre post : list ProbeResult) (r : ProbeResult) :
  pendingRecovery st = false ->
  (exists e, List.nth_error (events st (pre ++ r :: post)) (length pre) = Some e /\
     (isRecovered e = true <->
        ok r = true /\
        exists u, ok u = true /\
          ((exists pre' d, pre = pre' ++ [d; u] /\ ok d = false) \/
           (pre = [u] /\ current st = DOWN)))) /\
  (forall d u1, ok d = false -> ok u1 = true ->
     let s1 := step (run st (pre ++ [d])) u1 in
     snd s1 = None /\
     current (fst s1) = UP /\
     pendingRecovery (fst s1) = true /\
     consecutiveUpCount (fst s1) = 1 /\
     (forall u2, ok u2 = true ->
        let s2 := step (fst s1) u2 in
        snd s2 = Some (Recovered u2) /\
        pendingRecovery (fst s2) = false /\
        (forall us u, Forall (fun x => ok x = true) (us ++ [u]) ->
           isRecovered (snd (step (run (fst s2) us) u)) = false))).
Proof.
  intros Hst.
  assert (Hwf : armedOnce st) by (unfold armedOnce; congruence).
  split.
  { exists (snd (step (run st pre) r)). split; [apply events_at|].
    rewrite (step_recovered _ r (run_armedOnce st pre Hwf)).
    rewrite (run_pending st pre Hst). reflexivity. }
  intros d u1 Hd Hu1. cbv zeta.
  rewrite run_snoc.
  assert (Hdown : current (fst (step (run st pre) d)) = DOWN)
    by (apply step_current_down; exact Hd).
  set (s0 := fst (step (run st pre) d)) in *.
  assert (Hs1 : step s0 u1
                = ({| current := UP; pendingRecovery := true; consecutiveUpCount := 1;
                      lastAlertSentAt := lastAlertSentAt s0;
                      lastProbeAt := Some (timestamp u1) |}, None)).
  { unfold step. rewrite Hu1, Hdown. reflexivity. }
  rewrite Hs1. simpl.
  split; [reflexivity|]. split; [reflexivity|].
  split; [reflexivity|]. split; [reflexivity|].
  intros u2 Hu2.
  assert (Hs2 : step {| current := UP; pendingRecovery := true;
                        consecutiveUpCount := 1;
                        lastAlertSentAt := lastAlertSentAt s0;
                        lastProbeAt := Some (timestamp u1) |} u2
                = ({| current := UP; pendingRecovery := false;
                      consecutiveUpCount := 2;
                      lastAlertSentAt := lastAlertSentAt s0;
                      lastProbeAt := Some (timestamp u2) |}, Some (Recovered u2))).
  { unfold step. rewrite Hu2. reflexivity. }
  rewrite Hs2. simpl.
  split; [reflexivity|]. split; [reflexivity|].
  intros us u Hall.
  set (s2 := {| current := UP; pendingRecovery := false; consecutiveUpCount := 2;
                lastAlertSentAt := lastAlertSentAt s0;
                lastProbeAt := Some (timestamp u2) |}).
  assert (Hwf2 : armedOnce s2) by (unfold armedOnce; discriminate).
  destruct (isRecovered _) eqn:E; [|reflexivity]. exfalso.
  apply (step_recovered _ u (run_armedOnce s2 us Hwf2)) in E as [_ Hp].
  apply (run_pending s2 us eq_refl) in Hp
    as (x & _ & [(pre' & d' & -> & Hd')|[_ F]]); [|discriminate F].
  apply Forall_app in Hall as [Hall _].
  apply Forall_app in Hall as [_ Hall].
  apply Forall_cons in Hall as [Hok _]. congruence.
Qed.

Lemma recovered_on_second_up_witness :
  pendingRecovery freshState = false /\
  List.map isRecovered
    (events freshState
       [probeAt 0 true; probeAt 60 true; probeAt 120 false; probeAt 180 false;
        probeAt 240 true; probeAt 300 true; probeAt 360 true])
  = [false; false; false; false; false; true; false] /\
  exists e,
    List.nth_error
      (events freshState
         ([probeAt 0 true; probeAt 60 true; probeAt 120 false; probeAt 180 false;
           probeAt 240 true] ++ probeAt 300 true :: [probeAt 360 true])) 5
    = Some e /\ isRecovered e = true.
Proof.
  split; [reflexivity|]. split; [reflexivity|].
  destruct (recovered_on_second_up freshState
              [probeAt 0 true; probeAt 60 true; probeAt 120 false;
               probeAt 180 false; probeAt 240 true]
              [probeAt 360 true] (probeAt 300 true) eq_refl)
    as [(e & He & Hiff) _].
  exists e. split; [exact He|].
  apply Hiff. split; [reflexivity|].
  exists (probeAt 240 true). split; [reflexivity|].
  left. exists [probeAt 0 true; probeAt 60 true; probeAt 120 false], (probeAt 180 false).
  split; reflexivity.
Defined.

(** ** Cooldown of the DOWN alert *)

Example flap_within_cooldown :
  List.map isDownAlert
    (snd (handleAll teamsConfig ewsTarget freshState
            [probeAt 0 false; probeAt 60 true; probeAt 120 true;
             probeAt 299 false]))
  = [true; false].
Proof. reflexivity. Qed.

Example flap_after_cooldown :
  List.map isDownAlert
    (snd (handleAll teamsConfig ewsTarget freshState
            [probeAt 0 false; probeAt 60 true; probeAt 120 true;
             probeAt 301 false]))
  = [true; false; true].
Proof. reflexivity. Qed.

(** *** The dispatcher along a probe sequence *)

Lemma handleAll_cons (cfg : Config) (t : Target) (st : TargetState)
    (r : ProbeResult) (rs : list ProbeResult) :
  handleAll cfg t st (r :: rs)
  = (fst (handleAll cfg t (fst (handle cfg t st r)) rs),
     sent (handle cfg t st r) ++ snd (handleAll cfg t (fst (handle cfg t st r)) rs)).
Proof.
  simpl. unfold sent. destruct (handle cfg t st r) as [st1 n]. simpl.
  destruct (handleAll cfg t st1 rs) as [st2 ns]. destruct n; reflexivity.
Qed.

Lemma handleAll_app (cfg : Config) (t : Target) (st : TargetState)
    (rs rs' : list ProbeResult) :
  handleAll cfg t st (rs ++ rs')
  = (fst (handleAll cfg t (fst (handleAll cfg t st rs)) rs'),
     snd (handleAll cfg t st rs) ++
     snd (handleAll cfg t (fst (handleAll cfg t st rs)) rs')).
Proof.
  revert st. induction rs as [|r rs IH]; intros st.
  - simpl. destruct (handleAll cfg t st rs'); reflexivity.
  - rewrite <- List.app_comm_cons, !handleAll_cons, IH. simpl.
    rewrite List.app_assoc. reflexivity.
Qed.

(** The state machine emits WentDown exactly for a failed probe of a target
    that was UP, and leaves the target UP or DOWN as the probe says. *)
Lemma step_went_down (st : TargetState) (r : ProbeResult) :
  isWentDown (snd (step st r)) = isUP (current st) && negb (ok r).
Proof.
  unfold step. destruct (ok r); simpl.
  - destruct (current st); simpl; [|reflexivity].
    destruct (pendingRecovery st); [|reflexivity].
    destruct (2 <=? consecutiveUpCount st + 1); reflexivity.
  - destruct (current st); reflexivity.
Qed.

Lemma step_current (st : TargetState) (r : ProbeResult) :
  current (fst (step st r)) = if ok r then UP else DOWN.
Proof.
  unfold step. destruct (ok r); simpl; [|reflexivity].
  destruct (current st); simpl; [|reflexivity].
  destruct (pendingRecovery st); [|reflexivity].
  destruct (2 <=? consecutiveUpCount st + 1); reflexivity.
Qed.

Lemma step_keeps_alert_time (st : TargetState) (r : ProbeResult) :
  lastAlertSentAt (fst (step st r)) = lastAlertSentAt st.
Proof.
  unfold step. destruct (ok r); simpl; [|reflexivity].
  destruct (current st); simpl; [|reflexivity].
  destruct (pendingRecovery st); [|reflexivity].
  destruct (2 <=? consecutiveUpCount st + 1); reflexivity.
Qed.

Lemma step_went_down_probe (st : TargetState) (r : ProbeResult) :
  isWentDown (snd (step st r)) = true -> snd (step st r) = Some (WentDown r).
Proof.
  unfold step. destruct (ok r); simpl.
  - destruct (current st); simpl; [|discriminate].
    destruct (pendingRecovery st); [|discriminate].
    destruct (2 <=? consecutiveUpCount st + 1); discriminate.
  - destruct (current st); [reflexivity|discriminate].
Qed.

(** A probe that is no UP-to-DOWN transition sends no DOWN alert and leaves
    the time of the last DOWN alert as it was: neither the state machine nor
    [onRecovered] writes it. *)
Lemma handle_no_transition (cfg : Config) (t : Target) (st : TargetState)
    (r : ProbeResult) :
  isWentDown (snd (step st r)) = false ->
  List.filter isDownAlert (sent (handle cfg t st r)) = [] /\
  lastAlertSentAt (fst (handle cfg t st r)) = lastAlertSentAt st.
Proof.
  intros Hev. pose proof (step_keeps_alert_time st r) as Hk.
  unfold handle, sent. destruct (step st r) as [st1 ev]. simpl in *.
  destruct ev as [[r'|r']|]; [discriminate Hev| |split; [reflexivity|exact Hk]].
  unfold onRecovered. destruct (webhookUrl cfg); simpl; split;
    first [reflexivity | exact Hk].
Qed.

Lemma handle_transition (cfg : Config) (t : Target) (st : TargetState)
    (r : ProbeResult) :
  isWentDown (snd (step st r)) = true ->
  handle cfg t st r = onWentDown cfg t (timestamp r) (fst (step st r)) r.
Proof.
  intros Hev. apply step_went_down_probe in Hev.
  unfold handle. destruct (step st r) as [st1 ev]. simpl in *.
  rewrite Hev. reflexivity.
Qed.

(** A transition inside the cooldown is suppressed and the dispatcher
    leaves the state that the state machine produced. *)
Lemma handle_suppressed (cfg : Config) (t : Target) (st : TargetState)
    (r : ProbeResult) (last : Z) :
  lastAlertSentAt st = Some last ->
  timestamp r - last < cooldownOf cfg t ->
  handle cfg t st r = (fst (step st r), snd (handle cfg t st r)) /\
  List.filter isDownAlert (sent (handle cfg t st r)) = [] /\
  lastAlertSentAt (fst (handle cfg t st r)) = Some last /\
  (isWentDown (snd (step st r)) = true ->
   handle cfg t st r = (fst (step st r), None)).
Proof.
  intros Hlast Hgap.
  destruct (isWentDown (snd (step st r))) eqn:Hev.
  - rewrite (handle_transition cfg t st r Hev).
    unfold onWentDown, sent. rewrite step_keeps_alert_time, Hlast.
    destruct (Z.ltb_spec (timestamp r - last) (cooldownOf cfg t)) as [_|F]; [|lia].
    destruct (webhookUrl cfg); simpl; rewrite ?step_keeps_alert_time;
      repeat split; auto.
  - destruct (handle_no_transition cfg t st r Hev) as [Hn Hk].
    rewrite Hk. repeat split; try assumption; [|discriminate].
    unfold handle. destruct (step st r) as [st1 ev]. simpl.
    destruct ev as [[r'|r']|]; [discriminate Hev| |reflexivity].
    unfold onRecovered. destruct (webhookUrl cfg); reflexivity.
Qed.

(** A transition outside the cooldown is dispatched and its time recorded. *)
Lemma handle_dispatched (cfg : Config) (t : Target) (st : TargetState)
    (r : ProbeResult) :
  webhookUrl cfg <> None ->
  isWentDown (snd (step st r)) = true ->
  match lastAlertSentAt st with
  | Some last => cooldownOf cfg t <= timestamp r - last
  | None => True
  end ->
  sent (handle cfg t st r) = [DownAlert t r (timestamp r)] /\
  lastAlertSentAt (fst (handle cfg t st r)) = Some (timestamp r).
Proof.
  intros Hweb Hev Hfree. rewrite (handle_transition cfg t st r Hev).
  unfold onWentDown, sent. rewrite step_keeps_alert_time.
  destruct (webhookUrl cfg); [|contradiction Hweb; reflexivity].
  destruct (lastAlertSentAt st) as [last|].
  - destruct (Z.ltb_spec (timestamp r - last) (cooldownOf cfg t)) as [F|_]; [lia|].
    split; reflexivity.
  - split; reflexivity.
Qed.

(** Any probe either dispatches a DOWN alert stamped with its own time, or
    sends no DOWN alert and leaves the time of the last one. *)
Lemma handle_alert_cases (cfg : Config) (t : Target) (st : TargetState)
    (r : ProbeResult) :
  (sent (handle cfg t st r) = [DownAlert t r (timestamp r)] /\
   lastAlertSentAt (fst (handle cfg t st r)) = Some (timestamp r)) \/
  (List.filter isDownAlert (sent (handle cfg t st r)) = [] /\
   lastAlertSentAt (fst (handle cfg t st r)) = lastAlertSentAt st).
Proof.
  destruct (isWentDown (snd (step st r))) eqn:Hev;
    [|right; apply handle_no_transition; exact Hev].
  rewrite (handle_transition cfg t st r Hev).
  unfold onWentDown, sent. rewrite <- (step_keeps_alert_time st r).
  destruct (webhookUrl cfg); [|right; split; reflexivity].
  destruct (lastAlertSentAt (fst (step st r))) as [last|] eqn:El.
  - destruct (Z.ltb (timestamp r - last) (cooldownOf cfg t));
      [right; split; [reflexivity|exact El]|left; split; reflexivity].
  - left; split; reflexivity.
Qed.

Lemma handle_current (cfg : Config) (t : Target) (st : TargetState)
    (r : ProbeResult) :
  current (fst (handle cfg t st r)) = if ok r then UP else DOWN.
Proof.
  rewrite <- (step_current st r). unfold handle.
  destruct (step st r) as [st1 ev]. simpl.
  destruct ev as [[r'|r']|]; [| |reflexivity].
  - unfold onWentDown. destruct (webhookUrl cfg); [|reflexivity].
    destruct (lastAlertSentAt st1) as [last|]; [|reflexivity].
    destruct (Z.ltb (timestamp r - last) (cooldownOf cfg t)); reflexivity.
  - unfold onRecovered. destruct (webhookUrl cfg); reflexivity.
Qed.

(** The dispatcher never changes whether the target is UP: along any probe
    sequence the state it hands on is UP exactly when the state machine's
    is. *)
Lemma handleAll_current (cfg : Config) (t : Target) (rs : list ProbeResult)
    (st st' : TargetState) :
  current st = current st' ->
  current (fst (handleAll cfg t st rs)) = current (run st' rs).
Proof.
  revert st st'. induction rs as [|r rs IH]; intros st st' Hc; [exact Hc|].
  rewrite handleAll_cons. cbn [fst run]. apply IH.
  rewrite handle_current, step_current. reflexivity.
Qed.

(** While every probe comes less than the cooldown after the last DOWN
    alert, no DOWN alert is sent and that time stays. *)
Lemma handleAll_inside_cooldown (cfg : Config) (t : Target) (last : Z)
    (rs : list ProbeResult) (st : TargetState) :
  lastAlertSentAt st = Some last ->
  Forall (fun r => timestamp r - last < cooldownOf cfg t) rs ->
  List.filter isDownAlert (snd (handleAll cfg t st rs)) = [] /\
  lastAlertSentAt (fst (handleAll cfg t st rs)) = Some last.
Proof.
  revert st. induction rs as [|r rs IH]; intros st Hlast Hall.
  - split; [reflexivity|exact Hlast].
  - apply Forall_cons in Hall as [Hr Hall].
    destruct (handle_suppressed cfg t st r last Hlast Hr) as (_ & Hn & Hk & _).
    rewrite handleAll_cons. cbn [fst snd].
    destruct (IH _ Hk Hall) as [IHn IHk].
    rewrite List.filter_app, Hn, IHn. split; [reflexivity|exact IHk].
Qed.

(** Probes that all fall into a window shorter than the cooldown send at
    most one DOWN alert. *)
Lemma handleAll_window (cfg : Config) (t : Target) (lo hi : Z)
    (rs : list ProbeResult) (st : TargetState) :
  hi - lo < cooldownOf cfg t ->
  Forall (fun r => lo <= timestamp r <= hi) rs ->
  (downAlerts (snd (handleAll cfg t st rs)) <= 1)%nat.
Proof.
  intros Hwin. revert st. induction rs as [|r rs IH]; intros st Hall.
  - simpl. unfold downAlerts. simpl. lia.
  - apply Forall_cons in Hall as [Hr Hall].
    rewrite handleAll_cons. cbn [snd]. unfold downAlerts.
    rewrite List.filter_app, List.length_app.
    destruct (handle_alert_cases cfg t st r) as [[Hs Hk]|[Hn Hk]].
    + rewrite Hs.
      destruct (handleAll_inside_cooldown cfg t (timestamp r) rs _ Hk) as [Hq _].
      { apply Forall_forall. intros x Hx. rewrite Forall_forall in Hall.
        specialize (Hall x Hx). simpl in Hall. lia. }
      rewrite Hq. simpl. lia.
    + rewrite Hn. specialize (IH (fst (handle cfg t st r)) Hall).
      unfold downAlerts in IH. simpl. lia.
Qed.

(** Probes without an UP-to-DOWN transition send no DOWN alert and keep the
    time of the last one. *)
Lemma handleAll_no_transition (cfg : Config) (t : Target)
    (rs : list ProbeResult) (st st' : TargetState) :
  current st = current st' ->
  Forall (fun e => isWentDown e = false) (events st' rs) ->
  List.filter isDownAlert (snd (handleAll cfg t st rs)) = [] /\
  lastAlertSentAt (fst (handleAll cfg t st rs)) = lastAlertSentAt st.
Proof.
  revert st st'. induction rs as [|r rs IH]; intros st st' Hc Hall.
  - split; reflexivity.
  - cbn [events] in Hall. apply Forall_cons in Hall as [Hr Hall].
    assert (Hev : isWentDown (snd (step st r)) = false).
    { rewrite step_went_down, Hc, <- step_went_down. exact Hr. }
    destruct (handle_no_transition cfg t st r Hev) as [Hn Hk].
    rewrite handleAll_cons. cbn [fst snd].
    destruct (IH (fst (handle cfg t st r)) (fst (step st' r))) as [IHn IHk];
      [rewrite handle_current, step_current; reflexivity|exact Hall|].
    rewrite List.filter_app, Hn, IHn, IHk. split; [reflexivity|exact Hk].
Qed.

(** C2. With a webhook configured and a cooldown of 300 s for the target,
    take any probe sequence in which [r1] and, after the probes [mid], [r2]
    are UP-to-DOWN transitions of the state machine, and run it through the
    state machine and the dispatcher. When the probes in between are
    stamped between the two transitions and these are less than 300 s apart,
    at most one DOWN notification is dispatched for the whole sequence, and
    when the first transition was notified the second is suppressed, the
    dispatcher leaving the state as the state machine produced it. When the
    first transition is notified and the next transition comes 301 s later
    (any gap of 300 s or more), exactly two DOWN notifications are
    dispatched, one for each. The UP probes and the recovery in between do
    not touch the time of the last DOWN alert. *)
Theorem down_alert_cooldown
    (cfg : Config) (t : Target) (st : TargetState)
    (r1 r2 : ProbeResult) (mid : list ProbeResult) :
  webhookUrl cfg <> None ->
  cooldownOf cfg t = 300 ->
  isWentDown (snd (step st r1)) = true ->
  isWentDown (snd (step (run st (r1 :: mid)) r2)) = true ->
  let t1 := timestamp r1 in
  let t2 := timestamp r2 in
  let before := handleAll cfg t st (r1 :: mid) in
  let whole := handleAll cfg t st (r1 :: mid ++ [r2]) in
  (Forall (fun m => t1 <= timestamp m <= t2) mid -> t2 - t1 < 300 ->
     (downAlerts (snd whole) <= 1)%nat /\
     (snd (handle cfg t st r1) <> None ->
        handle cfg t (fst before) r2 = (fst (step (fst before) r2), None) /\
        List.filter isDownAlert (snd whole) = [DownAlert t r1 t1] /\
        lastAlertSentAt (fst whole) = Some t1)) /\
  (notThrottled st t1 ->
   Forall (fun e => isWentDown e = false) (events (fst (step st r1)) mid) ->
   300 <= t2 - t1 ->
     List.filter isDownAlert (snd whole)
     = [DownAlert t r1 t1; DownAlert t r2 t2] /\
     lastAlertSentAt (fst before) = Some t1 /\
     lastAlertSentAt (fst whole) = Some t2).
Proof.
  intros Hweb Hcool Hd1 Hd2. cbv zeta.
  assert (Hd2' : isWentDown
                   (snd (step (fst (handleAll cfg t st (r1 :: mid))) r2)) = true).
  { rewrite step_went_down in Hd2 |- *.
    rewrite (handleAll_current cfg t (r1 :: mid) st st eq_refl). exact Hd2. }
  assert (Hwhole : handleAll cfg t st (r1 :: mid ++ [r2])
                   = (fst (handle cfg t (fst (handleAll cfg t st (r1 :: mid))) r2),
                      snd (handleAll cfg t st (r1 :: mid)) ++
                      sent (handle cfg t (fst (handleAll cfg t st (r1 :: mid))) r2))).
  { rewrite List.app_comm_cons, handleAll_app. cbn [fst snd].
    rewrite handleAll_cons. cbn [handleAll fst snd].
    rewrite List.app_nil_r. reflexivity. }
  split.
  - intros Hmid Hgap.
    assert (Hne : mid <> []).
    { intros ->. simpl in Hd2. rewrite step_went_down, step_current in Hd2.
      rewrite step_went_down in Hd1. apply andb_prop in Hd1 as [_ Hok].
      apply negb_true_iff in Hok. rewrite Hok in Hd2. discriminate Hd2. }
    assert (Hle : timestamp r1 <= timestamp r2).
    { destruct mid as [|m mid']; [contradiction Hne; reflexivity|].
      apply Forall_cons in Hmid as [Hm _]. simpl in Hm. lia. }
    split.
    + apply (handleAll_window cfg t (timestamp r1) (timestamp r2));
        [lia|].
      apply Forall_cons. split; [lia|].
      apply Forall_app. split; [exact Hmid|].
      apply Forall_cons. split; [lia|apply Forall_nil; exact I].
    + intros Hsent.
      assert (Hfree : match lastAlertSentAt st with
                      | Some last => cooldownOf cfg t <= timestamp r1 - last
                      | None => True
                      end).
      { destruct (lastAlertSentAt st) as [last|] eqn:El; [|exact I].
        destruct (Z.le_gt_cases (cooldownOf cfg t) (timestamp r1 - last))
          as [L|L]; [exact L|].
        destruct (handle_suppressed cfg t st r1 last El) as (_ & _ & _ & Hs);
          [lia|].
        rewrite (Hs Hd1) in Hsent. contradiction Hsent. reflexivity. }
      destruct (handle_dispatched cfg t st r1 Hweb Hd1 Hfree) as [Hs1 Hk1].
      destruct (handleAll_inside_cooldown cfg t (timestamp r1) mid
                  (fst (handle cfg t st r1)) Hk1) as [Hq Hk].
      { apply Forall_forall. intros x Hx. rewrite Forall_forall in Hmid.
        specialize (Hmid x Hx). simpl in Hmid. lia. }
      assert (Hbefore : lastAlertSentAt (fst (handleAll cfg t st (r1 :: mid)))
                        = Some (timestamp r1)).
      { rewrite handleAll_cons. exact Hk. }
      destruct (handle_suppressed cfg t _ r2 (timestamp r1) Hbefore)
        as (_ & Hn2 & Hk2 & Hs2); [lia|].
      split; [exact (Hs2 Hd2')|].
      rewrite Hwhole. cbn [fst snd]. split; [|exact Hk2].
      rewrite List.filter_app, Hn2, handleAll_cons. cbn [snd].
      rewrite List.filter_app, Hs1, Hq. reflexivity.
  - intros Hfresh Hquiet Hgap.
    assert (Hfree : match lastAlertSentAt st with
                    | Some last => cooldownOf cfg t <= timestamp r1 - last
                    | None => True
                    end).
    { unfold notThrottled in Hfresh. rewrite Hcool.
      destruct (lastAlertSentAt st); exact Hfresh. }
    destruct (handle_dispatched cfg t st r1 Hweb Hd1 Hfree) as [Hs1 Hk1].
    destruct (handleAll_no_transition cfg t mid (fst (handle cfg t st r1))
                (fst (step st r1))) as [Hq Hk];
      [rewrite handle_current, step_current; reflexivity|exact Hquiet|].
    assert (Hbefore : lastAlertSentAt (fst (handleAll cfg t st (r1 :: mid)))
                      = Some (timestamp r1)).
    { rewrite handleAll_cons. cbn [fst]. rewrite Hk. exact Hk1. }
    destruct (handle_dispatched cfg t _ r2 Hweb Hd2') as [Hs2 Hk2].
    { rewrite Hbefore, Hcool. exact Hgap. }
    rewrite Hwhole. cbn [fst snd].
    split; [|split; [exact Hbefore|exact Hk2]].
    rewrite List.filter_app, Hs2, handleAll_cons. cbn [snd].
    rewrite List.filter_app, Hs1, Hq. reflexivity.
Qed.

Lemma down_alert_cooldown_witness :
  (downAlerts
     (snd (handleAll teamsConfig ewsTarget freshState
             (probeAt 1000 false ::
              [probeAt 1060 true; probeAt 1120 true] ++ [probeAt 1299 false])))
   <= 1)%nat /\
  List.filter isDownAlert
    (snd (handleAll teamsConfig ewsTarget freshState
            (probeAt 1000 false ::
             [probeAt 1060 true; probeAt 1120 true] ++ [probeAt 1301 false])))
  = [DownAlert ewsTarget (probeAt 1000 false) 1000;
     DownAlert ewsTarget (probeAt 1301 false) 1301].
Proof.
  assert (Hweb : webhookUrl teamsConfig <> None) by discriminate.
  assert (Hcool : cooldownOf teamsConfig ewsTarget = 300) by reflexivity.
  pose proof (down_alert_cooldown teamsConfig ewsTarget freshState
                (probeAt 1000 false) (probeAt 1299 false)
                [probeAt 1060 true; probeAt 1120 true]
                Hweb Hcool eq_refl eq_refl)
    as [Hnear _].
  pose proof (down_alert_cooldown teamsConfig ewsTarget freshState
                (probeAt 1000 false) (probeAt 1301 false)
                [probeAt 1060 true; probeAt 1120 true]
                Hweb Hcool eq_refl eq_refl)
    as [_ Hfar].
  split.
  - apply Hnear; [|reflexivity].
    repeat constructor; simpl; lia.
  - apply Hfar; [exact I| |simpl; lia].
    repeat constructor.
Defined.

End EngineFacts.

(* ===================================================================== *)
(** * Part III. Further properties of the dashboard code                  *)
(* ===================================================================== *)

(** ** Stored preferences *)

Lemma getItem_setItem (ls ls' : LocalStorage) (k v k' : string) :
  setItem ls k v = Some ls' ->
  getItem ls' k' = if readable ls then Some (if String.eqb k' k then Some v
                                             else entries ls !! k')
                   else None.
Proof.
  unfold setItem, getItem. destruct (writable ls); [|discriminate].
  intros E. injection E as <-. simpl.
  destruct (readable ls); [|reflexivity]. f_equal.
  destruct (String.eqb_spec k' k) as [->|Hne].
  - apply lookup_insert_eq.
  - apply lookup_insert_ne. congruence.
Qed.

Lemma setItem_working (ls : LocalStorage) (k v : string) :
  workingStorage ls -> exists ls', setItem ls k v = Some ls' /\ workingStorage ls'.
Proof.
  intros [Hr Hw]. unfold setItem. rewrite Hw. eexists. split; [reflexivity|].
  unfold workingStorage. simpl. split; auto.
Qed.

(** X1. Whatever the storage holds, and also when it throws, the stored
    filter read back is "prod", "uat" or "all" and the stored theme is "dark"
    or "light"; a storage that cannot be read gives "all", "light", a
    closed incident history and a closed timeline for every incident. *)
Theorem stored_preferences_valid `{JsBuiltins} (ls : LocalStorage) :
  (getStoredFilter ls = "prod" \/ getStoredFilter ls = "uat" \/
   getStoredFilter ls = "all") /\
  (getStoredTheme ls = "dark" \/ getStoredTheme ls = "light") /\
  (forall v, entries ls !! STORAGE_KEY_FILTER = Some v ->
     v <> "prod" -> v <> "uat" -> getStoredFilter ls = "all") /\
  (forall v, entries ls !! STORAGE_KEY_THEME = Some v ->
     v <> "dark" -> getStoredTheme ls = "light") /\
  (readable ls = false ->
     getStoredFilter ls = "all" /\ getStoredTheme ls = "light" /\
     getIncidentHistoryOpen ls = false /\
     forall id, getIncidentTimelineOpen ls id = false).
Proof.
  unfold getStoredFilter, getStoredTheme, getIncidentHistoryOpen,
    getIncidentTimelineOpen, getItem.
  split; [|split; [|split; [|split]]].
  - destruct (readable ls); [|tauto].
    destruct (entries ls !! STORAGE_KEY_FILTER) as [v|]; [|tauto].
    destruct (String.eqb_spec v "prod") as [->|_]; [tauto|].
    destruct (String.eqb_spec v "uat") as [->|_]; [tauto|].
    destruct (String.eqb_spec v "all") as [->|_]; tauto.
  - destruct (readable ls); [|tauto].
    destruct (entries ls !! STORAGE_KEY_THEME) as [v|]; [|tauto].
    destruct (String.eqb_spec v "dark") as [->|_]; [tauto|].
    destruct (String.eqb_spec v "light") as [->|_]; tauto.
  - intros v Hv Hp Hu. rewrite Hv. destruct (readable ls); [|reflexivity].
    destruct (String.eqb_spec v "prod") as [E|_]; [congruence|].
    destruct (String.eqb_spec v "uat") as [E|_]; [congruence|].
    destruct (String.eqb_spec v "all") as [->|_]; reflexivity.
  - intros v Hv Hd. rewrite Hv. destruct (readable ls); [|reflexivity].
    destruct (String.eqb_spec v "dark") as [E|_]; [congruence|].
    destruct (String.eqb_spec v "light") as [->|_]; reflexivity.
  - intros Hr. rewrite Hr. repeat split; reflexivity.
Qed.

(** X2. With a storage that can be read and written, a filter or theme that
    is stored is read back when it is one of the accepted values and is
    replaced by the default otherwise, and the incident history flag is read
    back as it was stored. *)
Theorem stored_preferences_round_trip
    (ls : LocalStorage) (env theme : string) (open : bool) :
  workingStorage ls ->
  getStoredFilter (setStoredFilter ls env)
  = (if String.eqb env "prod" || String.eqb env "uat" || String.eqb env "all"
     then env else "all") /\
  getStoredTheme (setStoredTheme ls theme)
  = (if String.eqb theme "dark" || String.eqb theme "light"
     then theme else "light") /\
  getIncidentHistoryOpen (setIncidentHistoryOpen ls open) = open.
Proof.
  intros Hw. pose proof Hw as [Hr _].
  unfold getStoredFilter, setStoredFilter, getStoredTheme, setStoredTheme,
    getIncidentHistoryOpen, setIncidentHistoryOpen.
  split; [|split].
  - destruct (setItem_working ls STORAGE_KEY_FILTER env Hw) as (ls' & E & _).
    rewrite E, (getItem_setItem _ _ _ _ _ E), Hr, String.eqb_refl. reflexivity.
  - destruct (setItem_working ls STORAGE_KEY_THEME theme Hw) as (ls' & E & _).
    rewrite E, (getItem_setItem _ _ _ _ _ E), Hr, String.eqb_refl. reflexivity.
  - destruct (setItem_working ls STORAGE_KEY_INCIDENT_HISTORY_OPEN
                (if open then "true" else "false") Hw) as (ls' & E & _).
    rewrite E, (getItem_setItem _ _ _ _ _ E), Hr, String.eqb_refl.
    destruct open; reflexivity.
Qed.

Lemma stored_preferences_round_trip_witness :
  workingStorage emptyStorage /\
  getStoredFilter (setStoredFilter emptyStorage "uat") = "uat" /\
  getStoredFilter (setStoredFilter emptyStorage "staging") = "all" /\
  getStoredTheme (setStoredTheme emptyStorage "dark") = "dark".
Proof.
  assert (Hw : workingStorage emptyStorage) by (split; reflexivity).
  split; [exact Hw|].
  split; [apply (stored_preferences_round_trip emptyStorage "uat" "dark" true Hw)|].
  split; [apply (stored_preferences_round_trip emptyStorage "staging" "dark" true Hw)|].
  apply (stored_preferences_round_trip emptyStorage "uat" "dark" true Hw).
Defined.

Lemma getItem_set_other (ls : LocalStorage) (k v k' : string) :
  k' <> k ->
  getItem (match setItem ls k v with Some ls' => ls' | None => ls end) k'
  = getItem ls k'.
Proof.
  intros Hne. destruct (setItem ls k v) as [ls'|] eqn:E; [|reflexivity].
  rewrite (getItem_setItem _ _ _ _ _ E). unfold getItem.
  destruct (String.eqb_spec k' k) as [F|_]; [contradiction|]. reflexivity.
Qed.

Section PreferenceFacts.
Context `{JsBuiltins}.

Lemma incidentTimelineKey_fresh (id : value) :
  incidentTimelineKey id <> STORAGE_KEY_FILTER /\
  incidentTimelineKey id <> STORAGE_KEY_THEME /\
  incidentTimelineKey id <> STORAGE_KEY_INCIDENT_HISTORY_OPEN.
Proof.
  unfold incidentTimelineKey.
  cbv [String.append STORAGE_KEY_INCIDENT_TIMELINE_OPEN STORAGE_KEY_FILTER
       STORAGE_KEY_THEME STORAGE_KEY_INCIDENT_HISTORY_OPEN].
  repeat split; discriminate.
Qed.

Lemma incidentTimelineKey_inj (id id' : value) :
  incidentTimelineKey id = incidentTimelineKey id' -> ToString id = ToString id'.
Proof. unfold incidentTimelineKey. apply String.app_inj. Qed.

(** X3. With a storage that can be read and written, the open state stored
    for an incident's timeline is read back for that incident, and the state
    of every incident whose id prints differently stays as it was. *)
Theorem incident_timeline_round_trip
    (ls : LocalStorage) (id : value) (open : bool) :
  workingStorage ls ->
  getIncidentTimelineOpen (setIncidentTimelineOpen ls id open) id = open /\
  (forall id', ToString id' <> ToString id ->
     getIncidentTimelineOpen (setIncidentTimelineOpen ls id open) id'
     = getIncidentTimelineOpen ls id').
Proof.
  intros Hw. pose proof Hw as [Hr _].
  unfold getIncidentTimelineOpen, setIncidentTimelineOpen. split.
  - destruct (setItem_working ls (incidentTimelineKey id)
                (if open then "true" else "false") Hw) as (ls' & E & _).
    rewrite E, (getItem_setItem _ _ _ _ _ E), Hr, String.eqb_refl.
    destruct open; reflexivity.
  - intros id' Hne. rewrite getItem_set_other; [reflexivity|].
    intros E. apply Hne. apply incidentTimelineKey_inj. exact E.
Qed.

(** X4. The four kinds of stored preference do not touch each other, in
    every state of the storage: storing the filter, the theme, the history
    flag or an incident's timeline flag leaves what the other three read. *)
Theorem stored_preferences_independent
    (ls : LocalStorage) (env theme : string) (id id' : value) (open : bool) :
  (getStoredTheme (setStoredFilter ls env) = getStoredTheme ls /\
   getIncidentHistoryOpen (setStoredFilter ls env) = getIncidentHistoryOpen ls /\
   getIncidentTimelineOpen (setStoredFilter ls env) id
   = getIncidentTimelineOpen ls id) /\
  (getStoredFilter (setStoredTheme ls theme) = getStoredFilter ls /\
   getIncidentHistoryOpen (setStoredTheme ls theme) = getIncidentHistoryOpen ls /\
   getIncidentTimelineOpen (setStoredTheme ls theme) id
   = getIncidentTimelineOpen ls id) /\
  (getStoredFilter (setIncidentHistoryOpen ls open) = getStoredFilter ls /\
   getStoredTheme (setIncidentHistoryOpen ls open) = getStoredTheme ls /\
   getIncidentTimelineOpen (setIncidentHistoryOpen ls open) id
   = getIncidentTimelineOpen ls id) /\
  (getStoredFilter (setIncidentTimelineOpen ls id' open) = getStoredFilter ls /\
   getStoredTheme (setIncidentTimelineOpen ls id' open) = getStoredTheme ls /\
   getIncidentHistoryOpen (setIncidentTimelineOpen ls id' open)
   = getIncidentHistoryOpen ls).
Proof.
  destruct (incidentTimelineKey_fresh id) as (Kf & Kt & Kh).
  destruct (incidentTimelineKey_fresh id') as (Kf' & Kt' & Kh').
  unfold getStoredFilter, getStoredTheme, getIncidentHistoryOpen,
    getIncidentTimelineOpen, setStoredFilter, setStoredTheme,
    setIncidentHistoryOpen, setIncidentTimelineOpen.
  repeat split; rewrite getItem_set_other; try reflexivity;
    try discriminate; try assumption; try (intros E; symmetry in E; contradiction).
Qed.
End PreferenceFacts.

Lemma incident_timeline_round_trip_witness :
  workingStorage emptyStorage /\
  @getIncidentTimelineOpen plainBuiltins
    (@setIncidentTimelineOpen plainBuiltins emptyStorage (VStr "42") true)
    (VStr "42") = true /\
  @getIncidentTimelineOpen plainBuiltins
    (@setIncidentTimelineOpen plainBuiltins emptyStorage (VStr "42") true)
    (VStr "7") = false.
Proof.
  assert (Hw : workingStorage emptyStorage) by (split; reflexivity).
  split; [exact Hw|].
  destruct (@incident_timeline_round_trip plainBuiltins emptyStorage
              (VStr "42") true Hw) as [Hsame Hother].
  split; [exact Hsame|].
  rewrite (Hother (VStr "7")); [reflexivity|discriminate].
Defined.

(** ** The theme toggle *)

Lemma getStoredTheme_set (ls : LocalStorage) (theme : string) :
  workingStorage ls ->
  getStoredTheme (setStoredTheme ls theme)
  = (if String.eqb theme "dark" || String.eqb theme "light"
     then theme else "light") /\
  workingStorage (setStoredTheme ls theme).
Proof.
  intros Hw. pose proof Hw as [Hr _]. unfold getStoredTheme, setStoredTheme.
  destruct (setItem_working ls STORAGE_KEY_THEME theme Hw) as (ls' & E & Hw').
  rewrite E, (getItem_setItem _ _ _ _ _ E), Hr, String.eqb_refl.
  split; [reflexivity|exact Hw'].
Qed.

Lemma themeToggleClick_cases (pg : Page) :
  (datasetTheme (themeToggleClick pg) = Some "dark" /\
   ariaLabel (themeToggleClick pg) = Some "Switch to dark mode" /\
   storage (themeToggleClick pg) = setStoredTheme (storage pg) "dark") \/
  (datasetTheme (themeToggleClick pg) = Some "light" /\
   ariaLabel (themeToggleClick pg) = Some "Switch to light mode" /\
   storage (themeToggleClick pg) = setStoredTheme (storage pg) "light").
Proof.
  unfold themeToggleClick, applyTheme. simpl.
  destruct (datasetTheme pg) as [t|]; [|left; repeat split; reflexivity].
  destruct (String.eqb t "dark"); [right|left]; repeat split; reflexivity.
Qed.

(** X5. A click on the theme toggle sets the page theme to "light" when it
    was "dark" and to "dark" otherwise; from the first click on, clicking is
    an involution of the page theme; with a working storage the stored theme
    follows the page theme, and with a storage that cannot be written the
    stored theme stays as it was. *)
Theorem themeToggleClick_theme (pg : Page) :
  let pg' := themeToggleClick pg in
  (datasetTheme pg = Some "dark" -> datasetTheme pg' = Some "light") /\
  (datasetTheme pg <> Some "dark" -> datasetTheme pg' = Some "dark") /\
  datasetTheme (themeToggleClick (themeToggleClick pg')) = datasetTheme pg' /\
  (workingStorage (storage pg) ->
     Some (getStoredTheme (storage pg')) = datasetTheme pg' /\
     workingStorage (storage pg')) /\
  (writable (storage pg) = false -> storage pg' = storage pg).
Proof.
  cbv zeta. unfold themeToggleClick, applyTheme. simpl.
  split; [|split; [|split; [|split]]].
  - intros ->. reflexivity.
  - intros Hne. destruct (datasetTheme pg) as [t|]; [|reflexivity].
    destruct (String.eqb_spec t "dark") as [->|_]; [contradiction Hne|]; reflexivity.
  - destruct (datasetTheme pg) as [t|]; [|reflexivity].
    destruct (String.eqb t "dark"); reflexivity.
  - intros Hw.
    set (next := match datasetTheme pg with
                 | Some t => if String.eqb t "dark" then "light" else "dark"
                 | None => "dark"
                 end).
    assert (Hnext : next = "dark" \/ next = "light").
    { unfold next. destruct (datasetTheme pg) as [t|]; [|tauto].
      destruct (String.eqb t "dark"); tauto. }
    destruct (getStoredTheme_set (storage pg) next Hw) as [Ht Hw'].
    rewrite Ht. split; [|exact Hw'].
    destruct Hnext as [-> | ->]; reflexivity.
  - intros Hw. unfold setStoredTheme, setItem. rewrite Hw. reflexivity.
Qed.

(** X6. After a click, with a working storage, the label of the toggle names
    the theme that was just applied ("Switch to dark mode" on a dark page),
    while [initThemeToggle] on the same page names the other theme; the two
    labels differ. *)
Theorem themeToggle_labels (pg : Page) :
  workingStorage (storage pg) ->
  let pg' := themeToggleClick pg in
  (datasetTheme pg' = Some "dark" ->
     ariaLabel pg' = Some "Switch to dark mode" /\
     ariaLabel (initThemeToggle pg') = Some "Switch to light mode") /\
  (datasetTheme pg' = Some "light" ->
     ariaLabel pg' = Some "Switch to light mode" /\
     ariaLabel (initThemeToggle pg') = Some "Switch to dark mode") /\
  ariaLabel (initThemeToggle pg') <> ariaLabel pg'.
Proof.
  intros Hw. cbv zeta.
  assert (Hinit : forall p, ariaLabel (initThemeToggle p)
            = Some (if String.eqb (getStoredTheme (storage p)) "dark"
                    then "Switch to light mode" else "Switch to dark mode"))
    by reflexivity.
  rewrite Hinit.
  destruct (themeToggleClick_cases pg) as [(Hd & Hl & Hs) | (Hd & Hl & Hs)];
    rewrite Hd, Hl, Hs.
  - destruct (getStoredTheme_set (storage pg) "dark" Hw) as [-> _].
    simpl. repeat split; try discriminate; reflexivity.
  - destruct (getStoredTheme_set (storage pg) "light" Hw) as [-> _].
    simpl. repeat split; try discriminate; reflexivity.
Qed.

Lemma themeToggle_labels_witness :
  workingStorage (storage freshPage) /\
  ariaLabel (themeToggleClick freshPage) = Some "Switch to dark mode" /\
  ariaLabel (initThemeToggle (themeToggleClick freshPage))
  = Some "Switch to light mode".
Proof.
  assert (Hw : workingStorage (storage freshPage)) by (split; reflexivity).
  split; [exact Hw|].
  apply (themeToggle_labels freshPage Hw). reflexivity.
Defined.

(** ** Reading a property under several names *)

Lemma pick_undefined (obj : object) (keys : list string) :
  pick obj keys = VUndefined <-> Forall (fun k => prop obj k = VUndefined) keys.
Proof.
  induction keys as [|k keys IH]; simpl.
  - split; [constructor|reflexivity].
  - rewrite Forall_cons. unfold prop at 1.
    destruct (obj !! k) as [v|]; [destruct v|]; rewrite ?IH;
      split; try tauto; try discriminate; intros [F _]; discriminate F.
Qed.

Lemma pick_app (obj : object) (ks1 ks2 : list string) :
  pick obj (ks1 ++ ks2)
  = match pick obj ks1 with
    | VUndefined => pick obj ks2
    | v => v
    end.
Proof.
  induction ks1 as [|k ks1 IH]; simpl; [reflexivity|].
  destruct (obj !! k) as [v|]; [destruct v|]; try reflexivity; exact IH.
Qed.

(** X7. [pick] answers with the first name of the list that the object
    defines: it is undefined exactly when none of the names is defined,
    names appended to the list are consulted only when the earlier ones give
    nothing, and a defined answer is the property of a name before which
    every name is undefined. *)
Theorem pick_first_defined_name (obj : object) (keys more : list string) :
  (pick obj keys = VUndefined <->
     Forall (fun k => prop obj k = VUndefined) keys) /\
  pick obj (keys ++ more)
  = (match pick obj keys with
     | VUndefined => pick obj more
     | v => v
     end) /\
  (pick obj keys <> VUndefined ->
     exists before k after,
       keys = before ++ k :: after /\
       Forall (fun k' => prop obj k' = VUndefined) before /\
       prop obj k = pick obj keys).
Proof.
  split; [apply pick_undefined|]. split; [apply pick_app|].
  induction keys as [|k keys IH]; simpl; [intros F; contradiction F; reflexivity|].
  intros Hdef.
  destruct (obj !! k) as [v|] eqn:E.
  - destruct v;
      try (exists [], k, keys; split; [reflexivity|]; split; [constructor|];
           unfold prop; rewrite E; reflexivity).
    destruct (IH Hdef) as (before & k' & after & -> & Hb & Hk).
    exists (k :: before), k', after. split; [reflexivity|].
    split; [|exact Hk]. constructor; [|exact Hb]. unfold prop. rewrite E. reflexivity.
  - destruct (IH Hdef) as (before & k' & after & -> & Hb & Hk).
    exists (k :: before), k', after. split; [reflexivity|].
    split; [|exact Hk]. constructor; [|exact Hb]. unfold prop. rewrite E. reflexivity.
Qed.

(** ** The counters and the rows *)

Section RowFacts.
Context `{JsBuiltins}.

Lemma statsUp_rank (item : object) :
  statsUp item = true ->
  truthy (pick item ["is_up"; "ok"; "up"; "status_up"]) = true.
Proof.
  unfold statsUp.
  change ["is_up"; "ok"; "up"; "status_up"] with (["is_up"; "ok"; "up"] ++ ["status_up"]).
  rewrite pick_app. destruct (pick item ["is_up"; "ok"; "up"]); try discriminate;
    intros E; exact E.
Qed.

Lemma rank_without_status_up (item : object) :
  prop item "status_up" = VUndefined ->
  truthy (pick item ["is_up"; "ok"; "up"; "status_up"]) = statsUp item.
Proof.
  intros Hs. unfold statsUp.
  change ["is_up"; "ok"; "up"; "status_up"] with (["is_up"; "ok"; "up"] ++ ["status_up"]).
  rewrite pick_app. destruct (pick item ["is_up"; "ok"; "up"]) eqn:E; try reflexivity.
  simpl. unfold prop in Hs. destruct (item !! "status_up") as [v|]; [|reflexivity].
  subst v. reflexivity.
Qed.

(** X8. Every item that the counters count as up is shown with the UP badge
    and sorts as up (rank 1 or 2), and every item counted as degraded has the
    degraded rank 1, so [upCount] and [degradedCount] never exceed the
    numbers of such rows; for items without a [status_up] property the
    counters and the rows agree exactly. *)
Theorem counters_agree_with_rows (items : list object) :
  let s := computeTopStats items in
  Forall (fun it =>
            (statsUp it = true ->
               label (rowStatus it) = "UP" /\ getStatusRank it <> 0) /\
            (statsDegraded it = true -> getStatusRank it = 1)) items /\
  upCount s <= Z.of_nat (length (List.filter
                 (fun it => String.eqb (label (rowStatus it)) "UP") items)) /\
  degradedCount s <= Z.of_nat (length (rowsOfRank 1 items)) /\
  (Forall (fun it => prop it "status_up" = VUndefined) items ->
     upCount s = Z.of_nat (length (List.filter
                   (fun it => String.eqb (label (rowStatus it)) "UP") items)) /\
     degradedCount s = Z.of_nat (length (rowsOfRank 1 items)) /\
     downCount s = Z.of_nat (length (rowsOfRank 0 items))).
Proof.
  cbv zeta.
  assert (Hbadge : forall it, String.eqb (label (rowStatus it)) "UP"
                     = truthy (pick it ["is_up"; "ok"; "up"; "status_up"])).
  { intros it. unfold rowStatus, statusBadge. rewrite truthy_nullish_false.
    destruct (truthy _); reflexivity. }
  assert (Hrank1 : forall it, Z.eqb (getStatusRank it) 1
                     = truthy (pick it ["is_up"; "ok"; "up"; "status_up"])
                       && number_ge (ToNumber (pick it ["last_ms"; "duration_ms"; "ms"]))
                                    DEGRADED_MS).
  { intros it. rewrite getStatusRank_cases.
    destruct (truthy _); [destruct (number_ge _ _)|]; reflexivity. }
  assert (Hrank0 : forall it, Z.eqb (getStatusRank it) 0
                     = negb (truthy (pick it ["is_up"; "ok"; "up"; "status_up"]))).
  { intros it. rewrite getStatusRank_cases.
    destruct (truthy _); [destruct (number_ge _ _)|]; reflexivity. }
  assert (Hitem : forall it,
            (statsUp it = true ->
               label (rowStatus it) = "UP" /\ getStatusRank it <> 0) /\
            (statsDegraded it = true -> getStatusRank it = 1)).
  { intros it. split.
    - intros Hup. apply statsUp_rank in Hup. split.
      + apply String.eqb_eq. rewrite Hbadge. exact Hup.
      + intros E. apply Z.eqb_eq in E. rewrite Hrank0, Hup in E. discriminate E.
    - intros Hd. rewrite statsDegraded_cases in Hd.
      apply andb_prop in Hd as [Hup Hge]. apply statsUp_rank in Hup.
      apply Z.eqb_eq. rewrite Hrank1, Hup, Hge. reflexivity. }
  split; [apply Forall_forall; intros it _; apply Hitem|].
  split; [|split].
  - unfold computeTopStats; cbn [upCount degradedCount downCount svcCount].
    apply inj_le, filter_length_mono. intros it Hup.
    rewrite Hbadge. apply statsUp_rank. exact Hup.
  - unfold computeTopStats; cbn [upCount degradedCount downCount svcCount].
    unfold rowsOfRank. apply inj_le, filter_length_mono. intros it Hd.
    apply Z.eqb_eq. apply Hitem. exact Hd.
  - intros Hall. unfold computeTopStats; cbn [upCount degradedCount downCount svcCount].
    unfold rowsOfRank.
    assert (Hup : List.filter (fun it => String.eqb (label (rowStatus it)) "UP") items
                  = List.filter statsUp items).
    { apply List.filter_ext_in. intros it Hin. rewrite Hbadge.
      apply rank_without_status_up.
      rewrite Forall_forall in Hall. apply Hall, list_elem_of_In, Hin. }
    assert (Hdeg : List.filter (fun it => Z.eqb (getStatusRank it) 1) items
                   = List.filter statsDegraded items).
    { apply List.filter_ext_in. intros it Hin. rewrite Hrank1, statsDegraded_cases.
      rewrite rank_without_status_up; [reflexivity|].
      rewrite Forall_forall in Hall. apply Hall, list_elem_of_In, Hin. }
    assert (Hdown : List.filter (fun it => Z.eqb (getStatusRank it) 0) items
                    = List.filter (fun it => negb (statsUp it)) items).
    { apply List.filter_ext_in. intros it Hin. rewrite Hrank0.
      rewrite rank_without_status_up; [reflexivity|].
      rewrite Forall_forall in Hall. apply Hall, list_elem_of_In, Hin. }
    rewrite Hup, Hdeg, Hdown.
    pose proof (filter_length_split statsUp items) as Hs.
    repeat split; lia.
Qed.
End RowFacts.

(** ** Sorting the table *)

Lemma insertSorted_front {A : Type} (cmp : A -> A -> Q) (x : A) (l : list A) :
  Forall (fun y => Qle_bool (cmp x y) 0 = true) l ->
  insertSorted cmp x l = x :: l.
Proof.
  destruct l as [|y l]; [reflexivity|]. intros Hall.
  apply Forall_cons in Hall as [Hy _]. simpl. rewrite Hy. reflexivity.
Qed.

Lemma insertSorted_skip {A : Type} (cmp : A -> A -> Q) (x : A) (l1 l2 : list A) :
  Forall (fun y => Qle_bool (cmp x y) 0 = false) l1 ->
  insertSorted cmp x (l1 ++ l2) = l1 ++ insertSorted cmp x l2.
Proof.
  induction l1 as [|y l1 IH]; intros Hall; [reflexivity|].
  apply Forall_cons in Hall as [Hy Hall]. simpl. rewrite Hy, IH by exact Hall.
  reflexivity.
Qed.

Lemma jsSort_all_equal {A : Type} (cmp : A -> A -> Q) (l : list A) :
  (forall x y, Qle_bool (cmp x y) 0 = true) -> jsSort cmp l = l.
Proof.
  intros Hc. induction l as [|x l IH]; simpl; [reflexivity|].
  rewrite IH. apply insertSorted_front. apply Forall_forall. intros y _. apply Hc.
Qed.

Lemma jsSort_sorted_rel {A : Type} (cmp : A -> A -> Q) (R : A -> A -> Prop)
    (l : list A) :
  (forall x y, Qle_bool (cmp x y) 0 = true -> R x y) ->
  (forall x y, Qle_bool (cmp x y) 0 = false -> R y x) ->
  (forall x y z, R x y -> R y z -> R x z) ->
  StronglySorted R (jsSort cmp l).
Proof.
  intros Hle Htot Htrans.
  assert (Hins : forall x s, StronglySorted R s ->
                             StronglySorted R (insertSorted cmp x s)).
  { intros x s. induction s as [|y s IH]; intros Hs; simpl.
    - constructor; constructor.
    - destruct (Qle_bool (cmp x y) 0) eqn:E.
      + constructor; [exact Hs|]. constructor; [apply Hle; exact E|].
        apply StronglySorted_inv in Hs as [_ Hall].
        eapply List.Forall_impl; [|exact Hall].
        intros z Hz. eapply Htrans; [apply Hle; exact E|exact Hz].
      + apply StronglySorted_inv in Hs as [Hs Hall].
        constructor; [apply IH; exact Hs|].
        apply List.Forall_forall. intros z Hz.
        apply (Permutation_in _ (insertSorted_Permutation cmp x s)) in Hz.
        destruct Hz as [<-|Hz]; [apply Htot; exact E|].
        rewrite List.Forall_forall in Hall. apply Hall. exact Hz. }
  induction l as [|x l IH]; simpl; [constructor|]. apply Hins. exact IH.
Qed.

(** A stable sort by a rank in 0..2 lists the ranks one after the other. *)
Lemma jsSort_three_ranks {A : Type} (cmp : A -> A -> Q) (rank : A -> Z)
    (l : list A) :
  (forall a b, Qle_bool (cmp a b) 0 = Z.leb (rank a) (rank b)) ->
  (forall a, 0 <= rank a <= 2) ->
  jsSort cmp l
  = List.filter (fun a => Z.eqb (rank a) 0) l ++
    List.filter (fun a => Z.eqb (rank a) 1) l ++
    List.filter (fun a => Z.eqb (rank a) 2) l.
Proof.
  intros Hcmp Hrange.
  assert (Hfilter : forall r s, Forall (fun y => rank y = r)
                                  (List.filter (fun a => Z.eqb (rank a) r) s)).
  { intros r s. apply Forall_forall. intros y Hy. apply list_elem_of_In in Hy.
    apply List.filter_In in Hy as [_ Hy]. apply Z.eqb_eq. exact Hy. }
  induction l as [|x l IH]; [reflexivity|].
  cbn [jsSort List.fold_right]. fold (jsSort cmp l). rewrite IH.
  cbn [List.filter].
  pose proof (Hrange x) as Hx.
  assert (Hcase : rank x = 0 \/ rank x = 1 \/ rank x = 2) by lia.
  destruct Hcase as [E | [E | E]]; rewrite E; cbn [Z.eqb Pos.eqb].
  - apply insertSorted_front. apply Forall_forall. intros y _.
    rewrite Hcmp, E. apply Z.leb_le. apply Hrange.
  - rewrite insertSorted_skip.
    + rewrite insertSorted_front; [reflexivity|].
      apply Forall_app. split; (eapply Forall_impl; [apply Hfilter|]);
        intros y Hy; simpl in Hy; rewrite Hcmp, E, Hy; reflexivity.
    + eapply Forall_impl; [apply Hfilter|]. intros y Hy. simpl in Hy.
      rewrite Hcmp, E, Hy. reflexivity.
  - rewrite insertSorted_skip.
    + rewrite insertSorted_skip.
      * rewrite insertSorted_front; [reflexivity|].
        eapply Forall_impl; [apply Hfilter|]. intros y Hy. simpl in Hy.
        rewrite Hcmp, E, Hy. reflexivity.
      * eapply Forall_impl; [apply Hfilter|]. intros y Hy. simpl in Hy.
        rewrite Hcmp, E, Hy. reflexivity.
    + eapply Forall_impl; [apply Hfilter|]. intros y Hy. simpl in Hy.
      rewrite Hcmp, E, Hy. reflexivity.
Qed.

Lemma orZero_Fin (q : Q) : exists q', orZero (Fin q) = Fin q' /\ (q' == q)%Q.
Proof.
  unfold orZero. simpl. destruct (Qeq_bool q 0) eqn:E; simpl.
  - exists 0%Q. split; [reflexivity|]. apply Qeq_bool_iff in E. symmetry. exact E.
  - exists q. split; reflexivity.
Qed.

Lemma orZero_not_NaN (n : number) : orZero n <> NaN.
Proof.
  unfold orZero. destruct n as [|q| |]; simpl; try discriminate.
  destruct (Qeq_bool q 0); discriminate.
Qed.

Lemma number_le_trans (a b c : number) :
  number_le a b -> number_le b c -> number_le a c.
Proof.
  destruct a, b, c; simpl; try tauto. apply Qle_trans.
Qed.

(** The sign of [mult * ((u - v) || 0)] orders numbers that are not NaN. *)
Lemma signed_difference (u v : number) :
  u <> NaN -> v <> NaN ->
  (Qle_bool (cmpSign (number_mul (Fin 1) (orZero (number_sub u v)))) 0 = true
   <-> number_le u v) /\
  (Qle_bool (cmpSign (number_mul (Fin (-1)) (orZero (number_sub u v)))) 0 = true
   <-> number_le v u).
Proof.
  intros Hu Hv.
  destruct u as [|x| |], v as [|y| |]; try contradiction; clear Hu Hv;
    try (vm_compute; split; split; intros E;
         first [discriminate E | contradiction | reflexivity | exact I]).
  cbn [number_sub]. destruct (orZero_Fin (x - y)) as (q' & -> & Hq).
  cbn [number_mul cmpSign number_le]. rewrite !Qle_bool_iff.
  split; split; intros L; lra.
Qed.

Section SortFacts.
Context `{JsBuiltins} `{JsLocale}.

Lemma getStatusRank_range (it : object) : 0 <= getStatusRank it <= 2.
Proof.
  rewrite getStatusRank_cases.
  destruct (truthy _); [destruct (number_ge _ _)|]; lia.
Qed.

Lemma columnCmp_status (a b : object) :
  columnCmp "status" a b = Fin (inject_Z (getStatusRank a - getStatusRank b)).
Proof. reflexivity. Qed.

Lemma columnCmp_number (column : string) (keys : list string) (a b : object) :
  numberColumnKeys column = Some keys ->
  columnCmp column a b = number_sub (numberColumn keys a) (numberColumn keys b).
Proof.
  unfold numberColumnKeys.
  destruct (String.eqb_spec column "lastMs") as [->|_];
    [intros E; injection E as <-; reflexivity|].
  destruct (String.eqb_spec column "http") as [->|_];
    [intros E; injection E as <-; reflexivity|].
  destruct (String.eqb_spec column "avgToday") as [->|_];
    [intros E; injection E as <-; reflexivity|].
  destruct (String.eqb_spec column "avg7d") as [->|_];
    [intros E; injection E as <-; reflexivity|].
  destruct (String.eqb_spec column "uptimeToday") as [->|_];
    [intros E; injection E as <-; reflexivity|].
  destruct (String.eqb_spec column "uptime7d") as [->|_];
    [intros E; injection E as <-; reflexivity|].
  discriminate.
Qed.

Lemma columnCmp_unknown (column : string) (a b : object) :
  ~ In column sortColumns -> columnCmp column a b = Fin 0.
Proof.
  intros Hnot. unfold columnCmp.
  repeat match goal with
  | |- context [String.eqb column ?c] =>
      destruct (String.eqb_spec column c) as [E|_];
      [exfalso; apply Hnot; rewrite E; simpl; tauto|]
  end.
  reflexivity.
Qed.

(** X9. Sorting the table never loses, repeats or invents a row, whatever
    the column and the direction: the sorted list is a rearrangement of the
    rows, and the top counters computed on it are those of the unsorted
    list. *)
Theorem sortItems_keeps_rows (items : list object) (column dir : string) :
  Permutation (sortItems items column dir) items /\
  length (sortItems items column dir) = length items /\
  computeTopStats (sortItems items column dir) = computeTopStats items.
Proof.
  assert (Hp : Permutation (sortItems items column dir) items)
    by apply jsSort_Permutation.
  split; [exact Hp|]. split; [apply Permutation_length; exact Hp|].
  unfold computeTopStats.
  rewrite (Permutation_length Hp),
    (filter_length_Permutation statsUp _ _ Hp),
    (filter_length_Permutation statsDegraded _ _ Hp).
  reflexivity.
Qed.

(** X10. Sorted by status, ascending, the table lists the DOWN rows, then
    the degraded rows, then the UP rows, each group in the order the rows
    had before; in the other direction it lists UP, degraded, DOWN, again
    each group in its earlier order. *)
Theorem sortItems_status_groups (items : list object) (dir : string) :
  sortItems items "status" "asc"
  = rowsOfRank 0 items ++ rowsOfRank 1 items ++ rowsOfRank 2 items /\
  (dir <> "asc" ->
   sortItems items "status" dir
   = rowsOfRank 2 items ++ rowsOfRank 1 items ++ rowsOfRank 0 items).
Proof.
  split.
  - unfold sortItems, rowsOfRank. cbn [String.eqb Ascii.eqb Bool.eqb].
    apply (jsSort_three_ranks _ getStatusRank); [|apply getStatusRank_range].
    intros a b. rewrite columnCmp_status.
    destruct (orZero_Fin (inject_Z (getStatusRank a - getStatusRank b)))
      as (q' & -> & Hq).
    cbn [number_mul cmpSign].
    destruct (Z.leb_spec (getStatusRank a) (getStatusRank b)) as [L|L].
    + apply Qle_bool_iff. rewrite Hq. unfold Qle. simpl. lia.
    + destruct (Qle_bool _ 0) eqn:E; [|reflexivity].
      apply Qle_bool_iff in E. rewrite Hq in E. unfold Qle in E. simpl in E. lia.
  - intros Hdir. unfold sortItems, rowsOfRank.
    destruct (String.eqb_spec dir "asc") as [E|_]; [contradiction|].
    rewrite (jsSort_three_ranks _ (fun it => 2 - getStatusRank it)).
    + f_equal; [|f_equal]; apply List.filter_ext; intros it;
        pose proof (getStatusRank_range it);
        destruct (Z.eqb_spec (2 - getStatusRank it) 0);
        destruct (Z.eqb_spec (2 - getStatusRank it) 1);
        destruct (Z.eqb_spec (2 - getStatusRank it) 2);
        destruct (Z.eqb_spec (getStatusRank it) 0);
        destruct (Z.eqb_spec (getStatusRank it) 1);
        destruct (Z.eqb_spec (getStatusRank it) 2); try reflexivity; lia.
    + intros a b. rewrite columnCmp_status.
      destruct (orZero_Fin (inject_Z (getStatusRank a - getStatusRank b)))
        as (q' & -> & Hq).
      cbn [number_mul cmpSign].
      destruct (Z.leb_spec (2 - getStatusRank a) (2 - getStatusRank b)) as [L|L].
      * apply Qle_bool_iff. rewrite Hq. unfold Qle. simpl. lia.
      * destruct (Qle_bool _ 0) eqn:E; [|reflexivity].
        apply Qle_bool_iff in E. rewrite Hq in E. unfold Qle in E. simpl in E. lia.
    + intros a. pose proof (getStatusRank_range a). lia.
Qed.

(** X11. For a column name that the comparator does not know, every
    comparison is a tie and the rows keep their order, in both directions. *)
Theorem sortItems_unknown_column (items : list object) (column dir : string) :
  ~ In column sortColumns ->
  sortItems items column dir = items.
Proof.
  intros Hnot. unfold sortItems. apply jsSort_all_equal. intros a b.
  rewrite (columnCmp_unknown column a b Hnot).
  destruct (String.eqb dir "asc"); reflexivity.
Qed.

(** X12. Sorted by one of the columns that compare numbers (last latency,
    HTTP status, the two averages, the two uptimes), the rows are in
    ascending order of [Number(value) || 0] for the direction "asc" and in
    descending order for any other direction. *)
Theorem sortItems_number_columns
    (items : list object) (column dir : string) (keys : list string) :
  numberColumnKeys column = Some keys ->
  StronglySorted
    (fun a b => number_le (numberColumn keys a) (numberColumn keys b))
    (sortItems items column "asc") /\
  (dir <> "asc" ->
   StronglySorted
     (fun a b => number_le (numberColumn keys b) (numberColumn keys a))
     (sortItems items column dir)).
Proof.
  intros Hkeys.
  assert (Hk : forall a, numberColumn keys a <> NaN)
    by (intros a; apply orZero_not_NaN).
  split.
  - unfold sortItems. cbn [String.eqb Ascii.eqb Bool.eqb].
    apply jsSort_sorted_rel.
    + intros x y E. rewrite (columnCmp_number _ _ x y Hkeys) in E.
      apply (signed_difference _ _ (Hk x) (Hk y)). exact E.
    + intros x y E. rewrite (columnCmp_number _ _ x y Hkeys) in E.
      destruct (signed_difference _ _ (Hk x) (Hk y)) as [H1 H2].
      destruct (signed_difference _ _ (Hk y) (Hk x)) as [H3 H4].
      clear H2 H4.
      destruct (numberColumn keys x) as [|p| |] eqn:Ex,
               (numberColumn keys y) as [|q| |] eqn:Ey; simpl;
        try exact I; try (exfalso; apply (Hk x); exact Ex);
        try (exfalso; apply (Hk y); exact Ey);
        try (rewrite (proj2 H1 I) in E; discriminate E).
      destruct (Qlt_le_dec p q) as [L|L]; [|exact L].
      rewrite (proj2 H1) in E; [discriminate E|]. simpl. lra.
    + intros x y z. apply number_le_trans.
  - intros Hdir. unfold sortItems.
    destruct (String.eqb_spec dir "asc") as [E|_]; [contradiction|].
    apply jsSort_sorted_rel.
    + intros x y E. rewrite (columnCmp_number _ _ x y Hkeys) in E.
      apply (signed_difference _ _ (Hk x) (Hk y)). exact E.
    + intros x y E. rewrite (columnCmp_number _ _ x y Hkeys) in E.
      destruct (signed_difference _ _ (Hk x) (Hk y)) as [_ H2].
      destruct (numberColumn keys x) as [|p| |] eqn:Ex,
               (numberColumn keys y) as [|q| |] eqn:Ey; simpl;
        try exact I; try (exfalso; apply (Hk x); exact Ex);
        try (exfalso; apply (Hk y); exact Ey);
        try (rewrite (proj2 H2 I) in E; discriminate E).
      destruct (Qlt_le_dec q p) as [L|L]; [|exact L].
      rewrite (proj2 H2) in E; [discriminate E|]. simpl. lra.
    + intros x y z Hxy Hyz. eapply number_le_trans; eassumption.
Qed.
End SortFacts.

Lemma sortItems_unknown_column_witness :
  ~ In "notes" sortColumns /\
  @sortItems plainBuiltins plainLocale sampleItems "notes" "desc" = sampleItems.
Proof.
  assert (Hnot : ~ In "notes" sortColumns).
  { simpl. intros F. repeat (destruct F as [F|F]; [discriminate F|]). exact F. }
  split; [exact Hnot|].
  apply (@sortItems_unknown_column plainBuiltins plainLocale sampleItems
           "notes" "desc" Hnot).
Defined.

Lemma sortItems_number_columns_witness :
  numberColumnKeys "lastMs" = Some ["last_ms"; "duration_ms"; "ms"] /\
  StronglySorted
    (fun a b => number_le
       (@numberColumn plainBuiltins ["last_ms"; "duration_ms"; "ms"] a)
       (@numberColumn plainBuiltins ["last_ms"; "duration_ms"; "ms"] b))
    (@sortItems plainBuiltins plainLocale sampleItems "lastMs" "asc").
Proof.
  split; [reflexivity|].
  apply (@sortItems_number_columns plainBuiltins plainLocale sampleItems
           "lastMs" "asc" ["last_ms"; "duration_ms"; "ms"] eq_refl).
Defined.

Example sampleItems_by_status :
  @sortItems plainBuiltins plainLocale sampleItems "status" "asc"
  = [shippingUatItem; ratesItem; legacyItem; trackingItem].
Proof. reflexivity. Qed.

Example sampleItems_by_latency_desc :
  @sortItems plainBuiltins plainLocale sampleItems "lastMs" "desc"
  = [shippingUatItem; legacyItem; ratesItem; trackingItem].
Proof. reflexivity. Qed.

(** ** Incident lists *)

Lemma Qfloor_bounds (x : Q) :
  (inject_Z (Qfloor x) <= x /\ x < inject_Z (Qfloor x) + 1)%Q.
Proof.
  split; [apply Qfloor_le|].
  pose proof (Qlt_floor x) as L. rewrite inject_Z_plus in L. exact L.
Qed.

Lemma inject_Z_lt_inv (a b : Z) : (inject_Z a < inject_Z b)%Q -> a < b.
Proof. rewrite <- Zlt_Qlt. tauto. Qed.

Lemma inject_Z_le_inv (a b : Z) : (inject_Z a <= inject_Z b)%Q -> a <= b.
Proof. rewrite <- Zle_Qle. tauto. Qed.

Lemma Qltb_false (x y : Q) : Qltb x y = false <-> (y <= x)%Q.
Proof.
  unfold Qltb. rewrite negb_false_iff. apply Qle_bool_iff.
Qed.

(** X13. [formatDuration] prints a dash for a missing or negative duration.
    For a duration of at least zero seconds it prints the seconds as they are
    below one minute, and otherwise rounds down to whole minutes: the
    minutes alone (1 to 59) below one hour, and the hours (at least 1) with
    the minutes (1 to 59) from one hour on, leaving the minutes out when they
    are zero; what is printed is never more than the duration and less than
    one minute below it. *)
Theorem formatDuration_rounds_down :
  formatDuration None = DurDash /\
  (forall sec, (sec < 0)%Q -> formatDuration (Some sec) = DurDash) /\
  (forall sec, (0 <= sec)%Q ->
     match formatDuration (Some sec) with
     | DurDash => False
     | DurSeconds s => s = sec /\ (sec < 60)%Q
     | DurMinutes m =>
         1 <= m < 60 /\
         (inject_Z m * 60 <= sec < inject_Z m * 60 + 60)%Q
     | DurHours h =>
         1 <= h /\
         (inject_Z h * 3600 <= sec < inject_Z h * 3600 + 60)%Q
     | DurHoursMinutes h m =>
         1 <= h /\ 1 <= m < 60 /\
         (inject_Z h * 3600 + inject_Z m * 60 <= sec
          < inject_Z h * 3600 + inject_Z m * 60 + 60)%Q
     end).
Proof.
  split; [reflexivity|]. split.
  { intros sec L. unfold formatDuration. apply Qltb_lt in L. rewrite L. reflexivity. }
  intros sec L0. unfold formatDuration.
  destruct (Qltb sec 0) eqn:E0; [apply Qltb_lt in E0; lra|].
  destruct (Qltb sec 60) eqn:E1; [apply Qltb_lt in E1; split; [reflexivity|exact E1]|].
  apply Qltb_false in E1.
  destruct (Qltb sec 3600) eqn:E2.
  - apply Qltb_lt in E2.
    destruct (Qfloor_bounds (sec / 60)) as [F1 F2].
    set (m := Qfloor (sec / 60)) in *.
    assert (Hs : (sec == sec / 60 * 60)%Q) by (field).
    assert (Hm : (inject_Z m * 60 <= sec < inject_Z m * 60 + 60)%Q) by (split; lra).
    split; [|exact Hm]. split.
    + assert (1 <= m \/ m <= 0) as [G|G] by lia; [exact G|].
      rewrite Zle_Qle in G. change (inject_Z 0) with 0%Q in G. lra.
    + apply inject_Z_lt_inv. change (inject_Z 60) with 60%Q. lra.
  - apply Qltb_false in E2. cbv zeta.
    destruct (Qfloor_bounds (sec / 3600)) as [F1 F2].
    set (h := Qfloor (sec / 3600)) in *.
    assert (Hs : (sec == sec / 3600 * 3600)%Q) by (field).
    assert (Hh : 1 <= h).
    { assert (1 <= h \/ h <= 0) as [G|G] by lia; [exact G|].
      rewrite Zle_Qle in G. change (inject_Z 0) with 0%Q in G. lra. }
    unfold Qrem3600. fold h.
    set (rem := (sec - 3600 * inject_Z h)%Q).
    assert (Hrem : (0 <= rem < 3600)%Q) by (unfold rem; split; lra).
    destruct (Qfloor_bounds (rem / 60)) as [G1 G2].
    set (m := Qfloor (rem / 60)) in *.
    assert (Hr : (rem == rem / 60 * 60)%Q) by (field).
    assert (Hm : 0 <= m < 60).
    { split.
      - assert (0 <= m \/ m <= -1) as [G|G] by lia; [exact G|].
        rewrite Zle_Qle in G. change (inject_Z (-1)) with (-1)%Q in G. lra.
      - apply inject_Z_lt_inv. change (inject_Z 60) with 60%Q. lra. }
    destruct (Z.eqb_spec m 0) as [Em|Em].
    + split; [exact Hh|]. rewrite Em in G1, G2. change (inject_Z 0) with 0%Q in *.
      unfold rem in *. split; lra.
    + split; [exact Hh|]. split; [lia|]. unfold rem in *. split; lra.
Qed.

Example formatDuration_samples :
  formatDuration (Some 45%Q) = DurSeconds 45 /\
  formatDuration (Some 12.5%Q) = DurSeconds 12.5 /\
  formatDuration (Some 59.9%Q) = DurSeconds 59.9 /\
  formatDuration (Some 60%Q) = DurMinutes 1 /\
  formatDuration (Some 3599%Q) = DurMinutes 59 /\
  formatDuration (Some 3600%Q) = DurHours 1 /\
  formatDuration (Some 3659%Q) = DurHours 1 /\
  formatDuration (Some 7325%Q) = DurHoursMinutes 2 2 /\
  formatDuration (Some (-1)%Q) = DurDash.
Proof. repeat split; reflexivity. Qed.

(** ** Timeline entries: the trimmed message *)

Lemma trimStart_split (s : list N) :
  exists pre, s = pre ++ trimStart s /\ forallb isWhiteSpace pre = true.
Proof.
  induction s as [|c s (pre & E & Hp)]; simpl.
  - exists []. split; reflexivity.
  - destruct (isWhiteSpace c) eqn:Ec.
    + exists (c :: pre). simpl. rewrite Ec, Hp, <- E. split; reflexivity.
    + exists []. split; reflexivity.
Qed.

Lemma trimStart_head (s : list N) (c : N) (r : list N) :
  trimStart s = c :: r -> isWhiteSpace c = false.
Proof.
  induction s as [|x s IH]; simpl; [discriminate|].
  destruct (isWhiteSpace x) eqn:Ex; [exact IH|].
  intros E. injection E as <- _. exact Ex.
Qed.

Lemma trimEnd_split (s : list N) :
  exists post, s = trimEnd s ++ post /\ forallb isWhiteSpace post = true.
Proof.
  unfold trimEnd. destruct (trimStart_split (List.rev s)) as (pre & E & Hp).
  exists (List.rev pre). split.
  - rewrite <- List.rev_app_distr, <- E, List.rev_involutive. reflexivity.
  - apply List.forallb_forall. intros x Hx. apply List.in_rev in Hx.
    rewrite List.forallb_forall in Hp. apply Hp. exact Hx.
Qed.

Lemma trimEnd_last (s init : list N) (c : N) :
  trimEnd s = init ++ [c] -> isWhiteSpace c = false.
Proof.
  unfold trimEnd. intros E. apply (f_equal (@List.rev N)) in E.
  rewrite List.rev_involutive, List.rev_app_distr in E. simpl in E.
  exact (trimStart_head _ _ _ E).
Qed.

(** [trim] removes a run of white space at each end and nothing else, and
    what is left neither starts nor ends with white space. *)
Lemma trim_spec (s : list N) :
  (exists pre post, s = pre ++ trim s ++ post /\
                    forallb isWhiteSpace pre = true /\
                    forallb isWhiteSpace post = true) /\
  (forall c rest, trim s = c :: rest -> isWhiteSpace c = false) /\
  (forall init c, trim s = init ++ [c] -> isWhiteSpace c = false).
Proof.
  unfold trim.
  destruct (trimStart_split s) as (pre & E & Hp).
  destruct (trimEnd_split (trimStart s)) as (post & E' & Hq).
  split; [|split].
  - exists pre, post. rewrite <- E'. auto.
  - intros c rest Ht. rewrite Ht in E'. simpl in E'.
    exact (trimStart_head _ _ _ E').
  - intros init c. apply trimEnd_last.
Qed.

Example padded_message_shown_whole :
  length paddedMessage = 121%nat /\
  truncated (renderIncidentMessage (Some paddedMessage)) = false /\
  displayMsg (renderIncidentMessage (Some paddedMessage)) = List.repeat 97%N 119.
Proof. repeat split; reflexivity. Qed.

Example short_message_data_full :
  dataFull (renderIncidentMessage (Some shortMessage)) = [104%N; 105%N] /\
  dataFull (renderIncidentMessage None) = [].
Proof. split; reflexivity. Qed.

(** X14. The message of a timeline entry is first trimmed: a run of white
    space is taken off each end, and what is left neither starts nor ends
    with white space. The text displayed is the trimmed message itself when
    it has at most 120 code units, and otherwise its first 120 code units
    followed by one ellipsis; the entry is marked as cut exactly in the
    second case, and the displayed text never has more than 121 code
    units. *)
Theorem incident_message_cut (message : option (list N)) :
  let text := match message with Some s => s | None => [] end in
  let msg := incidentMsg message in
  let view := renderIncidentMessage message in
  (exists pre post, text = pre ++ msg ++ post /\
                    forallb isWhiteSpace pre = true /\
                    forallb isWhiteSpace post = true) /\
  (forall c rest, msg = c :: rest -> isWhiteSpace c = false) /\
  (forall init c, msg = init ++ [c] -> isWhiteSpace c = false) /\
  (truncated view = true <-> (120 < length msg)%nat) /\
  (truncated view = false -> displayMsg view = msg) /\
  (truncated view = true ->
     displayMsg view = List.firstn 120 msg ++ [ELLIPSIS] /\
     length (displayMsg view) = 121%nat) /\
  (length (displayMsg view) <= 121)%nat /\
  List.firstn 120 (displayMsg view) = List.firstn 120 msg.
Proof.
  cbv zeta. unfold incidentMsg.
  destruct (trim_spec (match message with Some s => s | None => [] end))
    as (Hsplit & Hhead & Hlast).
  split; [exact Hsplit|]. split; [exact Hhead|]. split; [exact Hlast|].
  unfold renderIncidentMessage, incidentMsg, INCIDENT_MSG_TRUNCATE.
  cbn [truncated displayMsg].
  set (msg := trim _).
  destruct (Nat.ltb_spec 120 (length msg)) as [L|L].
  - assert (Hlen : length (List.firstn 120 msg) = 120%nat)
      by (rewrite List.length_firstn; lia).
    split; [tauto|]. split; [discriminate|].
    split; [intros _; split; [reflexivity|rewrite List.length_app, Hlen; reflexivity]|].
    split; [rewrite List.length_app, Hlen; simpl; lia|].
    rewrite List.firstn_app, Hlen. replace (120 - 120)%nat with 0%nat by lia.
    rewrite List.firstn_firstn. simpl. rewrite List.app_nil_r. reflexivity.
  - split; [split; [discriminate|lia]|]. split; [reflexivity|].
    split; [discriminate|]. split; [lia|reflexivity].
Qed.

(** ** Timeline entries: the markup of the message *)

Lemma flat_map_flat_map {A B C : Type} (f : B -> list C) (g : A -> list B)
    (l : list A) :
  List.flat_map f (List.flat_map g l)
  = List.flat_map (fun x => List.flat_map f (g x)) l.
Proof.
  induction l as [|x l IH]; simpl; [reflexivity|].
  rewrite List.flat_map_app, IH. reflexivity.
Qed.

Lemma replaceUnit_flat_map {A : Type} (c : N) (rep : string)
    (g : A -> list N) (l : list A) :
  replaceUnit c rep (List.flat_map g l)
  = List.flat_map (fun x => replaceUnit c rep (g x)) l.
Proof. apply flat_map_flat_map. Qed.

Lemma replaceUnit_other (c x : N) (rep : string) :
  x <> c -> replaceUnit c rep [x] = [x].
Proof.
  intros Hne. unfold replaceUnit. simpl.
  destruct (N.eqb_spec x c) as [E|_]; [contradiction|reflexivity].
Qed.

Lemma escapeUnit_other (x : N) :
  x <> 38%N -> x <> 60%N -> x <> 62%N -> x <> 34%N -> x <> 39%N ->
  escapeUnit x = [x].
Proof.
  intros H1 H2 H3 H4 H5. unfold escapeUnit.
  destruct (N.eqb_spec x 38); [contradiction|].
  destruct (N.eqb_spec x 60); [contradiction|].
  destruct (N.eqb_spec x 62); [contradiction|].
  destruct (N.eqb_spec x 34); [contradiction|].
  destruct (N.eqb_spec x 39); [contradiction|]. reflexivity.
Qed.

(** Split on whether [x] is one of the six code units that the markup
    treats specially. *)
Ltac special_unit x :=
  destruct (N.eq_dec x 38%N) as [->|?]; [|
  destruct (N.eq_dec x 60%N) as [->|?]; [|
  destruct (N.eq_dec x 62%N) as [->|?]; [|
  destruct (N.eq_dec x 34%N) as [->|?]; [|
  destruct (N.eq_dec x 39%N) as [->|?]; [|
  destruct (N.eq_dec x 10%N) as [->|?]]]]]].

Lemma escapeHtmlUnits_units (s : list N) :
  escapeHtmlUnits s = List.flat_map escapeUnit s.
Proof.
  unfold escapeHtmlUnits.
  assert (E : replaceUnit 38 "&amp;" s
              = List.flat_map (fun x => replaceUnit 38 "&amp;" [x]) s).
  { unfold replaceUnit. apply List.flat_map_ext. intros x. simpl.
    rewrite List.app_nil_r. reflexivity. }
  rewrite E, !replaceUnit_flat_map. apply List.flat_map_ext. intros x.
  special_unit x; try reflexivity.
  all: rewrite escapeUnit_other by assumption;
    rewrite !replaceUnit_other by assumption; reflexivity.
Qed.

Lemma incidentUnit_other (x : N) :
  x <> 38%N -> x <> 60%N -> x <> 62%N -> x <> 34%N -> x <> 39%N -> x <> 10%N ->
  incidentUnit x = [x].
Proof.
  intros H1 H2 H3 H4 H5 H6. unfold incidentUnit.
  destruct (N.eqb_spec x 10); [contradiction|].
  apply escapeUnit_other; assumption.
Qed.

Lemma fullHtml_units (s : list N) :
  replaceUnit 10 "<br>" (escapeHtmlUnits s) = List.flat_map incidentUnit s.
Proof.
  rewrite escapeHtmlUnits_units, replaceUnit_flat_map.
  apply List.flat_map_ext. intros x.
  special_unit x; try reflexivity.
  rewrite incidentUnit_other, escapeUnit_other by assumption.
  apply replaceUnit_other. assumption.
Qed.

Lemma incidentUnit_clean (x : N) :
  replaceUnit 34 "&quot;" (incidentUnit x) = incidentUnit x /\
  Forall (fun c => c <> 34 /\ c <> 39 /\ c <> 10)%N (incidentUnit x).
Proof.
  special_unit x;
    try (split; [reflexivity|repeat constructor; discriminate]).
  rewrite incidentUnit_other by assumption.
  split; [apply replaceUnit_other; assumption|].
  repeat constructor; assumption.
Qed.

Lemma unitsOf_append (a b : string) :
  unitsOf (String.append a b) = unitsOf a ++ unitsOf b.
Proof.
  unfold unitsOf. induction a as [|x a IH]; [reflexivity|].
  rewrite append_cons. simpl. rewrite IH. reflexivity.
Qed.

Lemma escapeUnit_ascii (a : ascii) :
  escapeUnit (N_of_ascii a) = unitsOf (escapeChar a).
Proof. destruct a as [[] [] [] [] [] [] [] []]; reflexivity. Qed.

Section IncidentMarkupFacts.
Context `{JsBuiltins}.

(** X15. The markup kept in [data-full] for a timeline entry is the trimmed
    message with every newline turned into a line break and every '&', '<',
    '>', double quote and single quote turned into its entity; it holds no
    double quote, no single quote and no newline, so the second replacement
    of double quotes in the source changes nothing. On a text of ASCII
    characters the escaping of code units is that of [escapeHtml]. *)
Theorem incident_data_full_markup (message : option (list N)) :
  let msg := incidentMsg message in
  let view := renderIncidentMessage message in
  fullHtml view = List.flat_map incidentUnit msg /\
  dataFull view = fullHtml view /\
  Forall (fun c => c <> 34 /\ c <> 39 /\ c <> 10)%N (dataFull view) /\
  (forall s : string,
     escapeHtmlUnits (unitsOf s) = unitsOf (escapeHtml (VStr s))).
Proof.
  cbv zeta. unfold renderIncidentMessage. cbn [fullHtml dataFull].
  rewrite fullHtml_units.
  assert (Hsame : replaceUnit 34 "&quot;"
                    (List.flat_map incidentUnit (incidentMsg message))
                  = List.flat_map incidentUnit (incidentMsg message)).
  { rewrite replaceUnit_flat_map. apply List.flat_map_ext. intros x.
    apply incidentUnit_clean. }
  split; [reflexivity|]. split; [exact Hsame|]. split.
  - rewrite Hsame. apply List.Forall_flat_map. apply List.Forall_forall.
    intros x _. apply incidentUnit_clean.
  - intros s. rewrite escapeHtmlUnits_units, escapeHtml_mapChars.
    simpl ToString. induction s as [|a s IH]; [reflexivity|].
    cbn [mapChars]. rewrite unitsOf_append, <- IH, <- escapeUnit_ascii.
    reflexivity.
Qed.
End IncidentMarkupFacts.

(** ** More on the summary line *)

Lemma fold_left_durations (l : list Probe) (a : Q) :
  (List.fold_left (fun s p => (s + durationOf p)%Q) l a
   == a + sumQ (List.map durationOf l))%Q.
Proof.
  revert a. induction l as [|p l IH]; intros a; simpl; [lra|].
  rewrite IH. lra.
Qed.

Lemma recorded_length (ps : list Probe) :
  length (List.filter hasDuration ps) = length (recordedDurations ps).
Proof. rewrite <- recorded_withMs, List.length_map. reflexivity. Qed.

(** The P95 of the summary as an element of a sorted arrangement. *)
Lemma setSummary_p95_sorted (probes : list Probe) :
  recordedDurations probes <> [] ->
  exists line d sorted,
    setSummary probes = Line line /\
    shownP95 line = Some (Fixed 0 (Fin d)) /\
    Permutation sorted (recordedDurations probes) /\
    StronglySorted Qle sorted /\
    List.nth_error sorted (p95Index (length (recordedDurations probes))) = Some d.
Proof.
  intros Hne.
  destruct probes as [|p0 ps]; [contradiction Hne; reflexivity|].
  set (probes := p0 :: ps) in *.
  set (n := length (recordedDurations probes)).
  set (withMs := List.filter hasDuration probes).
  set (sortedP := jsSort (keyCmp durationOf) withMs).
  assert (Hlen : length sortedP = n).
  { unfold sortedP, n. rewrite jsSort_length. apply recorded_length. }
  assert (Hpos : (0 < n)%nat).
  { unfold n. destruct (recordedDurations probes); [contradiction Hne; reflexivity|].
    simpl. lia. }
  destruct (List.nth_error sortedP (p95Index n)) as [p|] eqn:Hnth.
  2:{ apply List.nth_error_None in Hnth. pose proof (p95Index_lt n Hpos). lia. }
  assert (Hin : In p withMs).
  { apply (Permutation_in _ (jsSort_Permutation (keyCmp durationOf) withMs)).
    eapply List.nth_error_In. exact Hnth. }
  pose proof (withMs_duration probes p Hin) as Hdur.
  eexists. exists (durationOf p), (List.map durationOf sortedP).
  split.
  { unfold setSummary. fold probes. unfold probes at 1.
    cbv zeta. fold withMs. change (fun a b : Probe => (durationOf a - durationOf b)%Q)
      with (keyCmp durationOf). fold sortedP.
    rewrite Hlen, Hnth, Hdur.
    destruct (Nat.eqb_spec n 0) as [E|_]; [lia|]. reflexivity. }
  split; [reflexivity|].
  split; [rewrite <- recorded_withMs; apply Permutation_map, jsSort_Permutation|].
  split; [apply sorted_map_key, jsSort_sorted|].
  rewrite List.nth_error_map, Hnth. reflexivity.
Qed.

Lemma p95Index_small (n : nat) : (1 <= n <= 20 -> p95Index n = n - 1)%nat.
Proof.
  intros Hn. unfold p95Index.
  symmetry. apply (Nat.div_unique _ 20 _ (19 * n - 20 * (n - 1))); lia.
Qed.

(** X16. When at least one duration was recorded, the P95 of the summary is
    one of the recorded durations with more than [floor(0.95 n)] of the [n]
    durations at or below it, so at most [n - 1 - floor(0.95 n)] above it;
    with 20 durations or fewer it is the largest one. *)
Theorem setSummary_p95_rank (probes : list Probe) :
  recordedDurations probes <> [] ->
  let recorded := recordedDurations probes in
  let n := length recorded in
  exists line d,
    setSummary probes = Line line /\
    shownP95 line = Some (Fixed 0 (Fin d)) /\
    In d recorded /\
    (p95Index n < length (List.filter (fun x => Qle_bool x d) recorded))%nat /\
    (length (List.filter (fun x => Qltb d x) recorded) <= n - 1 - p95Index n)%nat /\
    ((n <= 20)%nat -> Forall (fun x => (x <= d)%Q) recorded).
Proof.
  intros Hne. cbv zeta.
  destruct (setSummary_p95_sorted probes Hne)
    as (line & d & sorted & Hs & Hp & Hperm & Hsorted & Hnth).
  exists line, d. split; [exact Hs|]. split; [exact Hp|].
  set (recorded := recordedDurations probes) in *.
  set (n := length recorded) in *.
  destruct (sorted_nth_rank sorted (p95Index n) d Hsorted Hnth) as [_ Hrank].
  rewrite (filter_length_Permutation _ _ _ Hperm) in Hrank.
  pose proof (filter_length_split (fun x => Qle_bool x d) recorded) as Hsplit.
  fold n in Hsplit.
  assert (Habove : (length (List.filter (fun x => Qltb d x) recorded)
                    <= n - 1 - p95Index n)%nat).
  { unfold Qltb. lia. }
  split.
  { apply (Permutation_in _ Hperm). eapply List.nth_error_In. exact Hnth. }
  split; [exact Hrank|]. split; [exact Habove|].
  intros Hsmall.
  assert (Hpos : (1 <= n)%nat).
  { unfold n. destruct recorded; [contradiction Hne; reflexivity|]. simpl. lia. }
  rewrite (p95Index_small n) in Habove by lia.
  apply Forall_forall. intros x Hx. apply list_elem_of_In in Hx.
  destruct (Qle_bool x d) eqn:E; [apply Qle_bool_iff; exact E|].
  exfalso.
  assert (Hin : In x (List.filter (fun x => Qltb d x) recorded)).
  { apply List.filter_In. split; [exact Hx|]. unfold Qltb. rewrite E. reflexivity. }
  destruct (List.filter (fun x => Qltb d x) recorded); [contradiction|].
  simpl in Habove. lia.
Qed.

Lemma setSummary_p95_rank_witness :
  recordedDurations sampleProbes <> [] /\
  exists line d,
    setSummary sampleProbes = Line line /\
    shownP95 line = Some (Fixed 0 (Fin d)) /\
    Forall (fun x => (x <= d)%Q) (recordedDurations sampleProbes).
Proof.
  assert (Hne : recordedDurations sampleProbes <> []) by discriminate.
  split; [exact Hne|].
  destruct (setSummary_p95_rank sampleProbes Hne)
    as (line & d & Hs & Hp & _ & _ & _ & Hmax).
  exists line, d. split; [exact Hs|]. split; [exact Hp|].
  apply Hmax. simpl. lia.
Defined.

(** X17. For a list of probes that is not empty the summary line shows the
    number of probes, the number of successful ones and an average that is
    the mean of the recorded durations; when no probe has a duration the
    average shown is 0 and the P95 is left out, otherwise a P95 is shown. *)
Theorem setSummary_average (p : Probe) (ps : list Probe) :
  let probes := p :: ps in
  let recorded := recordedDurations probes in
  exists line,
    setSummary probes = Line line /\
    shownProbes line = Plain (VNum (ofCount (length probes))) /\
    shownSuccess line = Plain (VNum (ofCount (length (List.filter ok probes)))) /\
    (recorded = [] ->
       shownAvg line = Fixed 0 (Fin 0) /\ shownP95 line = None) /\
    (recorded <> [] ->
       (exists a, shownAvg line = Fixed 0 (Fin a) /\
                  (a == sumQ recorded / inject_Z (Z.of_nat (length recorded)))%Q) /\
       shownP95 line <> None).
Proof.
  cbv zeta. eexists. split; [reflexivity|].
  cbn [shownProbes shownSuccess shownAvg shownP95].
  split; [reflexivity|]. split; [reflexivity|].
  rewrite jsSort_length, recorded_length.
  split.
  - intros Hrec. rewrite Hrec. split; reflexivity.
  - intros Hne.
    destruct (length (recordedDurations (p :: ps))) as [|n] eqn:En.
    { destruct (recordedDurations (p :: ps)); [contradiction Hne; reflexivity|].
      discriminate En. }
    split.
    + cbn [Nat.eqb]. unfold number_div, ofCount. rewrite ofCount_S_nonzero.
      eexists. split; [reflexivity|].
      rewrite fold_left_durations, recorded_withMs.
      assert (Hnz : ~ (inject_Z (Z.of_nat (S n)) == 0)%Q).
      { intros E. apply Qeq_bool_iff in E. rewrite ofCount_S_nonzero in E.
        discriminate E. }
      field. exact Hnz.
    + destruct (setSummary_p95_sorted (p :: ps) Hne)
        as (line & d & sorted & Hs & Hp & _).
      assert (Hline : setSummary (p :: ps) = Line line) by exact Hs.
      unfold setSummary in Hline. cbv zeta in Hline.
      rewrite jsSort_length, recorded_length, En in Hline.
      injection Hline as <-. cbn [shownP95] in Hp.
      cbn [Nat.eqb]. intros F.
      pose proof (eq_trans (eq_sym F) Hp) as G. discriminate G.
Qed.

(** ** More on the chart buckets *)

Lemma mapGet_In {V : Type} (k : timeValue) (b : V) (m : JsMap V) :
  mapGet k m = Some b -> exists k', sameValueZero k k' = true /\ In (k', b) m.
Proof.
  induction m as [|[k0 v0] m IH]; simpl; [discriminate|].
  destruct (sameValueZero k k0) eqn:E.
  - intros G. injection G as <-. exists k0. split; [exact E|left; reflexivity].
  - intros G. destruct (IH G) as (k' & Hk & Hin). exists k'. split; [exact Hk|].
    right. exact Hin.
Qed.

Lemma In_mapGet {V : Type} (k : timeValue) (b : V) (m : JsMap V) :
  List.NoDup (List.map fst m) -> In (k, b) m -> mapGet k m = Some b.
Proof.
  induction m as [|[k0 v0] m IH]; simpl; [contradiction|].
  intros Hnd Hin. apply List.NoDup_cons_iff in Hnd as [Hnot Hnd].
  destruct Hin as [E|Hin].
  - injection E as -> ->. rewrite sameValueZero_refl. reflexivity.
  - destruct (sameValueZero_spec k k0) as [->|_].
    + exfalso. apply Hnot. apply (List.in_map fst) in Hin. exact Hin.
    + apply IH; assumption.
Qed.

Lemma Forall_mapSet {V : Type} (P : timeValue * V -> Prop)
    (k : timeValue) (v : V) (m : JsMap V) :
  (forall k', P (k', v)) -> Forall P m -> Forall P (mapSet k v m).
Proof.
  intros Hv. induction m as [|[k0 v0] m IH]; intros Hall; simpl.
  - constructor; [apply Hv|constructor].
  - apply Forall_cons in Hall as [H0 Hall].
    destruct (sameValueZero k k0); constructor; auto.
Qed.

Lemma mapHas_keys {V : Type} (k : timeValue) (m : JsMap V) :
  mapHas k m = true <-> In k (List.map fst m).
Proof.
  unfold mapHas. pose proof (mapGet_None_keys k m) as Hn.
  destruct (mapGet k m).
  - split; [|reflexivity]. intros _.
    destruct (List.in_dec (fun a b : timeValue =>
                match sameValueZero_spec a b with
                | ReflectT _ e => left e
                | ReflectF _ n => right n
                end) k (List.map fst m)) as [Hin|Hnot]; [exact Hin|].
    apply Hn in Hnot. discriminate Hnot.
  - split; [discriminate|]. intros Hin. exfalso. apply Hn; [reflexivity|exact Hin].
Qed.

Lemma Permutation_in_iff_keys {V : Type} (k : timeValue) (s m : JsMap V) :
  Permutation s m -> (In k (List.map fst s) <-> In k (List.map fst m)).
Proof.
  intros Hp. split; apply Permutation_in, Permutation_map;
    [exact Hp|symmetry; exact Hp].
Qed.

Lemma accAt_sound (k : timeValue) (m : JsMap BucketAcc) :
  Forall (fun e => soundAcc (snd e) /\ (0 < count (snd e))%nat) m ->
  soundAcc (accAt k m).
Proof.
  intros Hall. unfold accAt. destruct (mapGet k m) as [b|] eqn:E.
  - destruct (mapGet_In k b m E) as (k' & _ & Hin).
    rewrite Forall_forall in Hall. apply (Hall (k', b)).
    apply list_elem_of_In. exact Hin.
  - unfold soundAcc. simpl. lia.
Qed.

Lemma collectBuckets_sound (w : Z) (ps : list Probe) :
  Forall (fun e => soundAcc (snd e) /\ (0 < count (snd e))%nat)
         (collectBuckets w ps).
Proof.
  unfold collectBuckets.
  assert (Hgen : forall m,
            Forall (fun e => soundAcc (snd e) /\ (0 < count (snd e))%nat) m ->
            Forall (fun e => soundAcc (snd e) /\ (0 < count (snd e))%nat)
                   (List.fold_left (addProbe w) ps m)).
  { induction ps as [|p ps IH]; intros m Hm; simpl; [exact Hm|].
    apply IH. rewrite addProbe_bump. apply Forall_mapSet; [|exact Hm].
    intros k'. pose proof (accAt_sound (bucketStartOf w p) m Hm) as Hs.
    unfold soundAcc in *. simpl. destruct (ok p); split; lia. }
  apply Hgen. constructor.
Qed.

Lemma bucketProbes_sorted `{JsDateText} (probes : list Probe) :
  let sorted := sortedBuckets 300000 probes in
  bucketProbes probes
  = {| labels := List.map (fun e => toLocaleString (fst e)) sorted;
       avgMs := List.map (fun e =>
         if Nat.eqb (count (snd e)) 0 then None
         else Some (number_div (Fin (sumMs (snd e))) (ofCount (count (snd e)))))
         sorted;
       successPct := List.map (fun e =>
         if Nat.eqb (count (snd e)) 0 then None
         else Some (number_mul
                      (number_div (ofCount (okCount (snd e))) (ofCount (count (snd e))))
                      (Fin 100))) sorted |}.
Proof. destruct probes; reflexivity. Qed.

Lemma ratio_range (a b : nat) :
  (a <= b)%nat -> (0 < b)%nat ->
  (0 <= inject_Z (Z.of_nat a) / inject_Z (Z.of_nat b) * 100 <= 100)%Q.
Proof.
  intros Hab Hb.
  assert (Hbq : (0 < inject_Z (Z.of_nat b))%Q).
  { change 0%Q with (inject_Z 0). rewrite <- Zlt_Qlt. lia. }
  assert (Haq : (0 <= inject_Z (Z.of_nat a))%Q).
  { change 0%Q with (inject_Z 0). rewrite <- Zle_Qle. lia. }
  assert (Habq : (inject_Z (Z.of_nat a) <= inject_Z (Z.of_nat b))%Q).
  { rewrite <- Zle_Qle. lia. }
  assert (H0 : (0 <= inject_Z (Z.of_nat a) / inject_Z (Z.of_nat b))%Q).
  { apply Qle_shift_div_l; [exact Hbq|]. lra. }
  assert (H1 : (inject_Z (Z.of_nat a) / inject_Z (Z.of_nat b) <= 1)%Q).
  { apply Qle_shift_div_r; [exact Hbq|]. lra. }
  split; lra.
Qed.

Lemma ofCount_pos_nonzero (n : nat) :
  (0 < n)%nat -> Qeq_bool (inject_Z (Z.of_nat n)) 0 = false.
Proof. destruct n; [lia|]. intros _. apply ofCount_S_nonzero. Qed.

(** X18. Every success percentage of the chart and the success percentage
    of the summary line is a finite number between 0 and 100. *)
Theorem success_percentages_in_range `{JsDateText} (probes : list Probe) :
  Forall (fun e => exists q, e = Some (Fin q) /\ (0 <= q <= 100)%Q)
         (successPct (bucketProbes probes)) /\
  (forall line, setSummary probes = Line line ->
     exists q, shownPct line = Fixed 1 (Fin q) /\ (0 <= q <= 100)%Q).
Proof.
  split.
  - rewrite bucketProbes_sorted. cbn [successPct].
    apply List.Forall_map. apply Forall_forall. intros e He.
    apply list_elem_of_In in He. unfold sortedBuckets in He.
    apply (Permutation_in _ (jsSort_Permutation _ _)) in He.
    pose proof (collectBuckets_sound 300000 probes) as Hall.
    rewrite Forall_forall in Hall.
    destruct (Hall e (proj2 (list_elem_of_In _ _) He)) as [Hs Hc].
    destruct (Nat.eqb_spec (count (snd e)) 0) as [E|_]; [lia|].
    unfold number_div, ofCount. rewrite (ofCount_pos_nonzero _ Hc).
    eexists. split; [reflexivity|]. apply ratio_range; assumption.
  - intros line Hl. destruct probes as [|p ps]; [discriminate Hl|].
    unfold setSummary in Hl. injection Hl as <-. cbn [shownPct].
    eexists. split; [reflexivity|].
    apply (ratio_range (length (List.filter ok (p :: ps))) (length (p :: ps))).
    + apply filter_length_le.
    + simpl. lia.
Qed.

(** X19. The chart has one point per bucket, in the order of the sorted
    bucket starts: these starts are distinct and are exactly the bucket
    starts of the probes, the i-th label is the formatted date of the i-th
    start, and the i-th average and success percentage are those of the
    bucket that starts there; the three lists have one entry per start and a
    point is never null. *)
Theorem bucketProbes_points `{JsDateText} (probes : list Probe) :
  let b := bucketProbes probes in
  let m := collectBuckets 300000 probes in
  let starts := List.map fst (sortedBuckets 300000 probes) in
  List.NoDup starts /\
  (forall k, In k starts <->
             exists p, In p probes /\ bucketStartOf 300000 p = k) /\
  labels b = List.map toLocaleString starts /\
  avgMs b
  = List.map (fun k => Some (number_div (Fin (sumMs (accAt k m)))
                                        (ofCount (count (accAt k m)))))
             starts /\
  successPct b
  = List.map (fun k => Some (number_mul
                               (number_div (ofCount (okCount (accAt k m)))
                                           (ofCount (count (accAt k m))))
                               (Fin 100)))
             starts /\
  length (labels b) = length starts /\
  length (avgMs b) = length starts /\
  length (successPct b) = length starts.
Proof.
  cbv zeta. rewrite bucketProbes_sorted. cbn [labels avgMs successPct].
  unfold sortedBuckets.
  set (m := collectBuckets 300000 probes).
  set (sorted := jsSort (fun a b => timeDiff (fst a) (fst b)) m).
  assert (Hperm : Permutation sorted m) by apply jsSort_Permutation.
  assert (Hnd : List.NoDup (List.map fst m)).
  { unfold m, collectBuckets. apply fold_addProbe_NoDup. constructor. }
  assert (Hacc : forall e, In e sorted ->
                   accAt (fst e) m = snd e /\ (0 < count (snd e))%nat).
  { intros [k b] He. apply (Permutation_in _ Hperm) in He. simpl.
    split.
    - unfold accAt. rewrite (In_mapGet k b m Hnd He). reflexivity.
    - pose proof (collectBuckets_sound 300000 probes) as Hall.
      rewrite Forall_forall in Hall.
      apply (Hall (k, b)). apply list_elem_of_In. exact He. }
  split.
  { apply (Permutation_NoDup (l := List.map fst m)); [|exact Hnd].
    apply Permutation_map. symmetry. exact Hperm. }
  split.
  { intros k. rewrite (Permutation_in_iff_keys k sorted m Hperm).
    unfold m, collectBuckets.
    pose proof (fold_addProbe_has 300000 k probes []) as Hhas.
    simpl in Hhas. rewrite orb_false_r in Hhas.
    rewrite <- mapHas_keys, Hhas, List.existsb_exists.
    split; intros (p & Hp & Hk); exists p; (split; [exact Hp|]).
    - unfold inBucket in Hk.
      destruct (sameValueZero_spec (bucketStartOf 300000 p) k); [assumption|discriminate].
    - unfold inBucket. rewrite Hk. apply sameValueZero_refl. }
  split; [rewrite List.map_map; reflexivity|].
  split.
  { rewrite List.map_map. apply List.map_ext_in. intros e He.
    destruct (Hacc e He) as [-> Hc].
    destruct (Nat.eqb_spec (count (snd e)) 0) as [E|_]; [lia|reflexivity]. }
  split.
  { rewrite List.map_map. apply List.map_ext_in. intros e He.
    destruct (Hacc e He) as [-> Hc].
    destruct (Nat.eqb_spec (count (snd e)) 0) as [E|_]; [lia|reflexivity]. }
  rewrite !List.length_map. repeat split; reflexivity.
Qed.

Lemma jsSort_sorted_on {A : Type} (cmp : A -> A -> Q) (P : A -> Prop)
    (R : A -> A -> Prop) (l : list A) :
  Forall P l ->
  (forall x y, P x -> P y -> Qle_bool (cmp x y) 0 = true -> R x y) ->
  (forall x y, P x -> P y -> Qle_bool (cmp x y) 0 = false -> R y x) ->
  (forall x y z, P x -> P y -> P z -> R x y -> R y z -> R x z) ->
  StronglySorted R (jsSort cmp l) /\ Forall P (jsSort cmp l).
Proof.
  intros Hall Hle Htot Htrans.
  assert (HP : Forall P (jsSort cmp l)).
  { apply Forall_forall. intros x Hx. apply list_elem_of_In in Hx.
    apply (Permutation_in _ (jsSort_Permutation cmp l)) in Hx.
    rewrite Forall_forall in Hall. apply Hall, list_elem_of_In, Hx. }
  split; [|exact HP]. clear HP.
  assert (Hins : forall x s, P x -> Forall P s -> StronglySorted R s ->
                             StronglySorted R (insertSorted cmp x s)).
  { intros x s Px. induction s as [|y s IH]; intros Ps Hs; simpl.
    - constructor; constructor.
    - apply Forall_cons in Ps as [Py Ps].
      destruct (Qle_bool (cmp x y) 0) eqn:E.
      + constructor; [exact Hs|]. constructor; [apply Hle; assumption|].
        apply StronglySorted_inv in Hs as [_ Hys].
        apply List.Forall_forall. intros z Hz.
        rewrite List.Forall_forall in Hys.
        apply (Htrans x y z); try assumption.
        * rewrite Forall_forall in Ps. apply Ps, list_elem_of_In, Hz.
        * apply Hle; assumption.
        * apply Hys. exact Hz.
      + apply StronglySorted_inv in Hs as [Hs Hys].
        constructor; [apply IH; assumption|].
        apply List.Forall_forall. intros z Hz.
        apply (Permutation_in _ (insertSorted_Permutation cmp x s)) in Hz.
        destruct Hz as [<-|Hz]; [apply Htot; assumption|].
        rewrite List.Forall_forall in Hys. apply Hys. exact Hz. }
  induction l as [|x l IH]; simpl; [constructor|].
  apply Forall_cons in Hall as [Px Pl]. apply Hins; [exact Px| |apply IH; exact Pl].
  apply Forall_forall. intros y Hy. apply list_elem_of_In in Hy.
  apply (Permutation_in _ (jsSort_Permutation cmp l)) in Hy.
  rewrite Forall_forall in Pl. apply Pl, list_elem_of_In, Hy.
Qed.

Lemma timeLe_neq_lt (a b : timeValue) :
  match a, b with
  | Some x, Some y => x <= y
  | _, _ => False
  end -> a <> b -> timeLt a b.
Proof.
  destruct a as [x|], b as [y|]; simpl; try tauto.
  intros Hle Hne. assert (x <> y) by congruence. lia.
Qed.

Lemma sorted_distinct_keys {V : Type} (l : JsMap V) :
  StronglySorted (fun a b => match fst a, fst b with
                             | Some x, Some y => x <= y
                             | _, _ => False
                             end) l ->
  List.NoDup (List.map fst l) ->
  StronglySorted timeLt (List.map fst l).
Proof.
  induction 1 as [|e l Hs IH Hall]; intros Hnd; cbn [List.map] in *; [constructor|].
  apply List.NoDup_cons_iff in Hnd as [Hnot Hnd].
  constructor; [apply IH; exact Hnd|].
  apply List.Forall_map. apply List.Forall_forall. intros e' He'.
  rewrite List.Forall_forall in Hall. specialize (Hall e' He').
  assert (Hne : fst e <> fst e').
  { intros E. apply Hnot.
    exact (eq_ind_r (fun k => In k (List.map fst l)) (List.in_map fst l e' He') E). }
  exact (timeLe_neq_lt (fst e) (fst e') Hall Hne).
Qed.

(** X20. When every probe has a valid timestamp the points of the chart are
    in strictly ascending order of bucket start: the labels are the
    formatted dates of bucket starts that strictly increase. (The label
    texts show no year and are not themselves compared.) *)
Theorem bucketProbes_points_ascending `{JsDateText} (probes : list Probe) :
  Forall (fun p => ts p <> None) probes ->
  StronglySorted timeLt (List.map fst (sortedBuckets 300000 probes)) /\
  labels (bucketProbes probes)
  = List.map toLocaleString (List.map fst (sortedBuckets 300000 probes)).
Proof.
  intros Hvalid.
  split; [|rewrite bucketProbes_sorted; cbn [labels];
           rewrite List.map_map; reflexivity].
  unfold sortedBuckets.
  set (m := collectBuckets 300000 probes).
  assert (Hnd : List.NoDup (List.map fst m)).
  { unfold m, collectBuckets. apply fold_addProbe_NoDup. constructor. }
  assert (Hsome : Forall (fun e : timeValue * BucketAcc => exists t, fst e = Some t) m).
  { apply Forall_forall. intros e He. apply list_elem_of_In in He.
    apply (List.in_map fst) in He. apply mapHas_keys in He.
    unfold m, collectBuckets in He. rewrite fold_addProbe_has in He.
    simpl in He. rewrite orb_false_r in He.
    apply List.existsb_exists in He as (p & Hp & Hk).
    unfold inBucket in Hk.
    destruct (sameValueZero_spec (bucketStartOf 300000 p) (fst e)) as [E|_];
      [|discriminate].
    rewrite Forall_forall in Hvalid.
    specialize (Hvalid p (proj2 (list_elem_of_In _ _) Hp)).
    unfold bucketStartOf in E. destruct (ts p) as [t|]; [|contradiction].
    eexists. symmetry. exact E. }
  destruct (jsSort_sorted_on (fun a b : timeValue * BucketAcc => timeDiff (fst a) (fst b))
              (fun e => exists t, fst e = Some t)
              (fun a b => match fst a, fst b with
                          | Some x, Some y => x <= y
                          | _, _ => False
                          end) m Hsome) as [Hsorted _].
  - intros x y [tx Hx] [ty Hy] E. rewrite Hx, Hy in *. simpl in E.
    apply Qle_bool_iff in E. unfold Qle in E. simpl in E. lia.
  - intros x y [tx Hx] [ty Hy] E. rewrite Hx, Hy in *. simpl in E.
    destruct (Z.le_gt_cases ty tx) as [L|L]; [exact L|].
    assert (F : Qle_bool (inject_Z (tx - ty)) 0 = true).
    { apply Qle_bool_iff. unfold Qle. simpl. lia. }
    congruence.
  - intros x y z [tx Hx] [ty Hy] [tz Hz]. rewrite Hx, Hy, Hz. lia.
  - apply sorted_distinct_keys; [exact Hsorted|].
    apply (Permutation_NoDup (l := List.map fst m)); [|exact Hnd].
    apply Permutation_map. symmetry. apply jsSort_Permutation.
Qed.

Lemma bucketProbes_points_ascending_witness :
  Forall (fun p => ts p <> None) sampleProbes /\
  StronglySorted timeLt (List.map fst (sortedBuckets 300000 sampleProbes)).
Proof.
  assert (Hvalid : Forall (fun p => ts p <> None) sampleProbes)
    by (repeat constructor; discriminate).
  split; [exact Hvalid|].
  apply (@bucketProbes_points_ascending plainDateText sampleProbes Hvalid).
Defined.

(** ** The slowest service of the first dashboard script *)

Lemma number_gt_irrefl (a : number) : number_gt a a = false.
Proof.
  destruct a as [|q| |]; simpl; try reflexivity.
  apply negb_false_iff, Qle_bool_iff, Qle_refl.
Qed.

Lemma number_gt_replace (a b x : number) :
  number_gt a b = true -> number_gt x b = false ->
  number_gt x a = false /\ (number_gt a x = true \/ x = NaN).
Proof.
  destruct a as [|p| |], b as [|q| |], x as [|r| |]; simpl;
    try discriminate; try (intros _ _; split; [reflexivity|tauto]);
    try (intros _ _; split; [reflexivity|left; reflexivity]).
  intros Hpq Hrq.
  apply negb_true_iff in Hpq. apply negb_false_iff, Qle_bool_iff in Hrq.
  assert (Lqp : (q < p)%Q).
  { apply Qnot_le_lt. intros L. apply Qle_bool_iff in L. congruence. }
  split.
  - apply negb_false_iff, Qle_bool_iff. lra.
  - left. apply negb_true_iff. destruct (Qle_bool p r) eqn:E; [|reflexivity].
    apply Qle_bool_iff in E. lra.
Qed.

Section SlowestFacts.
Context `{JsBuiltins}.

Lemma slowestStep_keeps (found : option AppStatic.Slowest)
    (items : list object) (it : object) :
  slowestOf found items ->
  slowestOf (AppStatic.slowestStep found it) (items ++ [it]).
Proof.
  unfold AppStatic.slowestStep. fold (latencyOf it).
  destruct (isNaN (latencyOf it)) eqn:En; cbn [negb].
  - (* no numeric latency: nothing changes *)
    assert (El : latencyOf it = NaN) by (destruct (latencyOf it); try discriminate; reflexivity).
    destruct found as [s|]; unfold slowestOf.
    + intros (Hs & Hall & before & x & after & -> & Hx & Hn & Hb).
      split; [exact Hs|]. split.
      * apply Forall_app. split; [exact Hall|]. constructor; [|constructor].
        rewrite El. reflexivity.
      * exists before, x, (after ++ [it]). rewrite <- List.app_assoc.
        split; [reflexivity|]. split; [exact Hx|]. split; [exact Hn|exact Hb].
    + intros Hall. apply Forall_app. split; [exact Hall|].
      constructor; [exact El|constructor].
  - assert (El : latencyOf it <> NaN) by (intros F; rewrite F in En; discriminate En).
    destruct found as [s|].
    + destruct (number_gt (latencyOf it) (AppStatic.slowMs s)) eqn:G;
        unfold slowestOf; cbn [AppStatic.slowMs AppStatic.slowName];
        intros (Hs & Hall & before & x & after & -> & Hx & Hn & Hb).
      * split; [exact El|]. split.
        { apply Forall_app. split.
          - eapply Forall_impl; [exact Hall|]. intros y Hy. simpl in Hy.
            apply (number_gt_replace _ _ _ G Hy).
          - constructor; [|constructor]. apply number_gt_irrefl. }
        exists (before ++ x :: after), it, []. split; [reflexivity|].
        split; [reflexivity|]. split; [reflexivity|].
        eapply Forall_impl; [exact Hall|]. intros y Hy. simpl in Hy.
        apply (number_gt_replace _ _ _ G Hy).
      * split; [exact Hs|]. split.
        { apply Forall_app. split; [exact Hall|]. constructor; [|constructor].
          exact G. }
        exists before, x, (after ++ [it]). rewrite <- List.app_assoc.
        split; [reflexivity|]. split; [exact Hx|]. split; [exact Hn|exact Hb].
    + unfold slowestOf; cbn [AppStatic.slowMs AppStatic.slowName].
      intros Hall. split; [exact El|]. split.
      { apply Forall_app. split.
        - eapply Forall_impl; [exact Hall|]. intros y Hy. simpl in Hy.
          rewrite Hy. reflexivity.
        - constructor; [|constructor]. apply number_gt_irrefl. }
      exists items, it, []. split; [reflexivity|]. split; [reflexivity|].
      split; [reflexivity|].
      eapply Forall_impl; [exact Hall|]. intros y Hy. right. exact Hy.
Qed.

Lemma slowest_loop (items : list object) :
  slowestOf (List.fold_left AppStatic.slowestStep items None) items.
Proof.
  induction items as [|it items IH] using List.rev_ind.
  - simpl. constructor.
  - rewrite List.fold_left_app. simpl. apply slowestStep_keeps. exact IH.
Qed.

(** X21. The first dashboard script reports as slowest the first item whose
    latency is the greatest: no item has a greater latency, the items before
    it have a smaller one or none, and its name is the one shown; it reports
    nothing exactly when no item has a numeric latency. The three counters
    are those of the later script. *)
Theorem slowest_service (items : list object) :
  let stats := AppStatic.computeTopStats items in
  (AppStatic.slowest stats = None <->
     Forall (fun it => latencyOf it = NaN) items) /\
  (forall s, AppStatic.slowest stats = Some s ->
     AppStatic.slowMs s <> NaN /\
     Forall (fun it => number_gt (latencyOf it) (AppStatic.slowMs s) = false) items /\
     exists before it after,
       items = before ++ it :: after /\
       latencyOf it = AppStatic.slowMs s /\
       AppStatic.slowName s
       = nullish (pick it ["name"; "service"; "service_name"]) (VStr "—") /\
       Forall (fun x => number_gt (AppStatic.slowMs s) (latencyOf x) = true \/
                        latencyOf x = NaN) before) /\
  AppStatic.svcCount stats = svcCount (computeTopStats items) /\
  AppStatic.upCount stats = upCount (computeTopStats items) /\
  AppStatic.downCount stats = downCount (computeTopStats items).
Proof.
  cbv zeta. unfold AppStatic.computeTopStats. cbn [AppStatic.slowest].
  pose proof (slowest_loop items) as Hloop.
  split; [|split].
  - destruct (List.fold_left AppStatic.slowestStep items None) as [s|] eqn:E.
    + split; [discriminate|]. intros Hall. exfalso.
      destruct Hloop as (Hs & _ & before & it & after & -> & Hit & _).
      apply Forall_app in Hall as [_ Hall].
      apply Forall_cons in Hall as [Hnan _]. congruence.
    + split; [intros _; exact Hloop|reflexivity].
  - intros s E. rewrite E in Hloop. exact Hloop.
  - repeat split; reflexivity.
Qed.
End SlowestFacts.

Example sampleItems_slowest :
  AppStatic.slowest (@AppStatic.computeTopStats plainBuiltins sampleItems)
  = Some {| AppStatic.slowName := VStr "Purolator Shipping (uat)";
            AppStatic.slowMs := Fin 30000 |}.
Proof. reflexivity. Qed.

(** ** More on HTML escaping *)

Lemma length_append (s t : string) :
  String.length (String.append s t) = (String.length s + String.length t)%nat.
Proof.
  induction s as [|a s IH]; [reflexivity|].
  rewrite append_cons. simpl. rewrite IH. reflexivity.
Qed.

Lemma append_empty_l (r : string) : String.append EmptyString r = r.
Proof. reflexivity. Qed.

Lemma escapeChar_forms (a : ascii) :
  (isSpecialChar a = false /\ escapeChar a = String a EmptyString) \/
  (isSpecialChar a = true /\
   ((a = "&"%char /\ escapeChar a = "&amp;") \/
    (a = "<"%char /\ escapeChar a = "&lt;") \/
    (a = ">"%char /\ escapeChar a = "&gt;") \/
    (a = ascii_of_nat 34 /\ escapeChar a = "&quot;") \/
    (a = ascii_of_nat 39 /\ escapeChar a = "&#039;"))).
Proof.
  destruct a as [[] [] [] [] [] [] [] []];
    first [ left; split; reflexivity
          | right; split; [reflexivity|];
            first [ left; split; reflexivity
                  | right; left; split; reflexivity
                  | right; right; left; split; reflexivity
                  | right; right; right; left; split; reflexivity
                  | right; right; right; right; split; reflexivity ] ].
Qed.

Lemma escapeChar_length (a : ascii) :
  (1 <= String.length (escapeChar a))%nat /\
  (String.length (escapeChar a) = 1%nat <-> isSpecialChar a = false).
Proof.
  destruct (escapeChar_forms a) as [(Hs & ->) | (Hs & Hc)].
  - rewrite Hs. simpl. split; [lia|tauto].
  - rewrite Hs.
    destruct Hc as [(_ & ->) | [(_ & ->) | [(_ & ->) | [(_ & ->) | (_ & ->)]]]];
      simpl; split; try lia; split; intros F; discriminate F.
Qed.

(** Two escaped texts that agree start with the same character. *)
Lemma escapeChar_head (a b : ascii) (r1 r2 : string) :
  String.append (escapeChar a) r1 = String.append (escapeChar b) r2 ->
  a = b /\ r1 = r2.
Proof.
  destruct (escapeChar_forms a) as [(Sa & ->) | (_ & Ha)];
    destruct (escapeChar_forms b) as [(Sb & ->) | (_ & Hb)].
  - rewrite !append_cons, !append_empty_l. intros E. injection E as -> ->.
    split; reflexivity.
  - destruct Hb as [(-> & ->) | [(-> & ->) | [(-> & ->) | [(-> & ->) | (-> & ->)]]]];
      rewrite !append_cons, !append_empty_l; intros E; injection E as E1 E2;
      subst a; discriminate Sa.
  - destruct Ha as [(-> & ->) | [(-> & ->) | [(-> & ->) | [(-> & ->) | (-> & ->)]]]];
      rewrite !append_cons, !append_empty_l; intros E; injection E as E1 E2;
      subst b; discriminate Sb.
  - destruct Ha as [(-> & ->) | [(-> & ->) | [(-> & ->) | [(-> & ->) | (-> & ->)]]]];
      destruct Hb as [(-> & ->) | [(-> & ->) | [(-> & ->) | [(-> & ->) | (-> & ->)]]]];
      rewrite !append_cons, !append_empty_l; intros E;
      first [ discriminate E | split; congruence ].
Qed.

Lemma escapeChar_nonempty (a : ascii) (r : string) :
  String.append (escapeChar a) r <> EmptyString.
Proof.
  destruct (escapeChar_forms a) as [(_ & ->) | (_ & Ha)].
  - rewrite append_cons. discriminate.
  - destruct Ha as [(_ & ->) | [(_ & ->) | [(_ & ->) | [(_ & ->) | (_ & ->)]]]];
      rewrite append_cons; discriminate.
Qed.

Lemma mapChars_escape_inj (s t : string) :
  mapChars escapeChar s = mapChars escapeChar t -> s = t.
Proof.
  revert t. induction s as [|a s IH]; intros [|b t] E; simpl in E.
  - reflexivity.
  - exfalso. symmetry in E. exact (escapeChar_nonempty _ _ E).
  - exfalso. exact (escapeChar_nonempty _ _ E).
  - apply escapeChar_head in E as [-> E]. rewrite (IH t E). reflexivity.
Qed.

Section EscapeMoreFacts.
Context `{JsBuiltins}.

(** X22. [escapeHtml] loses nothing: two different texts never have the
    same escaped form. *)
Theorem escapeHtml_injective (s t : string) :
  escapeHtml (VStr s) = escapeHtml (VStr t) -> s = t.
Proof.
  rewrite !escapeHtml_mapChars. simpl ToString. apply mapChars_escape_inj.
Qed.

(** X23. Escaping works piece by piece: the escaped form of a concatenation
    is the concatenation of the escaped forms. A text is returned unchanged
    exactly when it holds none of '&', '<', '>', the double quote and the
    single quote, and the escaped form is never shorter than the text. *)
Theorem escapeHtml_pieces (s t : string) :
  escapeHtml (VStr (String.append s t))
  = String.append (escapeHtml (VStr s)) (escapeHtml (VStr t)) /\
  (escapeHtml (VStr s) = s <->
     allChars (fun a => negb (isSpecialChar a)) s = true) /\
  (String.length s <= String.length (escapeHtml (VStr s)))%nat.
Proof.
  rewrite !escapeHtml_mapChars. simpl ToString.
  split; [apply mapChars_append|].
  assert (Hlen : forall u,
            (String.length u <= String.length (mapChars escapeChar u))%nat /\
            (String.length (mapChars escapeChar u) = String.length u ->
             allChars (fun a => negb (isSpecialChar a)) u = true)).
  { induction u as [|a u [IH1 IH2]]; simpl; [split; [lia|reflexivity]|].
    rewrite length_append.
    destruct (escapeChar_length a) as [H1 H2]. split; [lia|].
    intros E. assert (Ha : String.length (escapeChar a) = 1%nat) by lia.
    apply H2 in Ha. rewrite Ha. simpl. apply IH2. lia. }
  split; [|apply Hlen].
  split.
  - intros E. apply Hlen. rewrite E. reflexivity.
  - induction s as [|a s IH]; simpl; [reflexivity|].
    intros Hall. apply andb_prop in Hall as [Ha Hs].
    apply negb_true_iff in Ha.
    destruct (escapeChar_forms a) as [(_ & ->) | (F & _)]; [|congruence].
    rewrite append_cons, append_empty_l, IH by exact Hs. reflexivity.
Qed.
End EscapeMoreFacts.

Lemma escapeHtml_injective_witness :
  @escapeHtml plainBuiltins (VStr "a<b") = @escapeHtml plainBuiltins (VStr "a<b") /\
  "a<b" = "a<b".
Proof.
  split; [reflexivity|].
  apply (@escapeHtml_injective plainBuiltins "a<b" "a<b"). reflexivity.
Defined.

(** ** More on the environment filter *)

Lemma filter_idempotent {A : Type} (f : A -> bool) (l : list A) :
  List.filter f (List.filter f l) = List.filter f l.
Proof.
  induction l as [|x l IH]; simpl; [reflexivity|].
  destruct (f x) eqn:E; simpl; rewrite ?E, IH; reflexivity.
Qed.

Lemma filter_sublist {A : Type} (f : A -> bool) (l : list A) :
  sublist (List.filter f l) l.
Proof.
  induction l as [|x l IH]; simpl; [constructor|].
  destruct (f x); [apply sublist_skip|apply sublist_cons]; exact IH.
Qed.

Section FilterMoreFacts.
Context `{JsBuiltins}.

(** X24. The environment filter only selects: its result lists rows of the
    input in their order, filtering twice by the same value is filtering
    once, the "prod" rows hold no "uat" row, and a value that is truthy and
    is none of "all", "prod" and "uat" selects nothing. *)
Theorem filterByEnv_selects (items : list object) (env : value) :
  sublist (filterByEnv items env) items /\
  filterByEnv (filterByEnv items env) env = filterByEnv items env /\
  filterByEnv (filterByEnv items (VStr "prod")) (VStr "uat") = [] /\
  (truthy env = true -> env <> VStr "all" -> env <> VStr "prod" ->
   env <> VStr "uat" -> filterByEnv items env = []).
Proof.
  split; [|split; [|split]].
  - unfold filterByEnv. destruct (negb (truthy env) || strictEq env (VStr "all"));
      [reflexivity|apply filter_sublist].
  - unfold filterByEnv. destruct (negb (truthy env) || strictEq env (VStr "all"));
      [reflexivity|apply filter_idempotent].
  - unfold filterByEnv. simpl.
    induction items as [|it items IH]; simpl; [reflexivity|].
    destruct (inferEnv_total it) as [E | E]; rewrite E; simpl; [exact IH|].
    rewrite E. simpl. exact IH.
  - intros Ht Hall Hprod Huat. unfold filterByEnv. rewrite Ht. cbn [negb orb].
    assert (Hnot : strictEq env (VStr "all") = false).
    { destruct env as [| |b|n|s]; try reflexivity.
      - destruct n; reflexivity.
      - simpl. destruct (String.eqb_spec s "all") as [->|_]; [contradiction Hall|]; reflexivity. }
    rewrite Hnot.
    induction items as [|it items IH]; [reflexivity|]. cbn [List.filter].
    assert (Hit : strictEq (VStr (inferEnv it)) env = false).
    { destruct env as [| |b|n|s]; try reflexivity. simpl.
      destruct (String.eqb_spec (inferEnv it) s) as [<-|_]; [|reflexivity].
      destruct (inferEnv_total it) as [E | E]; rewrite E in *;
        [contradiction Huat|contradiction Hprod]; reflexivity. }
    rewrite Hit. exact IH.
Qed.
End FilterMoreFacts.
